(** * explode-document: top-level declaration classifier and extraction planner

    A shallow embedding of [explodeDocument.ts].  The repository carries two
    revisions of that module: the first one (module [V1] below) collects
    [vscode.Range] values, the second one (module [V2]) collects
    [{start, end, label, kind}] targets, sorts them and logs what it does.

    The TypeScript compiler API and the VS Code API are collaborators: a
    syntax tree is data handed over by the parser, and every call into the
    editor is recorded as an event of a trace. *)

From Stdlib Require Import ZArith List Bool String Ascii Lia DecimalString.
From Stdlib Require Import Permutation Sorted.
Import ListNotations.

Open Scope Z_scope.

(** ** Syntax trees, as the TypeScript parser hands them over *)

(** The bits of [ts.NodeFlags] that the code tests.  Their numeric values
    belong to the TypeScript library, not to this repository, so they are
    taken as parameters; the two laws hold in every release of the library
    ([BlockScoped] is a mask that contains [Let] and [Const]). *)
Class NodeFlags : Type := {
  NodeFlags_Let : Z;
  NodeFlags_Const : Z;
  NodeFlags_BlockScoped : Z;
  Let_in_BlockScoped : Z.land NodeFlags_Let NodeFlags_BlockScoped = NodeFlags_Let;
  Const_in_BlockScoped : Z.land NodeFlags_Const NodeFlags_BlockScoped = NodeFlags_Const
}.

(** TypeScript 5.2 and later: [Let = 1], [Const = 2], [Using = 4],
    [BlockScoped = Let | Const | Using]. *)
#[refine] Instance ts_NodeFlags : NodeFlags :=
  {| NodeFlags_Let := 1; NodeFlags_Const := 2; NodeFlags_BlockScoped := 7 |}.
Proof. all: reflexivity. Defined.

(** Before 5.2: [BlockScoped = Let | Const]. *)
#[refine] Instance ts_NodeFlags_legacy : NodeFlags | 10 :=
  {| NodeFlags_Let := 1; NodeFlags_Const := 2; NodeFlags_BlockScoped := 3 |}.
Proof. all: reflexivity. Defined.

(** An identifier node: [getStart(sf, true)], [getEnd()] and [.text].
    Identifiers carry no JSDoc, so [getStart(sf)] and [getStart(sf, true)]
    agree on them. *)
Record Identifier : Type := mkIdentifier {
  id_getStart : Z;
  id_getEnd : Z;
  id_text : string
}.

(** [VariableDeclaration.name] is an identifier or a binding pattern. *)
Inductive BindingName : Type :=
| BindingIdentifier (i : Identifier)
| BindingPattern.

Record VariableDeclaration : Type := mkVariableDeclaration {
  vd_name : BindingName;
  vd_getStart : Z;
  vd_getEnd : Z
}.

Record VariableDeclarationList : Type := mkVariableDeclarationList {
  flags : Z;
  declarations : list VariableDeclaration
}.

Inductive DeclarationKind : Type :=
| ClassDeclaration
| InterfaceDeclaration
| EnumDeclaration
| FunctionDeclaration
| TypeAliasDeclaration.

(** The part of a node that depends on its [kind]. *)
Inductive Syntax : Type :=
| Declaration (k : DeclarationKind) (name : option Identifier)
| VariableStatement (declarationList : VariableDeclarationList)
| OtherSyntax (kindName : string) (name : option Identifier).

(** Objects are compared by reference in the source ([node.parent ===
    sourceFile]); [uid] stands for the identity of the node object and
    [parent] holds the identity of the object the parser linked it to. *)
#[warnings="-register-all"]
Inductive Node : Type := mkNode {
  uid : nat;
  parent : option nat;
  pos : Z;
  getStart : Z;          (* getStart(sf, true) *)
  getEnd : Z;
  modifiers : list string;
  syntax : Syntax;
  children : list Node   (* in the order of ts.forEachChild *)
}.

Record SourceFile : Type := mkSourceFile {
  sf_node : Node;
  sf_fileName : string;
  sf_text : string
}.

(** [ts.SyntaxKind[n.kind]] *)
Definition SyntaxKind_name (n : Node) : string :=
  match syntax n with
  | Declaration ClassDeclaration _ => "ClassDeclaration"
  | Declaration InterfaceDeclaration _ => "InterfaceDeclaration"
  | Declaration EnumDeclaration _ => "EnumDeclaration"
  | Declaration FunctionDeclaration _ => "FunctionDeclaration"
  | Declaration TypeAliasDeclaration _ => "TypeAliasDeclaration"
  | VariableStatement _ => "FirstStatement"   (* alias of VariableStatement *)
  | OtherSyntax k _ => k
  end%string.

(** The [name] property of a node, [undefined] when it has none. *)
Definition node_name (n : Node) : option Identifier :=
  match syntax n with
  | Declaration _ name => name
  | VariableStatement _ => None
  | OtherSyntax _ name => name
  end.

Definition isClassDeclaration (n : Node) : bool :=
  match syntax n with Declaration ClassDeclaration _ => true | _ => false end.
Definition isInterfaceDeclaration (n : Node) : bool :=
  match syntax n with Declaration InterfaceDeclaration _ => true | _ => false end.
Definition isEnumDeclaration (n : Node) : bool :=
  match syntax n with Declaration EnumDeclaration _ => true | _ => false end.
Definition isFunctionDeclaration (n : Node) : bool :=
  match syntax n with Declaration FunctionDeclaration _ => true | _ => false end.
Definition isTypeAliasDeclaration (n : Node) : bool :=
  match syntax n with Declaration TypeAliasDeclaration _ => true | _ => false end.
Definition isVariableStatement (n : Node) : bool :=
  match syntax n with VariableStatement _ => true | _ => false end.

(** [node.parent === sourceFile] *)
Definition parent_is (node : Node) (sourceFile : SourceFile) : bool :=
  match parent node with
  | Some p => Nat.eqb p (uid (sf_node sourceFile))
  | None => false
  end.

(** [(flags & bit) !== 0]; node flags are below [2^31], where the 32-bit
    [&] of JavaScript is the bitwise and of the integers. *)
Definition has_flag (fl bit : Z) : bool := negb (Z.land fl bit =? 0).

(** [declarations.length > 0] *)
Definition nonempty {A : Type} (l : list A) : bool :=
  (0 <? Z.of_nat (List.length l)).

(** ** JavaScript library functions the module relies on *)

(** [String.prototype.substring(a, b)]: both indices are clamped to the
    string and swapped when out of order. *)
Definition js_substring (s : string) (a b : Z) : string :=
  let len := Z.of_nat (String.length s) in
  let a' := Z.max 0 (Z.min a len) in
  let b' := Z.max 0 (Z.min b len) in
  let lo := Z.min a' b' in
  let hi := Z.max a' b' in
  String.substring (Z.to_nat lo) (Z.to_nat (hi - lo)) s.

(** [id.getText(sf)]: the source text between [getStart] and [getEnd]. *)
Definition getText (id : Identifier) (sf : SourceFile) : string :=
  js_substring (sf_text sf) (id_getStart id) (id_getEnd id).

(** A number inside a template literal. *)
Definition show (z : Z) : string := NilZero.string_of_int (Z.to_int z).

(** [Array.prototype.sort(compareFn)]: a stable sort; [x] is placed before
    the first element it does not compare greater than. *)
Fixpoint sort_insert {A : Type} (compareFn : A -> A -> Z) (x : A) (l : list A) : list A :=
  match l with
  | [] => [x]
  | y :: l' => if compareFn x y <=? 0 then x :: y :: l'
               else y :: sort_insert compareFn x l'
  end.

Fixpoint Array_sort {A : Type} (compareFn : A -> A -> Z) (l : list A) : list A :=
  match l with
  | [] => []
  | x :: l' => sort_insert compareFn x (Array_sort compareFn l')
  end.

(** [ts.forEachChild(n, cb)] with a callback that returns nothing: every
    child is visited, in order; the callback threads the collected state. *)
Definition forEachChild {S : Type} (n : Node) (cb : Node -> S -> S) (s : S) : S :=
  fold_left (fun acc c => cb c acc) (children n) s.

(** ** The editor, as seen from the module *)

Record Position : Type := mkPosition { line : Z; character : Z }.

(** [new vscode.Selection(s, e)] / [new vscode.Range(s, e)] *)
Record Selection : Type := mkSelection { sel_start : Position; sel_end : Position }.

Record CodeAction : Type := mkCodeAction {
  title : option string;
  action_kind : option string;     (* the [value] of its CodeActionKind *)
  edit : option string;            (* a workspace edit, by name *)
  command : option string          (* [command.command] *)
}.

Record TextDocument : Type := mkTextDocument {
  languageId : string;
  fileName : string;
  fsPath : string;                 (* doc.uri.fsPath *)
  getDocText : string;             (* doc.getText() *)
  positionAt : Z -> Position
}.

Record TextEditor : Type := mkTextEditor { document : TextDocument }.

(** A promise may reject, and a [throw] may throw, any value: an [Error]
    object, [undefined], [null], or some other value, of which the module
    reads the [message] property (if it has one, as a template literal
    prints it) or takes the string conversion [String(value)]. *)
Inductive Thrown : Type :=
| ErrorObject (message : string)
| Undefined
| Null
| OtherValue (message : option string) (text : string).

(** Every call into the editor, the TypeScript library or the console. *)
Inductive Event : Type :=
| CreateOutputChannel (name : string)
| ChannelShow (preserveFocus : bool)
| AppendLine (line : string)
| ConsoleDebug (line : string)
| ShowErrorMessage (msg : string)
| ShowWarningMessage (msg : string)
| ShowInformationMessage (msg : string)
| ExtensionActivate (id : string)
| GetDiagnostics
| SetTimeout (ms : Z)
| CreateSourceFile (fileName : string)
| SetSelection (sel : Selection)
| RevealRange (s e : Position)
| WithProgress (title : string)
| ProgressReport (message : string)
| ExecuteCodeActionProvider (sel : Selection) (kind : option string)
| ExecuteCodeAction (action : CodeAction)
| EditorActionCodeAction (kind : string)
| ApplyEdit (edit : string)
| ExecuteCommand (command : string)
| Rejected (call : Event) (error : Thrown).   (* the awaited [call] rejected *)

(** An awaited call resolves or rejects; a rejection carries the value
    the promise was rejected with. *)
Inductive Outcome (A : Type) : Type :=
| Returns (a : A)
| Throws (error : Thrown).
Arguments Returns {A} a.
Arguments Throws {A} error.

(** The [TypeError] of the engine for a property read on [undefined] or
    [null] (the wording is that of V8, the engine of the editor). *)
Definition TypeError_reading (property : string) (value : string) : Thrown :=
  ErrorObject ("Cannot read properties of " ++ value ++ " (reading '" ++ property ++ "')").

(** [`${(e as Error).message}`]: the cast is erased, so this is a plain
    property read.  It throws on [undefined] and [null]; a value without a
    [message] gives [undefined], which the template prints as such. *)
Definition read_message (e : Thrown) : Outcome string :=
  match e with
  | ErrorObject m => Returns m
  | OtherValue (Some m) _ => Returns m
  | OtherValue None _ => Returns "undefined"%string
  | Undefined => Throws (TypeError_reading "message" "undefined")
  | Null => Throws (TypeError_reading "message" "null")
  end.

(** [err instanceof Error ? err.message : String(err)] *)
Definition error_message (err : Thrown) : string :=
  match err with
  | ErrorObject m => m
  | Undefined => "undefined"
  | Null => "null"
  | OtherValue _ text => text
  end%string.

(** What the surroundings answer.  A collaborator is stateful, so each
    answer may depend on everything that happened before the call. *)
Record Host : Type := mkHost {
  activeTextEditor : option TextEditor;
  now : list Event -> string;                         (* new Date().toISOString() *)
  getExtension : string -> option string;             (* the [id] of the extension *)
  activate : list Event -> Outcome unit;
  getDiagnostics : list Event -> bool;                (* diags !== undefined *)
  createSourceFile : string -> string -> SourceFile;  (* setParentNodes = true *)
  executeCodeActionProvider :
    list Event -> Selection -> option string -> Outcome (option (list CodeAction));
  executeCodeAction : list Event -> CodeAction -> Outcome unit;
  editorActionCodeAction : list Event -> string -> Outcome unit;
  applyEdit : list Event -> string -> Outcome unit;
  executeCommand : list Event -> string -> Outcome unit
}.

(** The module-level [channel] variable and the trace of calls so far. *)
Record State : Type := mkState {
  channel : bool;
  trace : list Event
}.

(** Computations that read and extend the state and may throw. *)
Definition M (A : Type) : Type := State -> Outcome A * State.

Definition ret {A : Type} (a : A) : M A := fun st => (Returns a, st).

Definition bind {A B : Type} (m : M A) (k : A -> M B) : M B :=
  fun st =>
    match m st with
    | (Returns a, st') => k a st'
    | (Throws e, st') => (Throws e, st')
    end.

Definition throw {A : Type} (e : Thrown) : M A := fun st => (Throws e, st).

(** [(e as Error).message] in a computation: nothing is called, and the
    read may throw. *)
Definition message_of (e : Thrown) : M string := fun st => (read_message e, st).

(** [try { m } catch (e) { handler(e) }] *)
Definition try_catch {A : Type} (m : M A) (handler : Thrown -> M A) : M A :=
  fun st =>
    match m st with
    | (Returns a, st') => (Returns a, st')
    | (Throws e, st') => handler e st'
    end.

Definition emit (e : Event) : M unit :=
  fun st => (Returns tt, mkState (channel st) (trace st ++ [e])).

(** An awaited call: the call is recorded and the host answers from what
    happened so far; a rejection is recorded too. *)
Definition call {A : Type} (e : Event) (answer : list Event -> Outcome A) : M A :=
  fun st =>
    match answer (trace st) with
    | Returns a => (Returns a, mkState (channel st) (trace st ++ [e]))
    | Throws m => (Throws m, mkState (channel st) (trace st ++ [e; Rejected e m]))
    end.

Definition get_trace : M (list Event) := fun st => (Returns (trace st), st).

Declare Scope monad_scope.
Delimit Scope monad_scope with monad.
Notation "x <- m ;; k" := (bind m (fun x => k))
  (at level 61, m at next level, right associativity) : monad_scope.
Notation "m ;; k" := (bind m (fun _ => k))
  (at level 61, right associativity) : monad_scope.

(** [CodeActionKind.contains]: equal, or below it in the dotted hierarchy. *)
Definition CodeActionKind_contains (this other : string) : bool :=
  String.eqb this other || String.prefix (this ++ ".") other.

(** [vscode.CodeActionKind.RefactorMove.append("newFile")] *)
Definition RefactorMove_newFile : string := "refactor.move.newFile".

Definition ascii_lower (c : ascii) : ascii :=
  let n := nat_of_ascii c in
  if (Nat.leb 65 n && Nat.leb n 90)%bool then ascii_of_nat (n + 32) else c.

Fixpoint string_lower (s : string) : string :=
  match s with
  | EmptyString => EmptyString
  | String c s' => String (ascii_lower c) (string_lower s')
  end.

Fixpoint string_infix (needle hay : string) : bool :=
  String.prefix needle hay ||
  match hay with
  | EmptyString => false
  | String _ hay' => string_infix needle hay'
  end.

(** [/Move to a new file/i.test(s)] *)
Definition test_move_to_a_new_file (s : string) : bool :=
  string_infix "move to a new file" (string_lower s).

(** ** First revision of [explodeDocument.ts] *)
Module V1.
Section Revision.
Context {NF : NodeFlags}.

Definition isTopLevelDeclaration (node : Node) (sourceFile : SourceFile) : bool :=
  let isTop := fun (_ : Node) => parent_is node sourceFile in
  if negb (isTop node) then false
  else if isClassDeclaration node
          || isInterfaceDeclaration node
          || isEnumDeclaration node
          || isFunctionDeclaration node
          || isTypeAliasDeclaration node
  then true
  else match syntax node with
       | VariableStatement declList =>
           let isBlockScoped :=
             has_flag (flags declList) NodeFlags_BlockScoped
             || has_flag (flags declList) NodeFlags_Const
             || has_flag (flags declList) NodeFlags_Let in
           if isBlockScoped && nonempty (declarations declList) then true
           else false
       | _ => false
       end.

Definition checkDocumentLanguage (doc : TextDocument) : bool :=
  String.eqb (languageId doc) "typescript"
  || String.eqb (languageId doc) "typescriptreact"
  || String.eqb (languageId doc) "javascript"
  || String.eqb (languageId doc) "javascriptreact".

(** *** The walk *)

(** It starts at the source file itself and pushes one [vscode.Range] per
    declaration; the array is never sorted. *)
Section Planner.
Variable doc : TextDocument.
Variable sf : SourceFile.

Definition pushNameRange (start end_ : Z) (nameRanges : list Selection) : list Selection :=
  nameRanges ++ [mkSelection (positionAt doc start) (positionAt doc end_)].

Fixpoint visit (n : Node) (nameRanges : list Selection) {struct n} : list Selection :=
  let isTop := fun (m : Node) => parent_is m sf in
  if negb (isTop n) then
    forEachChild n visit nameRanges
  else if negb (isTopLevelDeclaration n sf) then
    forEachChild n visit nameRanges
  else if negb (isVariableStatement n) then
    match node_name n with
    | Some id => pushNameRange (id_getStart id) (id_getEnd id) nameRanges
    | None => pushNameRange (getStart n) (getEnd n) nameRanges
    end
  else
    match syntax n with
    | VariableStatement declList =>
        let isBlockScoped :=
          has_flag (flags declList) NodeFlags_BlockScoped
          || has_flag (flags declList) NodeFlags_Const
          || has_flag (flags declList) NodeFlags_Let in
        if isBlockScoped && nonempty (declarations declList) then
          match declarations declList with
          | first :: _ =>
              match vd_name first with
              | BindingIdentifier name =>
                  pushNameRange (id_getStart name) (id_getEnd name) nameRanges
              | BindingPattern =>
                  pushNameRange (vd_getStart first) (vd_getEnd first) nameRanges
              end
          | [] => nameRanges   (* not reached: the list is not empty here *)
          end
        else nameRanges
    | _ => nameRanges   (* not reached: [n] is a variable statement here *)
    end.

(** [visit(sf)] on the empty [nameRanges] array. *)
Definition nameRanges : list Selection := visit (sf_node sf) [].

End Planner.

(** *** The command *)
Section Effects.
Variable host : Host.
Local Open Scope string_scope.
Local Open Scope monad_scope.

Definition is_candidate (a : CodeAction) : bool :=
  match action_kind a with
  | Some k => CodeActionKind_contains RefactorMove_newFile k
  | None => false
  end.

(** The body of [for (const action of candidates)]. *)
Definition apply_action (action : CodeAction) : M unit :=
  try_catch
    (match edit action with
     | Some e => call (ApplyEdit e) (fun t => applyEdit host t e)
     | None => ret tt
     end ;;
     match command action with
     | Some c => call (ExecuteCommand c) (fun t => executeCommand host t c)
     | None => ret tt
     end)
    (fun err =>
       let msg := error_message err in
       emit (ShowWarningMessage ("Explode Document: one declaration failed: " ++ msg))).

Fixpoint apply_actions (candidates : list CodeAction) : M unit :=
  match candidates with
  | [] => ret tt
  | action :: rest => apply_action action ;; apply_actions rest
  end.

(** The body of [for (const range of nameRanges)]. *)
Definition process_range (total : nat) (done : Z) (range : Selection) : M unit :=
  emit (ProgressReport ("Processing " ++ show (done + 1) ++ "/" ++ show (Z.of_nat total))) ;;
  r <- call (ExecuteCodeActionProvider range (Some RefactorMove_newFile))
            (fun t => executeCodeActionProvider host t range (Some RefactorMove_newFile)) ;;
  let actions := match r with Some a => a | None => [] end in
  let candidates := filter is_candidate actions in
  apply_actions candidates.

Fixpoint process_ranges (total : nat) (done : Z) (ranges : list Selection) : M unit :=
  match ranges with
  | [] => ret tt
  | range :: rest => process_range total done range ;; process_ranges total (done + 1) rest
  end.

Definition explodeDocument : M unit :=
  match activeTextEditor host with
  | None => emit (ShowErrorMessage "Explode Document: No active editor.")
  | Some editor =>
      let doc := document editor in
      let ok := checkDocumentLanguage doc in
      if negb ok then emit (ShowErrorMessage "Explode Document: TS/JS files only.")
      else
        let text := getDocText doc in
        emit (CreateSourceFile (fileName doc)) ;;
        let sf := createSourceFile host (fileName doc) text in
        let nameRanges := nameRanges doc sf in
        match nameRanges with
        | [] =>
            emit (ShowInformationMessage "Explode Document: No top-level declarations found.")
        | _ :: _ =>
            emit (WithProgress "Explode Document: Move each decl to a new file") ;;
            process_ranges (List.length nameRanges) 0 nameRanges ;;
            emit (ShowInformationMessage
                    "Explode Document: Done. Sanity-check the results before committing.")
        end
  end.

End Effects.
End Revision.
End V1.

(** ** Second revision of [explodeDocument.ts] *)

Record Target : Type := mkTarget {
  start : Z;
  end_ : Z;
  label : string;
  kind : string
}.

Module V2.
Section Revision.
Context {NF : NodeFlags}.

Definition isTopLevelDeclaration (node : Node) (sourceFile : SourceFile) : bool :=
  if negb (parent_is node sourceFile) then false
  else if isClassDeclaration node
          || isInterfaceDeclaration node
          || isEnumDeclaration node
          || isFunctionDeclaration node
          || isTypeAliasDeclaration node
  then true
  else match syntax node with
       | VariableStatement declarationList =>
           let flags := flags declarationList in
           let block :=
             has_flag flags NodeFlags_Const
             || has_flag flags NodeFlags_Let
             || has_flag flags NodeFlags_BlockScoped in
           block && nonempty (declarations declarationList)
       | _ => false
       end.

Definition isTSLike (doc : TextDocument) : bool :=
  String.eqb (languageId doc) "typescript"
  || String.eqb (languageId doc) "typescriptreact"
  || String.eqb (languageId doc) "javascript"
  || String.eqb (languageId doc) "javascriptreact".

(** *** The walk and the sort *)
Section Planner.
Variable sf : SourceFile.

Definition push (start end_ : Z) (label kind : string) (targets : list Target) : list Target :=
  targets ++ [mkTarget start end_ label kind].

Fixpoint visit (n : Node) (targets : list Target) {struct n} : list Target :=
  if negb (isTopLevelDeclaration n sf) then
    forEachChild n visit targets
  else if negb (isVariableStatement n) then
    let id := node_name n in
    let label := match id with Some i => getText i sf | None => "<anonymous>"%string end in
    push (match id with Some i => id_getStart i | None => getStart n end)
         (match id with Some i => id_getEnd i | None => getEnd n end)
         label (SyntaxKind_name n) targets
  else
    match syntax n with
    | VariableStatement declarationList =>
        match declarations declarationList with
        | first :: _ =>
            match vd_name first with
            | BindingIdentifier name =>
                push (id_getStart name) (id_getEnd name) (id_text name) "Variable" targets
            | BindingPattern =>
                push (vd_getStart first) (vd_getEnd first) "<var>" "Variable" targets
            end
        | [] => targets
        end
    | _ => targets   (* not reached: [n] is a variable statement here *)
    end.

(** [ts.forEachChild(sf, visit)] on the empty [targets] array. *)
Definition collect : list Target :=
  forEachChild (sf_node sf) visit [].

(** [targets.sort((a, b) => b.start - a.start)] *)
Definition plan : list Target :=
  Array_sort (fun a b => start b - start a) collect.

End Planner.

(** *** Logging *)
Section Effects.
Variable host : Host.
Local Open Scope string_scope.
Local Open Scope monad_scope.

(** [out()]: the channel is created on first use. *)
Definition out : M unit :=
  fun st =>
    if channel st then (Returns tt, st)
    else (Returns tt, mkState true (trace st ++ [CreateOutputChannel "Explode Document"])%list).

Definition log (msg : string) : M unit :=
  t <- get_trace ;;
  let ts := now host t in
  let line := "[" ++ ts ++ "] " ++ msg in
  out ;;
  emit (AppendLine line) ;;
  emit (ConsoleDebug line).

Definition sleep (ms : Z) : M unit := emit (SetTimeout ms).

(** The diagnostics ping of [waitForTypeScriptReady]: [for (let i = k; i < 20; i++)]
    with [n] rounds left; [true] when the function has returned from
    inside the loop. *)
Fixpoint diagnostics_loop (doc : TextDocument) (n : nat) (i : Z) : M bool :=
  match n with
  | O => ret false
  | S n' =>
      diags <- call GetDiagnostics (fun t => Returns (getDiagnostics host t)) ;;
      if diags : bool then
        log ("Diagnostics check " ++ show (i + 1) ++ " ok for " ++ fsPath doc) ;;
        ret true
      else
        sleep 100 ;;
        diagnostics_loop doc n' (i + 1)
  end.

(** The first block of [waitForTypeScriptReady]: the extension is looked
    up and, when it is there, activated. *)
Definition wake : M unit :=
  match getExtension host "vscode.typescript-language-features" with
  | None => log "TypeScript extension vscode.typescript-language-features not found"
  | Some id =>
      log ("Activating TypeScript extension " ++ id) ;;
      try_catch
        (call (ExtensionActivate id) (activate host) ;;
         log "TypeScript extension activated")
        (fun e =>
           message <- message_of e ;;
           log ("TypeScript extension activation error: " ++ message))
  end.

Definition waitForTypeScriptReady (doc : TextDocument) : M unit :=
  wake ;;
  (* "Nudge TS by asking for diagnostics a few times" *)
  returned <- diagnostics_loop doc 20 0 ;;
  if returned : bool then ret tt
  else log "Warning: diagnostics ping loop ended without confirmation".

Definition is_move_newFile (x : CodeAction) : bool :=
  match action_kind x with
  | Some k => CodeActionKind_contains RefactorMove_newFile k
  | None => false
  end.

Definition show_sel (sel : Selection) : string :=
  show (line (sel_start sel)) ++ ":" ++ show (character (sel_start sel)) ++ "-" ++
  show (line (sel_end sel)) ++ ":" ++ show (character (sel_end sel)).

Definition show_length {A : Type} (l : list A) : string := show (Z.of_nat (List.length l)).

(** The body of [queryMoveNewFileActions] has two commented blocks.
    "Try strict kind string first": [Some filtered] stands for the early
    [return filtered]. *)
Definition query_with_kind (sel : Selection) : M (option (list CodeAction)) :=
  let KIND := "refactor.move.newFile" in
  try_catch
    (log ("Query provider with kind " ++ KIND ++ " at " ++ show_sel sel) ;;
     r <- call (ExecuteCodeActionProvider sel (Some KIND))
               (fun t => executeCodeActionProvider host t sel (Some KIND)) ;;
     let a := match r with Some a => a | None => [] end in
     let filtered := filter is_move_newFile a in
     log ("Provider returned " ++ show_length a ++ " actions, filtered to " ++
          show_length filtered ++ " by kind") ;;
     match filtered with
     | [] => ret None
     | _ :: _ => ret (Some filtered)
     end)
    (fun e =>
       message <- message_of e ;;
       log ("Provider kind query rejected: " ++ message) ;;
       ret None).

(** "Fallback: no kind, filter manually". *)
Definition query_without_kind (sel : Selection) : M (list CodeAction) :=
  log "Query provider without kind and filter client-side" ;;
  r <- call (ExecuteCodeActionProvider sel None)
            (fun t => executeCodeActionProvider host t sel None) ;;
  let any := match r with Some a => a | None => [] end in
  let filtered :=
    filter (fun x => is_move_newFile x
                     || test_move_to_a_new_file
                          (match title x with Some s => s | None => "" end)) any in
  log ("Provider no-kind returned " ++ show_length any ++ " actions, filtered to " ++
       show_length filtered) ;;
  ret filtered.

Definition queryMoveNewFileActions (doc : TextDocument) (sel : Selection) : M (list CodeAction) :=
  early <- query_with_kind sel ;;
  match early with
  | Some filtered => ret filtered
  | None => query_without_kind sel
  end.

Definition executeEditorCodeAction (kind : string) : M bool :=
  try_catch
    (log ("Invoke editor.action.codeAction with kind " ++ kind ++ " and apply first") ;;
     call (EditorActionCodeAction kind) (fun t => editorActionCodeAction host t kind) ;;
     ret true)
    (fun e =>
       message <- message_of e ;;
       log ("editor.action.codeAction failed: " ++ message) ;;
       ret false).

Definition dquote : string := String "034" EmptyString.

(** *** The command *)

(** The body of [for (const t of targets)] has two commented blocks.
    "Try provider path first": the value is [usedProvider] after the
    [try]/[catch]. *)
Definition provider_path (doc : TextDocument) (t : Target) (sel : Selection) : M bool :=
  try_catch
    (actions <- queryMoveNewFileActions doc sel ;;
     log ("Provider path candidate count for " ++ label t ++ ": " ++ show_length actions) ;;
     match actions with
     | action :: _ =>
         let kindStr := match action_kind action with Some v => v | None => "(no kind)" end in
         log ("Executing CodeAction via vscode.executeCodeAction title=" ++ dquote ++
              match title action with Some s => s | None => "undefined" end ++
              dquote ++ " kind=" ++ dquote ++ kindStr ++ dquote) ;;
         call (ExecuteCodeAction action) (fun tr => executeCodeAction host tr action) ;;
         sleep 120 ;;
         ret true
     | [] => ret false
     end)
    (fun e =>
       message <- message_of e ;;
       log ("Provider execute failed for " ++ label t ++ ": " ++ message) ;;
       ret false).

(** "Fallback path: generic codeAction executor". *)
Definition fallback_path (t : Target) : M unit :=
  log ("No provider-executed action for " ++ label t ++
       ". Fallback to editor.action.codeAction kind=refactor.move.newFile") ;;
  ok <- executeEditorCodeAction "refactor.move.newFile" ;;
  if negb ok then log ("Fallback codeAction executor did not apply for " ++ label t)
  else
    log ("Fallback applied for " ++ label t) ;;
    sleep 150.

(** One round of the loop; [done] is the counter before the round and
    [total] is [targets.length]. *)
Definition process_target (doc : TextDocument) (total : nat) (done : Z) (t : Target) : M unit :=
  let s := positionAt doc (start t) in
  let e := positionAt doc (end_ t) in
  let sel := mkSelection s e in
  emit (SetSelection sel) ;;
  emit (RevealRange s e) ;;
  let done := done + 1 in
  emit (ProgressReport ("Processing " ++ show done ++ "/" ++ show (Z.of_nat total) ++ " " ++ label t)) ;;
  log ("Processing " ++ show done ++ "/" ++ show (Z.of_nat total) ++ " label=" ++ label t ++
       " set selection and reveal") ;;
  usedProvider <- provider_path doc t sel ;;
  if usedProvider : bool then ret tt   (* continue *)
  else fallback_path t.

Fixpoint process_targets (doc : TextDocument) (total : nat) (done : Z) (ts : list Target) : M unit :=
  match ts with
  | [] => ret tt
  | t :: ts' =>
      process_target doc total done t ;;
      process_targets doc total (done + 1) ts'
  end.

(** [targets.forEach((t, i) => log(...))] *)
Fixpoint log_targets (doc : TextDocument) (total : nat) (i : Z) (ts : list Target) : M unit :=
  match ts with
  | [] => ret tt
  | t :: ts' =>
      let s := positionAt doc (start t) in
      let e := positionAt doc (end_ t) in
      log ("Decl " ++ show (i + 1) ++ "/" ++ show (Z.of_nat total) ++ " label=" ++ label t ++
           " kind=" ++ kind t ++ " range=" ++ show_sel (mkSelection s e)) ;;
      log_targets doc total (i + 1) ts'
  end.

Definition explodeDocument : M unit :=
  out ;;
  emit (ChannelShow true) ;;
  log "==== Explode Document invoked ====" ;;
  match activeTextEditor host with
  | None =>
      let msg := "Explode Document: No active editor" in
      log msg ;;
      emit (ShowErrorMessage msg)
  | Some editor =>
      let doc := document editor in
      log ("Active document " ++ fsPath doc ++ " lang=" ++ languageId doc) ;;
      if negb (isTSLike doc) then
        let msg := "Explode Document: TS or JS files only" in
        log msg ;;
        emit (ShowErrorMessage msg)
      else
        waitForTypeScriptReady doc ;;
        let text := getDocText doc in
        emit (CreateSourceFile (fileName doc)) ;;
        let sf := createSourceFile host (fileName doc) text in
        let targets := collect sf in
        match targets with
        | [] =>
            let msg := "Explode Document: No top-level declarations found" in
            log msg ;;
            emit (ShowInformationMessage msg)
        | _ :: _ =>
            let targets := plan sf in
            log ("Found " ++ show_length targets ++ " top-level decls") ;;
            log_targets doc (List.length targets) 0 targets ;;
            emit (WithProgress "Explode Document running") ;;
            process_targets doc (List.length targets) 0 targets ;;
            log "Explode Document finished" ;;
            emit (ShowInformationMessage
                    "Explode Document finished. See the Output panel for logs")
        end
  end.

End Effects.
End Revision.
End V2.

(** ** What the parser guarantees about a tree *)

(** [createSourceFile(..., setParentNodes = true)] links every child to the
    node that holds it. *)
Fixpoint linked (n : Node) : bool :=
  forallb (fun c => match parent c with
                    | Some p => Nat.eqb p (uid n)
                    | None => false
                    end && linked c) (children n).

(** The identities of all node objects of a tree, root first. *)
Fixpoint uids (n : Node) : list nat :=
  uid n :: flat_map uids (children n).

Fixpoint distinct (l : list nat) : bool :=
  match l with
  | [] => true
  | x :: l' => negb (existsb (Nat.eqb x) l') && distinct l'
  end.

(** Parent links are right and no two node objects are the same object. *)
Definition well_linked (sf : SourceFile) : bool :=
  linked (sf_node sf) && distinct (uids (sf_node sf)).

(** All nodes strictly below [n]. *)
Fixpoint descendants (n : Node) : list Node :=
  flat_map (fun c => c :: descendants c) (children n).

(** The nodes inside some top-level node: inside a function body, a class
    body, a block, at any depth. *)
Definition nested_nodes (sf : SourceFile) : list Node :=
  flat_map descendants (children (sf_node sf)).

(** The qualifying top-level declarations of a file. *)
Definition qualifying {NF : NodeFlags} (sf : SourceFile) : list Node :=
  filter (fun c => V2.isTopLevelDeclaration c sf) (children (sf_node sf)).

(** The span the planner picks lies inside the node it is picked from:
    the name of a declaration, the first declarator of a variable statement
    or, for a declaration without a name, the node from its first token. *)
Definition within (n : Node) (s e : Z) : bool :=
  (pos n <=? s) && (s <=? e) && (e <=? getEnd n).

Definition name_inside (n : Node) : bool :=
  match syntax n with
  | VariableStatement dl =>
      match declarations dl with
      | first :: _ =>
          match vd_name first with
          | BindingIdentifier i => within n (id_getStart i) (id_getEnd i)
          | BindingPattern => within n (vd_getStart first) (vd_getEnd first)
          end
      | [] => true
      end
  | _ =>
      match node_name n with
      | Some i => within n (id_getStart i) (id_getEnd i)
      | None => within n (getStart n) (getEnd n)
      end
  end.

(** Sibling nodes follow each other in the text. *)
Fixpoint in_sequence (l : list Node) : bool :=
  match l with
  | a :: l' =>
      match l' with
      | b :: _ => (getEnd a <=? pos b) && in_sequence l'
      | [] => true
      end
  | [] => true
  end.

(** The offsets of the statements of a file, as the parser lays them out. *)
Definition well_placed (sf : SourceFile) : bool :=
  forallb (fun c => (pos c <=? getEnd c) && name_inside c) (children (sf_node sf))
  && in_sequence (children (sf_node sf)).

(** Two targets overlap when some offset lies in both half-open ranges. *)
Definition overlap (a b : Target) : Prop :=
  exists x, (start a <= x < end_ a) /\ (start b <= x < end_ b).

(** The scoping of a declaration list, read off its flags. *)
Definition is_let {NF : NodeFlags} (dl : VariableDeclarationList) : Prop :=
  Z.land (flags dl) NodeFlags_Let <> 0.
Definition is_const {NF : NodeFlags} (dl : VariableDeclarationList) : Prop :=
  Z.land (flags dl) NodeFlags_Const <> 0.
Definition is_block_scoped {NF : NodeFlags} (dl : VariableDeclarationList) : Prop :=
  Z.land (flags dl) NodeFlags_BlockScoped <> 0.
Definition is_var {NF : NodeFlags} (dl : VariableDeclarationList) : Prop :=
  Z.land (flags dl) NodeFlags_BlockScoped = 0.

(** ** Reading a trace *)
Section TraceReading.
Local Open Scope string_scope.

(** Events of the output channel and the console. *)
Definition is_output (e : Event) : bool :=
  match e with
  | CreateOutputChannel _ | ChannelShow _ | AppendLine _ | ConsoleDebug _ => true
  | _ => false
  end.

(** Events of [waitForTypeScriptReady]: waking the TypeScript extension,
    asking for diagnostics, sleeping, and logging. *)
Definition is_warmup (e : Event) : bool :=
  match e with
  | ExtensionActivate _ | GetDiagnostics | SetTimeout _ => true
  | Rejected (ExtensionActivate _) _ => true
  | _ => is_output e
  end.

(** [msg] was passed to [log]: the channel got the line, behind a timestamp. *)
Definition logged (msg : string) (evs : list Event) : Prop :=
  exists ts, In (AppendLine ("[" ++ ts ++ "] " ++ msg)) evs.

Definition selection_of (doc : TextDocument) (t : Target) : Selection :=
  mkSelection (positionAt doc (start t)) (positionAt doc (end_ t)).

(** A call that is not itself the record of a rejection. *)
Definition is_call (e : Event) : bool :=
  match e with Rejected _ _ => false | _ => true end.

(** A computation that stopped at a rejected call, its last event: the
    value thrown is the value of the rejection, or the [TypeError] of a
    catch clause that could not read its message. *)
Definition raised (e : Thrown) (evs : list Event) : Prop :=
  exists pre c v, evs = (pre ++ [c; Rejected c v])%list
                  /\ (e = v \/ read_message v = Throws e).

(** The same, past the catch clause: only the [TypeError] is left. *)
Definition escaped (e : Thrown) (evs : list Event) : Prop :=
  exists pre c v, evs = (pre ++ [c; Rejected c v])%list
                  /\ read_message v = Throws e.

(** Two ways the command ends. *)
Definition refused (evs : list Event) : Prop :=
  exists logs msg, evs = (logs ++ [ShowErrorMessage msg])%list
                   /\ forallb is_output logs = true
                   /\ logged msg logs.

Definition nothing_found (fileName : string) (evs : list Event) : Prop :=
  exists warm logs msg,
    evs = (warm ++ CreateSourceFile fileName :: logs ++ [ShowInformationMessage msg])%list
    /\ forallb is_warmup warm = true
    /\ forallb is_output logs = true
    /\ logged msg logs.

(** The language identifiers the command accepts. *)
Definition accepted_languages : list string :=
  ["typescript"; "typescriptreact"; "javascript"; "javascriptreact"].

(** What a computation does to the trace: it only appends, and the
    appended events satisfy [Q] when it returns and [X] when it throws. *)
Definition spec {A : Type} (m : M A)
    (Q : A -> list Event -> Prop) (X : Thrown -> list Event -> Prop) : Prop :=
  forall st,
    exists evs, trace (snd (m st)) = (trace st ++ evs)%list
                /\ match fst (m st) with
                   | Returns a => Q a evs
                   | Throws e => X e evs
                   end.

(** A computation that does not throw and only leaves events of class [P]. *)
Definition quiet (P : Event -> bool) {A : Type} (m : M A) : Prop :=
  spec m (fun _ evs => forallb P evs = true) (fun _ _ => False).

(** A computation that leaves events of class [P] only, whether it returns
    or throws. *)
Definition stays (P : Event -> bool) {A : Type} (m : M A) : Prop :=
  spec m (fun _ evs => forallb P evs = true) (fun _ evs => forallb P evs = true).

(** A computation that throws only the value of a rejection, or past a
    catch clause, and then at that rejection. *)
Definition may_raise {A : Type} (m : M A) : Prop :=
  spec m (fun _ _ => True) raised.

Definition may_escape {A : Type} (m : M A) : Prop :=
  spec m (fun _ _ => True) escaped.

End TraceReading.

(** ** Sample files *)
Module Samples.
Local Open Scope string_scope.

Definition nl : string := String "010" EmptyString.

Definition ident (s e : Z) (t : string) : option Identifier := Some (mkIdentifier s e t).

Definition var_stmt (u : nat) (p : option nat) (pos s e : Z) (fl : Z)
    (name : Identifier) : Node :=
  mkNode u p pos s e []
    (VariableStatement
       (mkVariableDeclarationList fl
          [mkVariableDeclaration (BindingIdentifier name) (id_getStart name) e]))
    [].

(** The file of the end-to-end test. *)
Definition index_text : string :=
  "export class Foo { n = 1 }" ++ nl ++
  "export interface Baz { x: number }" ++ nl ++
  "export enum K { A = 1, B = 2 }" ++ nl ++
  "export function bar() { return 42 }" ++ nl ++
  "export const Qux = 7" ++ nl.

Definition index_root : Node :=
  mkNode 0 None 0 0 150 [] (OtherSyntax "SourceFile" None)
    [ mkNode 1 (Some 0%nat) 0 0 26 ["export"] (Declaration ClassDeclaration (ident 13 16 "Foo"))
        [ mkNode 2 (Some 1%nat) 18 19 24 [] (OtherSyntax "PropertyDeclaration" (ident 19 20 "n")) [] ];
      mkNode 3 (Some 0%nat) 26 27 61 ["export"] (Declaration InterfaceDeclaration (ident 44 47 "Baz")) [];
      mkNode 4 (Some 0%nat) 61 62 92 ["export"] (Declaration EnumDeclaration (ident 74 75 "K")) [];
      mkNode 5 (Some 0%nat) 92 93 128 ["export"] (Declaration FunctionDeclaration (ident 109 112 "bar"))
        [ mkNode 6 (Some 5%nat) 115 116 128 [] (OtherSyntax "Block" None) [] ];
      mkNode 7 (Some 0%nat) 128 129 149 ["export"]
        (VariableStatement
           (mkVariableDeclarationList 2
              [mkVariableDeclaration (BindingIdentifier (mkIdentifier 142 145 "Qux")) 142 149]))
        [];
      mkNode 8 (Some 0%nat) 149 150 150 [] (OtherSyntax "EndOfFileToken" None) [] ].

Definition index_ts : SourceFile := mkSourceFile index_root "index.ts" index_text.

(** [function outer() { class Inner {} const X = 1; }] and
    [class C { method() { const Y = 2 } }]. *)
Definition inner_class : Node :=
  mkNode 3 (Some 2%nat) 18 19 33 [] (Declaration ClassDeclaration (ident 25 30 "Inner")) [].

Definition inner_const : Node :=
  var_stmt 4 (Some 2%nat) 33 34 46 2 (mkIdentifier 40 41 "X").

Definition deep_const : Node :=
  var_stmt 8 (Some 7%nat) 69 70 81 2 (mkIdentifier 76 77 "Y").

Definition nested_root : Node :=
  mkNode 0 None 0 0 86 [] (OtherSyntax "SourceFile" None)
    [ mkNode 1 (Some 0%nat) 0 0 48 [] (Declaration FunctionDeclaration (ident 9 14 "outer"))
        [ mkNode 2 (Some 1%nat) 16 17 48 [] (OtherSyntax "Block" None)
            [ inner_class; inner_const ] ];
      mkNode 5 (Some 0%nat) 48 49 85 [] (Declaration ClassDeclaration (ident 55 56 "C"))
        [ mkNode 6 (Some 5%nat) 57 59 83 [] (OtherSyntax "MethodDeclaration" (ident 59 65 "method"))
            [ mkNode 7 (Some 6%nat) 67 68 83 [] (OtherSyntax "Block" None) [ deep_const ] ] ];
      mkNode 9 (Some 0%nat) 85 86 86 [] (OtherSyntax "EndOfFileToken" None) [] ].

Definition nested_ts : SourceFile :=
  mkSourceFile nested_root "index.ts"
    ("function outer() { class Inner {} const X = 1; }" ++ nl ++
     "class C { method() { const Y = 2 } }" ++ nl).

(** [const A = 1; let B = 2; var C = 3;] *)
Definition const_A : Node := var_stmt 1 (Some 0%nat) 0 0 12 2 (mkIdentifier 6 7 "A").
Definition let_B : Node := var_stmt 2 (Some 0%nat) 12 13 23 1 (mkIdentifier 17 18 "B").
Definition var_C : Node := var_stmt 3 (Some 0%nat) 23 24 34 0 (mkIdentifier 28 29 "C").

Definition scoping_root : Node :=
  mkNode 0 None 0 0 35 [] (OtherSyntax "SourceFile" None)
    [ const_A; let_B; var_C;
      mkNode 4 (Some 0%nat) 34 35 35 [] (OtherSyntax "EndOfFileToken" None) [] ].

Definition scoping_ts : SourceFile :=
  mkSourceFile scoping_root "index.ts"
    ("const A = 1;" ++ nl ++ "let B = 2;" ++ nl ++ "var C = 3;" ++ nl).

(** [using r = open();] at the top of a module. *)
Definition using_list : VariableDeclarationList :=
  mkVariableDeclarationList 4
    [mkVariableDeclaration (BindingIdentifier (mkIdentifier 6 7 "r")) 6 16].

Definition using_r : Node :=
  mkNode 1 (Some 0%nat) 0 0 17 [] (VariableStatement using_list) [].

Definition using_ts : SourceFile :=
  mkSourceFile
    (mkNode 0 None 0 0 18 [] (OtherSyntax "SourceFile" None)
       [ using_r;
         mkNode 2 (Some 0%nat) 17 18 18 [] (OtherSyntax "EndOfFileToken" None) [] ])
    "index.ts" ("using r = open();" ++ nl).

(** A file of statements only: [console.log(1);]. *)
Definition statements_ts : SourceFile :=
  mkSourceFile
    (mkNode 0 None 0 0 16 [] (OtherSyntax "SourceFile" None)
       [ mkNode 1 (Some 0%nat) 0 0 15 [] (OtherSyntax "ExpressionStatement" None)
           [ mkNode 2 (Some 1%nat) 0 0 14 [] (OtherSyntax "CallExpression" None) [] ];
         mkNode 3 (Some 0%nat) 15 16 16 [] (OtherSyntax "EndOfFileToken" None) [] ])
    "index.ts" ("console.log(1);" ++ nl).

(** Hosts. *)
Definition sample_doc (lang : string) : TextDocument :=
  mkTextDocument lang "index.ts" "/ws/index.ts" index_text (fun z => mkPosition 0 z).

Definition sample_host (editor : option TextEditor) (sf : SourceFile)
    (provider : Outcome (option (list CodeAction))) (run : Outcome unit) : Host :=
  mkHost editor
    (fun _ => "T")
    (fun _ => Some "vscode.typescript-language-features")
    (fun _ => Returns tt)
    (fun _ => true)
    (fun _ _ => sf)
    (fun _ _ _ => provider)
    (fun _ _ => run)
    (fun _ _ => run)
    (fun _ _ => run)
    (fun _ _ => run).

(** No editor is open. *)
Definition host_no_editor : Host :=
  sample_host None index_ts (Returns None) (Returns tt).

(** A JSON document is open. *)
Definition host_json : Host :=
  sample_host (Some (mkTextEditor (sample_doc "json"))) index_ts (Returns None) (Returns tt).

(** A TypeScript document with statements only. *)
Definition host_statements : Host :=
  sample_host (Some (mkTextEditor (sample_doc "typescript"))) statements_ts
    (Returns None) (Returns tt).

(** The end-to-end file, with a provider that rejects every query and an
    editor command that rejects as well. *)
Definition host_failing : Host :=
  sample_host (Some (mkTextEditor (sample_doc "typescript"))) index_ts
    (Throws (ErrorObject "no provider")) (Throws (ErrorObject "command failed")).

(** The end-to-end file, with a provider that offers the move and a
    command that rejects when the move is applied. *)
Definition move_action : CodeAction :=
  mkCodeAction (Some "Move to a new file") (Some "refactor.move.newFile")
    None (Some "_typescript.applyRefactoring").

Definition host_apply_fails : Host :=
  sample_host (Some (mkTextEditor (sample_doc "typescript"))) index_ts
    (Returns (Some [move_action])) (Throws (ErrorObject "command failed")).

(** The same, with a command that rejects with no value: [Promise.reject()],
    or a handler that runs [throw undefined]. *)
Definition host_rejects_undefined : Host :=
  sample_host (Some (mkTextEditor (sample_doc "typescript"))) index_ts
    (Returns (Some [move_action])) (Throws Undefined).

(** The same, with a command that rejects with a string. *)
Definition host_rejects_string : Host :=
  sample_host (Some (mkTextEditor (sample_doc "typescript"))) index_ts
    (Returns (Some [move_action])) (Throws (OtherValue None "busy")).

Definition init : State := mkState false [].

End Samples.

(** ** Measures on traces and plans *)
Section Measures.
Local Open Scope string_scope.

(** The values the [kind] field of a target takes. *)
Definition target_kinds : list string :=
  ["Variable"; "ClassDeclaration"; "InterfaceDeclaration"; "EnumDeclaration";
   "FunctionDeclaration"; "TypeAliasDeclaration"].

(** How many events of a class a trace holds. *)
Definition count (p : Event -> bool) (evs : list Event) : nat :=
  List.length (filter p evs).

Definition is_create (e : Event) : bool :=
  match e with CreateOutputChannel _ => true | _ => false end.

Definition is_notification (e : Event) : bool :=
  match e with
  | ShowErrorMessage _ | ShowWarningMessage _ | ShowInformationMessage _ => true
  | _ => false
  end.

Definition is_ping (e : Event) : bool :=
  match e with GetDiagnostics => true | _ => false end.

Definition is_activation (e : Event) : bool :=
  match e with ExtensionActivate _ => true | _ => false end.

Definition is_execution (e : Event) : bool :=
  match e with ExecuteCodeAction _ => true | _ => false end.

Definition is_execution_rejection (e : Event) : bool :=
  match e with Rejected (ExecuteCodeAction _) _ => true | _ => false end.

Definition is_fallback (e : Event) : bool :=
  match e with EditorActionCodeAction _ => true | _ => false end.

(** The lines written to the output channel, and those written to the
    console, in order. *)
Definition channel_lines (evs : list Event) : list string :=
  flat_map (fun e => match e with AppendLine l => [l] | _ => [] end) evs.

Definition console_lines (evs : list Event) : list string :=
  flat_map (fun e => match e with ConsoleDebug l => [l] | _ => [] end) evs.

(** The delays slept, in order. *)
Definition timeouts (evs : list Event) : list Z :=
  flat_map (fun e => match e with SetTimeout ms => [ms] | _ => [] end) evs.

(** The events the second revision leaves outside [log] and [out]. *)
Definition vocabulary (e : Event) : bool :=
  match e with
  | CreateOutputChannel _ | AppendLine _ | ConsoleDebug _ => false
  | ShowWarningMessage _ | ApplyEdit _ | ExecuteCommand _ => false
  | Rejected c _ =>
      match c with
      | ExtensionActivate _ | ExecuteCodeActionProvider _ _
      | ExecuteCodeAction _ | EditorActionCodeAction _ => true
      | _ => false
      end
  | _ => true
  end.

(** A relation between the state before and the state after that every
    step of a computation keeps. *)
Definition keeps (R : State -> State -> Prop) {A : Type} (m : M A) : Prop :=
  forall st, R st (snd (m st)).

(** The channel flag accounts for the channels created. *)
Definition channel_conserved (st st' : State) : Prop :=
  exists evs, trace st' = (trace st ++ evs)%list
              /\ Nat.b2n (channel st') = (Nat.b2n (channel st) + count is_create evs)%nat.

(** The console mirrors the channel. *)
Definition mirrored (st st' : State) : Prop :=
  exists evs, trace st' = (trace st ++ evs)%list
              /\ channel_lines evs = console_lines evs.

(** An action the module asks for: a move to a new file by its kind, or
    by its title. *)
Definition is_move_action (x : CodeAction) : bool :=
  V2.is_move_newFile x
  || test_move_to_a_new_file (match title x with Some s => s | None => "" end).


(** Events of waking the TypeScript extension, and of polling it. *)
Definition is_wakeup (e : Event) : bool :=
  match e with
  | ExtensionActivate _ => true
  | Rejected (ExtensionActivate _) _ => true
  | _ => is_output e
  end.

Definition is_poll (e : Event) : bool :=
  match e with
  | GetDiagnostics | SetTimeout _ => true
  | _ => is_output e
  end.

(** Events that neither execute an action nor run the fallback command. *)
Definition is_plain (e : Event) : bool :=
  negb (is_execution e || is_execution_rejection e || is_fallback e).

(** Actions executed, executions rejected, runs of the fallback command. *)
Definition tally (evs : list Event) (executed rejected fallbacks : nat) : Prop :=
  count is_execution evs = executed
  /\ count is_execution_rejection evs = rejected
  /\ count is_fallback evs = fallbacks.




(** The first revision applies an action by its edit and its command. *)
Definition is_application (e : Event) : bool :=
  match e with ApplyEdit _ | ExecuteCommand _ => true | _ => false end.

(** The notifications a run of the command ends with. *)
Definition is_final (e : Event) : bool :=
  match e with ShowErrorMessage _ | ShowInformationMessage _ => true | _ => false end.

(** Every rejection is one of applying an action, and the warning that
    carries its message comes next. *)
Fixpoint warned (evs : list Event) : Prop :=
  match evs with
  | [] => True
  | Rejected c err :: rest =>
      is_application c = true
      /\ match rest with
         | ShowWarningMessage w :: _ =>
             w = "Explode Document: one declaration failed: " ++ error_message err
         | _ => False
         end
      /\ warned rest
  | _ :: rest => warned rest
  end.

Definition tame (evs : list Event) : Prop :=
  warned evs /\ count is_final evs = 0%nat.

Definition calm (e : Event) : bool := is_call e && negb (is_final e).

(** A trace that stops at a rejected provider query. *)
Definition escapes (err : Thrown) (evs : list Event) : Prop :=
  exists body range k,
    evs = (body ++ [ExecuteCodeActionProvider range k;
                    Rejected (ExecuteCodeActionProvider range k) err])%list
    /\ tame body.

(** The rejections of a trace, in order: the call and the value. *)
Definition rejections (evs : list Event) : list (Event * Thrown) :=
  flat_map (fun e => match e with Rejected c v => [(c, v)] | _ => [] end) evs.

(** [(await ...) || []] *)
Definition or_empty (r : option (list CodeAction)) : list CodeAction :=
  match r with Some a => a | None => [] end.

(** The second query of [queryMoveNewFileActions], without a kind: it is
    asked after the events [before] and some lines of the log; its answer,
    filtered by kind or by title, is the [result], and a rejection of it
    is the [result] as well, nothing being logged after it. *)
Definition loose_query (host : Host) (sel : Selection) (before evs : list Event)
    (result : Outcome (list CodeAction)) : Prop :=
  exists mid post,
    evs = (mid ++ ExecuteCodeActionProvider sel None :: post)%list
    /\ forallb is_output mid = true
    /\ match executeCodeActionProvider host (before ++ mid) sel None with
       | Returns b =>
           result = Returns (filter is_move_action (or_empty b))
           /\ forallb is_output post = true
       | Throws v =>
           result = Throws v
           /\ post = [Rejected (ExecuteCodeActionProvider sel None) v]
       end.

Definition is_selection (e : Event) : bool :=
  match e with SetSelection _ => true | _ => false end.



End Measures.

(** * Properties *)

(** ** The classifier *)
Section ClassifierFacts.
Context {NF : NodeFlags}.

Lemma parent_is_true (n : Node) (sf : SourceFile) :
  parent_is n sf = true <-> parent n = Some (uid (sf_node sf)).
Proof.
  unfold parent_is. destruct (parent n) as [p|]; split; intro H; try discriminate.
  - apply Nat.eqb_eq in H. now subst.
  - injection H as ->. apply Nat.eqb_refl.
Qed.

Lemma isTopLevelDeclaration_parent (n : Node) (sf : SourceFile) :
  V2.isTopLevelDeclaration n sf = true -> parent_is n sf = true.
Proof.
  unfold V2.isTopLevelDeclaration. destruct (parent_is n sf); [reflexivity | discriminate].
Qed.

Lemma isTopLevelDeclaration_not_child (n : Node) (sf : SourceFile) :
  parent_is n sf = false -> V2.isTopLevelDeclaration n sf = false.
Proof. unfold V2.isTopLevelDeclaration. now intros ->. Qed.

Lemma has_flag_true (fl bit : Z) : has_flag fl bit = true <-> Z.land fl bit <> 0.
Proof.
  unfold has_flag. rewrite negb_true_iff, Z.eqb_neq. tauto.
Qed.

Lemma nonempty_true {A : Type} (l : list A) : nonempty l = true <-> l <> [].
Proof.
  unfold nonempty. destruct l; simpl; split; intro H; try congruence.
  - discriminate.
  - reflexivity.
Qed.

(** A bit of the [BlockScoped] mask that is set in [fl] shows under the mask. *)
Lemma land_sub_mask (fl bit mask : Z) :
  Z.land bit mask = bit -> Z.land fl mask = 0 -> Z.land fl bit = 0.
Proof.
  intros Hsub Hz. rewrite <- Hsub, Z.land_assoc, (Z.land_comm fl bit), <- Z.land_assoc, Hz.
  apply Z.land_0_r.
Qed.

Lemma let_is_block_scoped (dl : VariableDeclarationList) : is_let dl -> is_block_scoped dl.
Proof.
  unfold is_let, is_block_scoped. intros H Hz. apply H.
  exact (land_sub_mask _ _ _ Let_in_BlockScoped Hz).
Qed.

Lemma const_is_block_scoped (dl : VariableDeclarationList) : is_const dl -> is_block_scoped dl.
Proof.
  unfold is_const, is_block_scoped. intros H Hz. apply H.
  exact (land_sub_mask _ _ _ Const_in_BlockScoped Hz).
Qed.

(** C10: the two revisions of [isTopLevelDeclaration] return the same
    boolean on every node and source file. *)
Theorem isTopLevelDeclaration_revisions_agree (node : Node) (sourceFile : SourceFile) :
  V1.isTopLevelDeclaration node sourceFile = V2.isTopLevelDeclaration node sourceFile.
Proof.
  unfold V1.isTopLevelDeclaration, V2.isTopLevelDeclaration.
  destruct (negb (parent_is node sourceFile)); [reflexivity|].
  destruct (isClassDeclaration node || isInterfaceDeclaration node
            || isEnumDeclaration node || isFunctionDeclaration node
            || isTypeAliasDeclaration node); [reflexivity|].
  destruct (syntax node) as [k name | dl | k name]; try reflexivity.
  cbv zeta.
  destruct (has_flag (flags dl) NodeFlags_BlockScoped),
           (has_flag (flags dl) NodeFlags_Const),
           (has_flag (flags dl) NodeFlags_Let),
           (nonempty (declarations dl)); reflexivity.
Qed.

(** C3: a direct child of the source file that is a class, interface,
    enum, function or type-alias declaration is classified as top-level,
    whatever its modifiers, its name (present or not), its offsets and its
    children (body or no body). *)
Theorem isTopLevelDeclaration_declaration_kinds
    (sf : SourceFile) (pos start end_ : Z) (u : nat) (mods : list string)
    (k : DeclarationKind) (name : option Identifier) (body : list Node) :
  V2.isTopLevelDeclaration
    (mkNode u (Some (uid (sf_node sf))) pos start end_ mods (Declaration k name) body) sf
  = true.
Proof.
  unfold V2.isTopLevelDeclaration, parent_is; cbn.
  rewrite Nat.eqb_refl; cbn.
  destruct k; reflexivity.
Qed.

(** C4, as amended: a variable statement that is a direct child of the
    source file is classified as top-level exactly when its declaration
    list carries a bit of the [BlockScoped] mask and holds at least one
    declarator.  A [let] and a [const] list carry such a bit; a [var]
    list carries none, and its statement is never classified. *)
Theorem isTopLevelDeclaration_variable_statement
    (n : Node) (sf : SourceFile) (dl : VariableDeclarationList)
    (Hparent : parent n = Some (uid (sf_node sf)))
    (Hkind : syntax n = VariableStatement dl) :
  (V2.isTopLevelDeclaration n sf = true <-> is_block_scoped dl /\ declarations dl <> [])
  /\ (is_let dl \/ is_const dl -> is_block_scoped dl)
  /\ (is_var dl -> V2.isTopLevelDeclaration n sf = false).
Proof.
  apply parent_is_true in Hparent.
  assert (E : V2.isTopLevelDeclaration n sf =
              (has_flag (flags dl) NodeFlags_Const
               || has_flag (flags dl) NodeFlags_Let
               || has_flag (flags dl) NodeFlags_BlockScoped)
              && nonempty (declarations dl)).
  { unfold V2.isTopLevelDeclaration, isClassDeclaration, isInterfaceDeclaration,
      isEnumDeclaration, isFunctionDeclaration, isTypeAliasDeclaration.
    rewrite Hparent, Hkind. reflexivity. }
  assert (Hmask : is_let dl \/ is_const dl -> is_block_scoped dl).
  { intros [H | H]; [now apply let_is_block_scoped | now apply const_is_block_scoped]. }
  rewrite E. split; [|split; [exact Hmask|]].
  - rewrite andb_true_iff, !orb_true_iff, !has_flag_true, nonempty_true.
    fold (is_let dl) (is_const dl) (is_block_scoped dl). tauto.
  - intro Hvar. unfold is_var in Hvar.
    assert (Hb : has_flag (flags dl) NodeFlags_BlockScoped = false).
    { unfold has_flag. rewrite Hvar. reflexivity. }
    assert (Hc : has_flag (flags dl) NodeFlags_Const = false).
    { unfold has_flag. rewrite (land_sub_mask _ _ _ Const_in_BlockScoped Hvar). reflexivity. }
    assert (Hl : has_flag (flags dl) NodeFlags_Let = false).
    { unfold has_flag. rewrite (land_sub_mask _ _ _ Let_in_BlockScoped Hvar). reflexivity. }
    rewrite Hb, Hc, Hl. reflexivity.
Qed.

End ClassifierFacts.

(** With the flag values of TypeScript before 5.2 the block-scoped
    declaration lists are the [let] and the [const] ones. *)
Lemma legacy_block_scoped (dl : VariableDeclarationList) :
  is_block_scoped (NF := ts_NodeFlags_legacy) dl
  <-> is_let (NF := ts_NodeFlags_legacy) dl \/ is_const (NF := ts_NodeFlags_legacy) dl.
Proof.
  unfold is_block_scoped, is_let, is_const. cbn.
  change 3 with (Z.lor 1 2). rewrite Z.land_lor_distr_r, Z.lor_eq_0_iff.
  destruct (Z.eq_dec (Z.land (flags dl) 1) 0), (Z.eq_dec (Z.land (flags dl) 2) 0); tauto.
Qed.

(** C4, as the claim states it, fails with the flag values of TypeScript
    5.2 and later, where the mask has a third bit, [Using = 4]: the
    statement [using r = open();] at the top of a module is classified
    although its list is neither [let] nor [const]. *)
Lemma isTopLevelDeclaration_using_statement :
  well_linked Samples.using_ts = true
  /\ parent Samples.using_r = Some (uid (sf_node Samples.using_ts))
  /\ syntax Samples.using_r = VariableStatement Samples.using_list
  /\ ~ (V2.isTopLevelDeclaration (NF := ts_NodeFlags) Samples.using_r Samples.using_ts = true
        <-> (is_let (NF := ts_NodeFlags) Samples.using_list
             \/ is_const (NF := ts_NodeFlags) Samples.using_list)
            /\ declarations Samples.using_list <> []).
Proof.
  split; [reflexivity|]. split; [reflexivity|]. split; [reflexivity|].
  intros [H _]. destruct (H eq_refl) as [[Hl | Hc] _].
  - now apply Hl.
  - now apply Hc.
Qed.

(** ** Trees *)
Section TreeFacts.

(** Induction on a tree: the children of a node satisfy the property. *)
Lemma Node_children_ind (P : Node -> Prop)
    (step : forall n, Forall P (children n) -> P n) :
  forall n, P n.
Proof.
  fix IH 1. intros [u p ps s e m sx cs]. apply step. cbn.
  induction cs as [|c cs IHcs]; constructor; [apply IH | exact IHcs].
Qed.

Lemma distinct_NoDup (l : list nat) : distinct l = true -> NoDup l.
Proof.
  induction l as [|x l IH]; cbn; intro H; constructor.
  - apply andb_true_iff in H as [H _]. apply negb_true_iff in H.
    intro Hin. assert (existsb (Nat.eqb x) l = true) as E; [|congruence].
    apply existsb_exists. exists x. split; [exact Hin | apply Nat.eqb_refl].
  - apply IH. now apply andb_true_iff in H as [_ H].
Qed.

Lemma uids_unfold (n : Node) : uids n = uid n :: flat_map uids (children n).
Proof. destruct n; reflexivity. Qed.

Lemma descendants_unfold (n : Node) :
  descendants n = flat_map (fun c => c :: descendants c) (children n).
Proof. destruct n; reflexivity. Qed.

Lemma linked_unfold (n : Node) :
  linked n = forallb (fun c => match parent c with
                               | Some p => Nat.eqb p (uid n)
                               | None => false
                               end && linked c) (children n).
Proof. destruct n; reflexivity. Qed.

Lemma linked_child (n c : Node) :
  linked n = true -> In c (children n) -> parent c = Some (uid n) /\ linked c = true.
Proof.
  rewrite linked_unfold, forallb_forall. intros H Hin.
  specialize (H c Hin). apply andb_true_iff in H as [Hp Hl]. split; [|exact Hl].
  destruct (parent c) as [p|]; [|discriminate]. apply Nat.eqb_eq in Hp. now subst.
Qed.

(** The identity of every node of a subtree is listed in [uids]. *)
Lemma uid_in_uids (n : Node) :
  forall d, In d (n :: descendants n) -> In (uid d) (uids n).
Proof.
  induction n as [n IH] using Node_children_ind. intros d [<- | Hd].
  - rewrite uids_unfold. now left.
  - rewrite uids_unfold. right. rewrite descendants_unfold in Hd.
    apply in_flat_map in Hd as [c [Hc Hd]]. apply in_flat_map. exists c. split; [exact Hc|].
    rewrite Forall_forall in IH. exact (IH c Hc d Hd).
Qed.

(** In a linked tree the parent of a node below [n] is [n] or lies below [n]. *)
Lemma parent_of_descendant (n : Node) :
  linked n = true ->
  forall d, In d (descendants n) ->
  exists p, In p (n :: descendants n) /\ parent d = Some (uid p).
Proof.
  induction n as [n IH] using Node_children_ind. intros Hl d Hd.
  rewrite descendants_unfold in Hd. apply in_flat_map in Hd as [c [Hc Hd]].
  destruct (linked_child n c Hl Hc) as [Hp Hlc].
  destruct Hd as [<- | Hd].
  - exists n. split; [now left | exact Hp].
  - rewrite Forall_forall in IH. destruct (IH c Hc Hlc d Hd) as [p [Hin Hpd]].
    exists p. split; [|exact Hpd]. right. rewrite descendants_unfold.
    apply in_flat_map. exists c. split; [exact Hc | exact Hin].
Qed.

(** A node inside a top-level node of a well-linked file is not a child of
    the file. *)
Lemma nested_not_child (sf : SourceFile) (n : Node) :
  well_linked sf = true -> In n (nested_nodes sf) -> parent_is n sf = false.
Proof.
  unfold well_linked, nested_nodes. intros Hwf Hn.
  apply andb_true_iff in Hwf as [Hl Hd]. apply distinct_NoDup in Hd.
  apply in_flat_map in Hn as [c [Hc Hn]].
  destruct (linked_child _ c Hl Hc) as [_ Hlc].
  destruct (parent_of_descendant c Hlc n Hn) as [p [Hp Hpar]].
  unfold parent_is. rewrite Hpar. apply Nat.eqb_neq. intro E.
  rewrite uids_unfold in Hd. inversion Hd as [|x l Hnotin _]; subst.
  apply Hnotin. rewrite <- E. apply in_flat_map. exists c. split; [exact Hc|].
  now apply uid_in_uids.
Qed.

End TreeFacts.

Section DirectChild.
Context {NF : NodeFlags}.

(** C2: [isTopLevelDeclaration n sf] holds only of nodes whose parent is
    [sf]; a node nested inside a top-level node of the file (a function
    body, a class body, a block, at any depth) is rejected whatever its
    kind. *)
Theorem isTopLevelDeclaration_direct_child (n : Node) (sf : SourceFile) :
  (V2.isTopLevelDeclaration n sf = true -> parent n = Some (uid (sf_node sf)))
  /\ (well_linked sf = true -> In n (nested_nodes sf) ->
      V2.isTopLevelDeclaration n sf = false).
Proof.
  split.
  - intro H. apply parent_is_true. now apply isTopLevelDeclaration_parent.
  - intros Hwf Hn. apply isTopLevelDeclaration_not_child. now apply nested_not_child.
Qed.

End DirectChild.

(** ** The sort *)
Section SortFacts.
Context {A : Type}.
Variable compareFn : A -> A -> Z.

Lemma sort_insert_In (x : A) (l : list A) (z : A) :
  In z (sort_insert compareFn x l) <-> z = x \/ In z l.
Proof.
  induction l as [|y l IH]; cbn.
  - intuition congruence.
  - destruct (compareFn x y <=? 0); cbn; [intuition congruence|].
    rewrite IH. intuition congruence.
Qed.

Lemma sort_insert_length (x : A) (l : list A) :
  List.length (sort_insert compareFn x l) = S (List.length l).
Proof.
  induction l as [|y l IH]; cbn; [reflexivity|].
  destruct (compareFn x y <=? 0); cbn; congruence.
Qed.

Lemma Array_sort_length (l : list A) : List.length (Array_sort compareFn l) = List.length l.
Proof.
  induction l as [|x l IH]; cbn; [reflexivity|].
  rewrite sort_insert_length. congruence.
Qed.

Lemma sort_insert_Permutation (x : A) (l : list A) :
  Permutation (x :: l) (sort_insert compareFn x l).
Proof.
  induction l as [|y l IH]; cbn; [reflexivity|].
  destruct (compareFn x y <=? 0); [reflexivity|].
  rewrite perm_swap. now constructor.
Qed.

Lemma Array_sort_Permutation (l : list A) : Permutation l (Array_sort compareFn l).
Proof.
  induction l as [|x l IH]; cbn; [constructor|].
  rewrite <- sort_insert_Permutation. now constructor.
Qed.

(** A symmetric relation that holds between any two entries of an array
    still does after sorting. *)
Lemma sort_insert_pairs (R : A -> A -> Prop) (Rsym : forall a b, R a b -> R b a)
    (x : A) (l : list A) :
  ForallOrdPairs R (x :: l) -> ForallOrdPairs R (sort_insert compareFn x l).
Proof.
  induction l as [|y l IH]; cbn; intro H; [exact H|].
  destruct (compareFn x y <=? 0); [exact H|].
  inversion H as [|? ? Hx Hyl]; subst.
  inversion Hyl as [|? ? Hy Hl]; subst.
  inversion Hx as [|? ? Hxy Hxl]; subst.
  constructor.
  - apply Forall_forall. intros z Hz. apply sort_insert_In in Hz as [-> | Hz].
    + now apply Rsym.
    + rewrite Forall_forall in Hy. now apply Hy.
  - apply IH. now constructor.
Qed.

Lemma Array_sort_pairs (R : A -> A -> Prop) (Rsym : forall a b, R a b -> R b a)
    (l : list A) :
  ForallOrdPairs R l -> ForallOrdPairs R (Array_sort compareFn l).
Proof.
  induction l as [|x l IH]; cbn; intro H; [constructor|].
  apply sort_insert_pairs; [exact Rsym|].
  inversion H as [|? ? Hx Hl]; subst. constructor.
  - apply Forall_forall. intros z Hz.
    rewrite Forall_forall in Hx. apply Hx.
    eapply Permutation_in; [symmetry; apply Array_sort_Permutation | exact Hz].
  - now apply IH.
Qed.

End SortFacts.

(** Sorting with [(a, b) => b.start - a.start] leaves the starts in
    descending order. *)
Lemma sort_insert_descending (x : Target) (l : list Target) :
  StronglySorted (fun a b => start b <= start a) l ->
  StronglySorted (fun a b => start b <= start a)
    (sort_insert (fun a b => start b - start a) x l).
Proof.
  induction l as [|y l IH]; cbn; intro H.
  - repeat constructor.
  - inversion H as [|? ? Hl Hy]; subst.
    destruct (Z.leb_spec (start y - start x) 0) as [Hle | Hgt].
    + constructor; [exact H|]. constructor; [lia|].
      eapply Forall_impl; [|exact Hy]. cbn. intros; lia.
    + constructor; [now apply IH|].
      apply Forall_forall. intros z Hz. apply sort_insert_In in Hz as [-> | Hz]; [lia|].
      rewrite Forall_forall in Hy. now apply Hy.
Qed.

Lemma Array_sort_descending (l : list Target) :
  StronglySorted (fun a b => start b <= start a)
    (Array_sort (fun a b => start b - start a) l).
Proof.
  induction l as [|x l IH]; cbn; [constructor|]. now apply sort_insert_descending.
Qed.

(** ** The walk *)
Section WalkFacts.
Context {NF : NodeFlags}.
Variable sf : SourceFile.

Lemma visit_unfold (n : Node) (targets : list Target) :
  V2.visit sf n targets =
  if negb (V2.isTopLevelDeclaration n sf) then
    forEachChild n (V2.visit sf) targets
  else if negb (isVariableStatement n) then
    let id := node_name n in
    let label := match id with Some i => getText i sf | None => "<anonymous>"%string end in
    V2.push (match id with Some i => id_getStart i | None => getStart n end)
            (match id with Some i => id_getEnd i | None => getEnd n end)
            label (SyntaxKind_name n) targets
  else
    match syntax n with
    | VariableStatement declarationList =>
        match declarations declarationList with
        | first :: _ =>
            match vd_name first with
            | BindingIdentifier name =>
                V2.push (id_getStart name) (id_getEnd name) (id_text name) "Variable" targets
            | BindingPattern =>
                V2.push (vd_getStart first) (vd_getEnd first) "<var>" "Variable" targets
            end
        | [] => targets
        end
    | _ => targets
    end.
Proof. destruct n; reflexivity. Qed.

Lemma fold_left_app_flat_map {X Y : Type} (f : list Y -> X -> list Y) (g : X -> list Y)
    (l : list X) :
  (forall x, In x l -> forall acc, f acc x = acc ++ g x) ->
  forall acc, fold_left f l acc = acc ++ flat_map g l.
Proof.
  induction l as [|x l IH]; cbn; intros H acc.
  - now rewrite app_nil_r.
  - rewrite IH by (intros; apply H; now right).
    rewrite (H x (or_introl eq_refl)). now rewrite app_assoc.
Qed.

(** The walk only ever appends to the array it is given. *)
Lemma visit_app (n : Node) :
  forall targets, V2.visit sf n targets = targets ++ V2.visit sf n [].
Proof.
  induction n as [n IH] using Node_children_ind. intro targets.
  rewrite (visit_unfold n targets), (visit_unfold n []). unfold forEachChild.
  destruct (negb (V2.isTopLevelDeclaration n sf)).
  - rewrite Forall_forall in IH.
    rewrite (fold_left_app_flat_map _ (fun c => V2.visit sf c []) _ IH targets).
    rewrite (fold_left_app_flat_map _ (fun c => V2.visit sf c []) _ IH []).
    reflexivity.
  - destruct (negb (isVariableStatement n)); [reflexivity|].
    destruct (syntax n) as [k name | dl | k name]; try now rewrite app_nil_r.
    destruct (declarations dl) as [|first rest]; [now rewrite app_nil_r|].
    destruct (vd_name first); reflexivity.
Qed.

Lemma visit_children (cs : list Node) (acc : list Target) :
  fold_left (fun acc c => V2.visit sf c acc) cs acc
  = acc ++ flat_map (fun c => V2.visit sf c []) cs.
Proof.
  apply fold_left_app_flat_map. intros c _ a. apply visit_app.
Qed.

Lemma collect_flat_map :
  V2.collect sf = flat_map (fun c => V2.visit sf c []) (children (sf_node sf)).
Proof. unfold V2.collect, forEachChild. now rewrite visit_children. Qed.

(** Nothing is collected from a subtree without a classified node. *)
Lemma visit_unclassified (n : Node) :
  (forall d, In d (n :: descendants n) -> V2.isTopLevelDeclaration d sf = false) ->
  forall targets, V2.visit sf n targets = targets.
Proof.
  induction n as [n IH] using Node_children_ind. intros H targets.
  rewrite visit_unfold, (H n (or_introl eq_refl)). cbn. unfold forEachChild.
  rewrite visit_children.
  assert (E : flat_map (fun c => V2.visit sf c []) (children n) = []).
  { assert (Hd : forall c, In c (children n) ->
                 forall d, In d (c :: descendants c) -> In d (descendants n)).
    { intros c Hc d Hd. rewrite (descendants_unfold n). apply in_flat_map. now exists c. }
    revert IH Hd. induction (children n) as [|c cs IHcs]; intros IH Hd; [reflexivity|].
    inversion IH as [|? ? Hc Hcs]; subst. cbn.
    rewrite Hc.
    - apply IHcs; [exact Hcs|]. intros c' Hc'. apply Hd. now right.
    - intros d Hdc. apply H. right. apply (Hd c (or_introl eq_refl) d Hdc). }
  rewrite E. apply app_nil_r.
Qed.

(** In a well-linked file, a statement that is not classified contributes
    nothing: whatever it contains is nested. *)
Lemma visit_rejected_child (c : Node) :
  well_linked sf = true -> In c (children (sf_node sf)) ->
  V2.isTopLevelDeclaration c sf = false ->
  V2.visit sf c [] = [].
Proof.
  intros Hwf Hc Hrej. apply visit_unclassified. intros d [<- | Hd]; [exact Hrej|].
  apply isTopLevelDeclaration_not_child. apply nested_not_child; [exact Hwf|].
  unfold nested_nodes. apply in_flat_map. now exists c.
Qed.

(** A classified node is a declaration of one of the five kinds or a
    variable statement with a first declarator. *)
Lemma classified_shape (n : Node) :
  V2.isTopLevelDeclaration n sf = true ->
  (isVariableStatement n = false /\ exists k name, syntax n = Declaration k name)
  \/ (isVariableStatement n = true /\
      exists dl first rest, syntax n = VariableStatement dl /\ declarations dl = first :: rest).
Proof.
  unfold V2.isTopLevelDeclaration, isClassDeclaration, isInterfaceDeclaration,
    isEnumDeclaration, isFunctionDeclaration, isTypeAliasDeclaration, isVariableStatement.
  destruct (negb (parent_is n sf)); [discriminate|].
  destruct (syntax n) as [k name | dl | k name].
  - intros _. left. split; [reflexivity|]. now exists k, name.
  - cbn. intro H. right. split; [reflexivity|].
    apply andb_true_iff in H as [_ H]. apply nonempty_true in H.
    destruct (declarations dl) as [|first rest] eqn:E; [congruence|].
    now exists dl, first, rest.
  - discriminate.
Qed.

(** The target of a classified node: exactly one, inside the node when the
    node is laid out as the parser does. *)
Lemma visit_classified (n : Node) :
  V2.isTopLevelDeclaration n sf = true ->
  exists t, V2.visit sf n [] = [t]
            /\ (name_inside n = true -> pos n <= start t /\ start t <= end_ t /\ end_ t <= getEnd n).
Proof.
  intro Hc. rewrite visit_unfold, Hc. cbn [negb].
  assert (W : forall s e, within n s e = true -> pos n <= s /\ s <= e /\ e <= getEnd n).
  { unfold within. intros s e H. apply andb_true_iff in H as [H H3].
    apply andb_true_iff in H as [H1 H2]. lia. }
  unfold name_inside.
  destruct (classified_shape n Hc) as [[Hv [k [name Hs]]] | [Hv [dl [first [rest [Hs Hd]]]]]];
    rewrite Hv; cbn [negb].
  - unfold V2.push. cbn [app]. eexists. split; [reflexivity|]. cbn.
    unfold node_name. rewrite Hs. destruct name as [i|]; apply W.
  - rewrite Hs, Hd. destruct (vd_name first) as [i|];
      unfold V2.push; cbn [app]; eexists; (split; [reflexivity|]); cbn; apply W.
Qed.

End WalkFacts.

(** ** The plan *)
Section PlanFacts.
Context {NF : NodeFlags}.
Variable sf : SourceFile.

Lemma overlap_sym (a b : Target) : ~ overlap a b -> ~ overlap b a.
Proof. intros H [x [Hb Ha]]. apply H. now exists x. Qed.

(** One target per classified statement, none for the others. *)
Lemma collect_length (cs : list Node) :
  (forall c, In c cs -> V2.isTopLevelDeclaration c sf = false -> V2.visit sf c [] = []) ->
  List.length (flat_map (fun c => V2.visit sf c []) cs)
  = List.length (filter (fun c => V2.isTopLevelDeclaration c sf) cs).
Proof.
  induction cs as [|c cs IH]; intro H; [reflexivity|]. cbn.
  rewrite length_app, IH by (intros; apply H; [now right | assumption]).
  destruct (V2.isTopLevelDeclaration c sf) eqn:E.
  - destruct (visit_classified sf c E) as [t [-> _]]. reflexivity.
  - rewrite (H c (or_introl eq_refl) E). reflexivity.
Qed.

(** The targets of statements that follow each other do not overlap, and
    none starts before the first statement does. *)
Lemma collect_separated (cs : list Node) :
  (forall c, In c cs -> V2.isTopLevelDeclaration c sf = false -> V2.visit sf c [] = []) ->
  forallb (fun c => (pos c <=? getEnd c) && name_inside c) cs = true ->
  in_sequence cs = true ->
  forall lo, match cs with c :: _ => lo <= pos c | [] => True end ->
  ForallOrdPairs (fun a b => ~ overlap a b) (flat_map (fun c => V2.visit sf c []) cs)
  /\ Forall (fun t => lo <= start t) (flat_map (fun c => V2.visit sf c []) cs).
Proof.
  induction cs as [|c cs IH]; intros Hrej Hok Hseq lo Hlo.
  - split; constructor.
  - cbn [forallb] in Hok. apply andb_true_iff in Hok as [Hc Hok].
    apply andb_true_iff in Hc as [Hpe Hin]. apply Z.leb_le in Hpe.
    assert (Htail : ForallOrdPairs (fun a b => ~ overlap a b)
                      (flat_map (fun c => V2.visit sf c []) cs)
                    /\ Forall (fun t => getEnd c <= start t)
                         (flat_map (fun c => V2.visit sf c []) cs)).
    { apply IH.
      - intros; apply Hrej; [now right | assumption].
      - exact Hok.
      - cbn in Hseq. destruct cs; [reflexivity|]. now apply andb_true_iff in Hseq as [_ Hseq].
      - cbn in Hseq. destruct cs; [exact I|]. apply andb_true_iff in Hseq as [Hseq _].
        now apply Z.leb_le in Hseq. }
    destruct Htail as [Hpairs Hlow]. cbn [flat_map].
    destruct (V2.isTopLevelDeclaration c sf) eqn:E.
    + destruct (visit_classified sf c E) as [t [-> Hb]]. specialize (Hb Hin). cbn [app].
      split.
      * constructor; [|exact Hpairs].
        eapply Forall_impl; [|exact Hlow]. cbn. intros t' Ht' [x [Hx Hx']]. lia.
      * constructor; [lia|].
        eapply Forall_impl; [|exact Hlow]. cbn. intros; lia.
    + rewrite (Hrej c (or_introl eq_refl) E). cbn [app]. split; [exact Hpairs|].
      eapply Forall_impl; [|exact Hlow]. cbn. intros; lia.
Qed.

(** Ranges that are in descending order, do not overlap and are not empty
    start at different offsets. *)
Lemma descending_strict (l : list Target) :
  StronglySorted (fun a b => start b <= start a) l ->
  ForallOrdPairs (fun a b => ~ overlap a b) l ->
  Forall (fun t => start t < end_ t) l ->
  StronglySorted (fun a b => start b < start a) l.
Proof.
  induction l as [|a l IH]; intros Hs Hp Hn; [constructor|].
  inversion Hs as [|? ? Hsl Hsa]; subst. inversion Hp as [|? ? Hpa Hpl]; subst.
  inversion Hn as [|? ? Hna Hnl]; subst.
  constructor; [now apply IH|].
  rewrite Forall_forall in *. intros b Hb.
  specialize (Hsa b Hb). specialize (Hpa b Hb). specialize (Hnl b Hb).
  destruct (Z.eq_dec (start b) (start a)) as [E|]; [|lia].
  exfalso. apply Hpa. exists (start a). lia.
Qed.

(** C1: for a file as the parser builds it (parent links set, statements
    laid out one after the other, names inside their declarations) with N
    qualifying top-level declarations, the plan has N entries, its start
    offsets never increase, and no two of its ranges overlap; when no range
    is empty the start offsets decrease strictly. *)
Theorem plan_ordering_invariant
    (Hlinked : well_linked sf = true) (Hplaced : well_placed sf = true) :
  List.length (V2.plan sf) = List.length (qualifying sf)
  /\ StronglySorted (fun a b => start b <= start a) (V2.plan sf)
  /\ ForallOrdPairs (fun a b => ~ overlap a b) (V2.plan sf)
  /\ (Forall (fun t => start t < end_ t) (V2.plan sf) ->
      StronglySorted (fun a b => start b < start a) (V2.plan sf)).
Proof.
  assert (Hrej : forall c, In c (children (sf_node sf)) ->
                 V2.isTopLevelDeclaration c sf = false -> V2.visit sf c [] = []).
  { intros c Hc E. now apply visit_rejected_child. }
  assert (Hsorted : StronglySorted (fun a b => start b <= start a) (V2.plan sf)).
  { apply Array_sort_descending. }
  assert (Hpairs : ForallOrdPairs (fun a b => ~ overlap a b) (V2.plan sf)).
  { unfold V2.plan. apply Array_sort_pairs; [exact overlap_sym|].
    rewrite collect_flat_map. unfold well_placed in Hplaced.
    apply andb_true_iff in Hplaced as [Hok Hseq].
    destruct (children (sf_node sf)) as [|c cs] eqn:Ecs.
    + constructor.
    + now apply (collect_separated (c :: cs) Hrej Hok Hseq (pos c)), Z.le_refl. }
  split; [|split; [exact Hsorted | split; [exact Hpairs | now apply descending_strict]]].
  unfold V2.plan. rewrite Array_sort_length, collect_flat_map. now apply collect_length.
Qed.

(** C5: a classified declaration that is not a variable statement yields one
    target: with a name, the span is the span of the name and the label is
    the source text of that span; without a name, the span is the span of
    the node and the label is ["<anonymous>"].  The target of a statement of
    the file is part of the plan. *)
Theorem planner_named_declaration (n : Node) (targets : list Target)
    (Hclassified : V2.isTopLevelDeclaration n sf = true)
    (Hkind : isVariableStatement n = false) :
  let t := match node_name n with
           | Some id => mkTarget (id_getStart id) (id_getEnd id)
                          (js_substring (sf_text sf) (id_getStart id) (id_getEnd id))
                          (SyntaxKind_name n)
           | None => mkTarget (getStart n) (getEnd n) "<anonymous>" (SyntaxKind_name n)
           end in
  V2.visit sf n targets = targets ++ [t]
  /\ (In n (children (sf_node sf)) -> In t (V2.plan sf)).
Proof.
  intro t.
  assert (E : forall acc, V2.visit sf n acc = acc ++ [t]).
  { intro acc. rewrite visit_unfold, Hclassified, Hkind. cbn [negb]. unfold V2.push. cbv zeta.
    subst t. unfold getText. destruct (node_name n); reflexivity. }
  split; [apply E|]. intro Hin.
  eapply Permutation_in; [apply Array_sort_Permutation|].
  rewrite collect_flat_map. apply in_flat_map. exists n. split; [exact Hin|].
  rewrite (E []). now left.
Qed.

(** C6: a classified variable statement yields exactly one target, however
    many declarators it has, taken from the first one: the span and text of
    its identifier, or the span of the whole declarator and ["<var>"] when
    it binds a pattern.  The target of a statement of the file is part of
    the plan. *)
Theorem planner_variable_statement (n : Node) (dl : VariableDeclarationList)
    (targets : list Target)
    (Hclassified : V2.isTopLevelDeclaration n sf = true)
    (Hkind : syntax n = VariableStatement dl) :
  exists first rest,
    declarations dl = first :: rest
    /\ let t := match vd_name first with
                | BindingIdentifier name =>
                    mkTarget (id_getStart name) (id_getEnd name) (id_text name) "Variable"
                | BindingPattern =>
                    mkTarget (vd_getStart first) (vd_getEnd first) "<var>" "Variable"
                end in
       V2.visit sf n targets = targets ++ [t]
       /\ (In n (children (sf_node sf)) -> In t (V2.plan sf)).
Proof.
  destruct (classified_shape sf n Hclassified)
    as [[_ [k [name Hs]]] | [Hv [dl' [first [rest [Hs Hd]]]]]]; [congruence|].
  assert (dl' = dl) by congruence. subst dl'.
  exists first, rest. split; [exact Hd|]. intro t.
  assert (E : forall acc, V2.visit sf n acc = acc ++ [t]).
  { intro acc. rewrite visit_unfold, Hclassified, Hv, Hs, Hd. cbn [negb]. unfold V2.push.
    subst t. destruct (vd_name first); reflexivity. }
  split; [apply E|]. intro Hin.
  eapply Permutation_in; [apply Array_sort_Permutation|].
  rewrite collect_flat_map. apply in_flat_map. exists n. split; [exact Hin|].
  rewrite (E []). now left.
Qed.

End PlanFacts.

(** ** The sample files, through the theorems *)

(** [class Inner] inside [function outer] is rejected; [class Foo] of the
    end-to-end file is a child of its file. *)
Lemma isTopLevelDeclaration_direct_child_witness :
  (well_linked Samples.nested_ts = true
   /\ In Samples.inner_class (nested_nodes Samples.nested_ts)
   /\ V2.isTopLevelDeclaration Samples.inner_class Samples.nested_ts = false)
  /\ (V2.isTopLevelDeclaration (hd Samples.inner_class (children Samples.index_root))
        Samples.index_ts = true
      /\ parent (hd Samples.inner_class (children Samples.index_root)) = Some 0%nat).
Proof.
  assert (Hin : In Samples.inner_class (nested_nodes Samples.nested_ts)).
  { right. left. reflexivity. }
  split.
  - split; [reflexivity|]. split; [exact Hin|].
    exact (proj2 (isTopLevelDeclaration_direct_child (NF := ts_NodeFlags) Samples.inner_class Samples.nested_ts)
             eq_refl Hin).
  - split; [reflexivity|].
    exact (proj1 (isTopLevelDeclaration_direct_child (NF := ts_NodeFlags)
                    (hd Samples.inner_class (children Samples.index_root)) Samples.index_ts)
             eq_refl).
Defined.

(** [const A = 1] and [var C = 3] at the top of their file. *)
Lemma isTopLevelDeclaration_variable_statement_witness :
  V2.isTopLevelDeclaration Samples.const_A Samples.scoping_ts = true
  /\ V2.isTopLevelDeclaration Samples.var_C Samples.scoping_ts = false.
Proof.
  split.
  - apply (proj1 (isTopLevelDeclaration_variable_statement (NF := ts_NodeFlags)
                    Samples.const_A Samples.scoping_ts
                    (mkVariableDeclarationList 2
                       [mkVariableDeclaration
                          (BindingIdentifier (mkIdentifier 6 7 "A")) 6 12])
                    eq_refl eq_refl)).
    split; [intro H; discriminate H | discriminate].
  - apply (proj2 (proj2 (isTopLevelDeclaration_variable_statement (NF := ts_NodeFlags)
                           Samples.var_C Samples.scoping_ts
                           (mkVariableDeclarationList 0
                              [mkVariableDeclaration
                                 (BindingIdentifier (mkIdentifier 28 29 "C")) 28 34])
                           eq_refl eq_refl))).
    reflexivity.
Defined.

(** The end-to-end file: five declarations, five targets, bottom to top. *)
Lemma plan_ordering_invariant_witness :
  well_linked Samples.index_ts = true
  /\ well_placed Samples.index_ts = true
  /\ List.length (V2.plan Samples.index_ts) = 5%nat
  /\ StronglySorted (fun a b => start b <= start a) (V2.plan Samples.index_ts)
  /\ ForallOrdPairs (fun a b => ~ overlap a b) (V2.plan Samples.index_ts)
  /\ (Forall (fun t => start t < end_ t) (V2.plan Samples.index_ts) ->
      StronglySorted (fun a b => start b < start a) (V2.plan Samples.index_ts)).
Proof.
  split; [reflexivity|]. split; [reflexivity|].
  exact (plan_ordering_invariant (NF := ts_NodeFlags) Samples.index_ts eq_refl eq_refl).
Defined.

(** [export class Foo { n = 1 }]: the span of [Foo], labelled ["Foo"]. *)
Lemma planner_named_declaration_witness :
  V2.visit Samples.index_ts (hd Samples.inner_class (children Samples.index_root)) []
  = [mkTarget 13 16 "Foo" "ClassDeclaration"]
  /\ In (mkTarget 13 16 "Foo" "ClassDeclaration") (V2.plan Samples.index_ts).
Proof.
  destruct (planner_named_declaration (NF := ts_NodeFlags) Samples.index_ts
              (hd Samples.inner_class (children Samples.index_root)) []
              eq_refl eq_refl) as [Hvisit Hin].
  split; [exact Hvisit|]. apply Hin. left. reflexivity.
Defined.

(** [export const Qux = 7]: the span of [Qux], labelled ["Qux"]. *)
Lemma planner_variable_statement_witness :
  exists first rest,
    [mkVariableDeclaration (BindingIdentifier (mkIdentifier 142 145 "Qux")) 142 149]
    = first :: rest
    /\ V2.visit Samples.index_ts (nth 4 (children Samples.index_root) Samples.inner_class) []
       = [match vd_name first with
          | BindingIdentifier name =>
              mkTarget (id_getStart name) (id_getEnd name) (id_text name) "Variable"
          | BindingPattern => mkTarget (vd_getStart first) (vd_getEnd first) "<var>" "Variable"
          end].
Proof.
  destruct (planner_variable_statement (NF := ts_NodeFlags) Samples.index_ts
              (nth 4 (children Samples.index_root) Samples.inner_class)
              (mkVariableDeclarationList 2
                 [mkVariableDeclaration (BindingIdentifier (mkIdentifier 142 145 "Qux")) 142 149])
              [] eq_refl eq_refl) as [first [rest [Hd [Hvisit _]]]].
  exists first, rest. split; [exact Hd | exact Hvisit].
Defined.

(** The three sample statements of the unit test on scoping. *)
Example scoping_discrimination :
  V2.isTopLevelDeclaration Samples.const_A Samples.scoping_ts = true
  /\ V2.isTopLevelDeclaration Samples.let_B Samples.scoping_ts = true
  /\ V2.isTopLevelDeclaration Samples.var_C Samples.scoping_ts = false.
Proof. repeat split. Qed.

(** The plan of the end-to-end file. *)
Example index_plan_labels :
  map label (V2.plan Samples.index_ts) = ["Qux"; "bar"; "K"; "Baz"; "Foo"]%string.
Proof. reflexivity. Qed.

(** The first revision keeps the ranges in source order: it does not sort. *)
Example index_nameRanges_first_revision (doc : TextDocument) :
  V1.nameRanges doc Samples.index_ts
  = map (fun se => mkSelection (positionAt doc (fst se)) (positionAt doc (snd se)))
        [(13, 16); (44, 47); (74, 75); (109, 112); (142, 145)].
Proof. reflexivity. Qed.

(** ** Computations and their traces *)
Section SpecRules.

Lemma spec_ret {A : Type} (a : A) (Q : A -> list Event -> Prop) X :
  Q a [] -> spec (ret a) Q X.
Proof. intros H st. exists []. cbn. now rewrite app_nil_r. Qed.

Lemma spec_emit (e : Event) (Q : unit -> list Event -> Prop) X :
  Q tt [e] -> spec (emit e) Q X.
Proof. intros H st. exists [e]. cbn. now split. Qed.

Lemma spec_call {A : Type} (c : Event) (answer : list Event -> Outcome A)
    (Q : A -> list Event -> Prop) (X : Thrown -> list Event -> Prop) :
  (forall a, Q a [c]) -> (forall m, X m [c; Rejected c m]) -> spec (call c answer) Q X.
Proof.
  intros HQ HX st. unfold call. destruct (answer (trace st)) as [a | m]; cbn.
  - exists [c]. now split.
  - exists [c; Rejected c m]. now split.
Qed.

(** A call that the host always answers. *)
Lemma spec_call_returns {A : Type} (c : Event) (f : list Event -> A)
    (Q : A -> list Event -> Prop) X :
  (forall a, Q a [c]) -> spec (call c (fun t => Returns (f t))) Q X.
Proof. intros HQ st. exists [c]. cbn. now split. Qed.

Lemma spec_bind {A B : Type} (m : M A) (k : A -> M B)
    (Q1 : A -> list Event -> Prop) (X1 : Thrown -> list Event -> Prop)
    (Q2 : A -> B -> list Event -> Prop) (X2 : A -> Thrown -> list Event -> Prop)
    (Q : B -> list Event -> Prop) (X : Thrown -> list Event -> Prop) :
  spec m Q1 X1 ->
  (forall a, spec (k a) (Q2 a) (X2 a)) ->
  (forall a b e1 e2, Q1 a e1 -> Q2 a b e2 -> Q b (e1 ++ e2)) ->
  (forall msg e1, X1 msg e1 -> X msg e1) ->
  (forall a msg e1 e2, Q1 a e1 -> X2 a msg e2 -> X msg (e1 ++ e2)) ->
  spec (bind m k) Q X.
Proof.
  intros Hm Hk HQ HX1 HX2 st. unfold bind.
  destruct (Hm st) as [e1 [Ht1 H1]]. destruct (m st) as [[a | msg] st1]; cbn in *.
  - destruct (Hk a st1) as [e2 [Ht2 H2]]. exists (e1 ++ e2). split.
    + rewrite Ht2, Ht1. now rewrite app_assoc.
    + destruct (fst (k a st1)) as [b | msg]; [now apply (HQ a) | now apply (HX2 a)].
  - exists e1. split; [exact Ht1 | now apply HX1].
Qed.

Lemma spec_try_catch {A : Type} (m : M A) (h : Thrown -> M A)
    (Q1 : A -> list Event -> Prop) (X1 : Thrown -> list Event -> Prop)
    (Q2 : Thrown -> A -> list Event -> Prop) (X2 : Thrown -> Thrown -> list Event -> Prop)
    (Q : A -> list Event -> Prop) (X : Thrown -> list Event -> Prop) :
  spec m Q1 X1 ->
  (forall msg, spec (h msg) (Q2 msg) (X2 msg)) ->
  (forall a e, Q1 a e -> Q a e) ->
  (forall msg a e1 e2, X1 msg e1 -> Q2 msg a e2 -> Q a (e1 ++ e2)) ->
  (forall msg msg' e1 e2, X1 msg e1 -> X2 msg msg' e2 -> X msg' (e1 ++ e2)) ->
  spec (try_catch m h) Q X.
Proof.
  intros Hm Hh HQ1 HQ2 HX st. unfold try_catch.
  destruct (Hm st) as [e1 [Ht1 H1]]. destruct (m st) as [[a | msg] st1]; cbn in *.
  - exists e1. split; [exact Ht1 | now apply HQ1].
  - destruct (Hh msg st1) as [e2 [Ht2 H2]]. exists (e1 ++ e2). split.
    + rewrite Ht2, Ht1. now rewrite app_assoc.
    + destruct (fst (h msg st1)) as [b | msg']; [now apply (HQ2 msg) | now apply (HX msg)].
Qed.

Lemma spec_weaken {A : Type} (m : M A) (Q Q' : A -> list Event -> Prop)
    (X X' : Thrown -> list Event -> Prop) :
  spec m Q X -> (forall a e, Q a e -> Q' a e) -> (forall msg e, X msg e -> X' msg e) ->
  spec m Q' X'.
Proof.
  intros Hm HQ HX st. destruct (Hm st) as [e [Ht H]]. exists e. split; [exact Ht|].
  destruct (fst (m st)); [now apply HQ | now apply HX].
Qed.

(** Reading the message of a caught value calls nothing. *)
Lemma spec_message_of (v : Thrown) (Q : string -> list Event -> Prop) X :
  (forall m, read_message v = Returns m -> Q m []) ->
  (forall e, read_message v = Throws e -> X e []) ->
  spec (message_of v) Q X.
Proof.
  intros HQ HX st. exists []. unfold message_of. cbn. split; [now rewrite app_nil_r|].
  destruct (read_message v); auto.
Qed.

(** The error of an unreadable value is a [TypeError], whose message can
    be read. *)
Lemma read_message_TypeError (v e : Thrown) :
  read_message v = Throws e -> exists m, read_message e = Returns m.
Proof.
  destruct v as [m | | | [m|] text]; cbn; intro H; try discriminate;
    injection H as <-; now eexists.
Qed.

(** Two descriptions of one computation hold together. *)
Lemma spec_conj {A : Type} (m : M A) Q1 X1 Q2 X2 :
  spec m Q1 X1 -> spec m Q2 X2 ->
  spec m (fun a e => Q1 a e /\ Q2 a e) (fun msg e => X1 msg e /\ X2 msg e).
Proof.
  intros H1 H2 st. destruct (H1 st) as [e1 [Ht1 P1]]. destruct (H2 st) as [e2 [Ht2 P2]].
  assert (e1 = e2) by (rewrite Ht1 in Ht2; now apply app_inv_head in Ht2). subst e2.
  exists e1. split; [exact Ht1|]. destruct (fst (m st)); now split.
Qed.

End SpecRules.

(** ** Logging *)
Section LogFacts.
Variable host : Host.
Local Open Scope string_scope.

Lemma logged_app_l (msg : string) (e1 e2 : list Event) :
  logged msg e1 -> logged msg (e1 ++ e2)%list.
Proof. intros [ts H]. exists ts. apply in_or_app. now left. Qed.

Lemma logged_app_r (msg : string) (e1 e2 : list Event) :
  logged msg e2 -> logged msg (e1 ++ e2)%list.
Proof. intros [ts H]. exists ts. apply in_or_app. now right. Qed.

Lemma output_not_rejected (evs : list Event) (c : Event) (m : Thrown) :
  forallb is_output evs = true -> ~ In (Rejected c m) evs.
Proof.
  intros H Hin. rewrite forallb_forall in H. specialize (H _ Hin). discriminate.
Qed.

(** [log msg] writes the line to the channel and the console, creating the
    channel first when there is none; it does not throw. *)
Lemma spec_log (msg : string) :
  spec (V2.log host msg)
       (fun _ evs => forallb is_output evs = true /\ logged msg evs)
       (fun _ _ => False).
Proof.
  intro st. unfold V2.log, V2.out, bind, get_trace, emit. cbn.
  destruct (channel st); cbn.
  - eexists. split; [rewrite <- app_assoc; reflexivity|]. split; [reflexivity|].
    exists (now host (trace st)). now left.
  - eexists. split; [rewrite <- !app_assoc; reflexivity|]. split; [reflexivity|].
    exists (now host (trace st)). right. now left.
Qed.

Lemma spec_sleep (ms : Z) :
  spec (V2.sleep ms) (fun _ evs => evs = [SetTimeout ms]) (fun _ _ => False).
Proof. now apply spec_emit. Qed.

(** A run of [log]: afterwards there is a channel. *)
Lemma log_run (msg : string) (st : State) :
  exists evs,
    V2.log host msg st = (Returns tt, mkState true (trace st ++ evs))
    /\ forallb is_output evs = true
    /\ logged msg evs.
Proof.
  unfold V2.log, V2.out, bind, get_trace, emit. cbn.
  destruct (channel st) eqn:E; cbn.
  - eexists. rewrite E. split; [rewrite <- app_assoc; reflexivity|]. split; [reflexivity|].
    exists (now host (trace st)). now left.
  - eexists. split; [rewrite <- !app_assoc; reflexivity|]. split; [reflexivity|].
    exists (now host (trace st)). right. now left.
Qed.

End LogFacts.

(** Running a computation by hand: the next [log] is replaced by its
    result. *)
Ltac run_log :=
  match goal with
  | |- context [V2.log ?h ?m ?s] =>
      let e := fresh "e" in
      let E := fresh "E" in
      let O := fresh "O" in
      let L := fresh "L" in
      destruct (log_run h m s) as [e [E [O L]]]; rewrite E; clear E;
      cbn [fst snd trace channel]
  end.

(** ** Quiet computations *)
Section QuietFacts.
Variable host : Host.
Variable P : Event -> bool.
Hypothesis P_output : forall e, is_output e = true -> P e = true.

Lemma output_P (evs : list Event) : forallb is_output evs = true -> forallb P evs = true.
Proof.
  rewrite !forallb_forall. intros H e He. apply P_output. now apply H.
Qed.

Lemma quiet_ret {A : Type} (a : A) : quiet P (ret a).
Proof. now apply spec_ret. Qed.

Lemma quiet_emit (e : Event) : P e = true -> quiet P (emit e).
Proof. intro H. apply spec_emit. cbn. now rewrite H. Qed.

Lemma quiet_log (msg : string) : quiet P (V2.log host msg).
Proof.
  eapply spec_weaken; [apply spec_log | | auto]. cbn. intros _ e [H _]. now apply output_P.
Qed.

Lemma quiet_out : quiet P V2.out.
Proof.
  intro st. unfold V2.out. destruct (channel st); cbn.
  - exists []. now rewrite app_nil_r.
  - eexists. split; [reflexivity|]. cbn. rewrite P_output; reflexivity.
Qed.

Lemma quiet_bind {A B : Type} (m : M A) (k : A -> M B) :
  quiet P m -> (forall a, quiet P (k a)) -> quiet P (bind m k).
Proof.
  intros Hm Hk. eapply spec_bind; [exact Hm | exact Hk | | |]; cbn; auto.
  intros _ _ e1 e2 H1 H2. rewrite forallb_app, H1, H2. reflexivity.
Qed.

(** A quiet start can be put in front of any description that tolerates
    events of class [P] in front. *)
Lemma spec_bind_prefix {A B : Type} (m : M A) (k : A -> M B)
    (Q : B -> list Event -> Prop) (X : Thrown -> list Event -> Prop) :
  quiet P m -> (forall a, spec (k a) Q X) ->
  (forall b e1 e2, forallb P e1 = true -> Q b e2 -> Q b (e1 ++ e2)) ->
  (forall msg e1 e2, forallb P e1 = true -> X msg e2 -> X msg (e1 ++ e2)) ->
  spec (bind m k) Q X.
Proof.
  intros Hm Hk HQ HX.
  eapply spec_bind with (Q2 := fun _ => Q) (X2 := fun _ => X);
    [exact Hm | exact Hk | | |]; cbn.
  - intros _ b. apply HQ.
  - intros _ _ [].
  - intros _ msg. apply HX.
Qed.

End QuietFacts.



Lemma stays_quiet {A : Type} (P : Event -> bool) (m : M A) : quiet P m -> stays P m.
Proof. intro H. eapply spec_weaken; [exact H | auto | now intros]. Qed.

Lemma count_app (p : Event -> bool) (e1 e2 : list Event) :
  count p (e1 ++ e2) = (count p e1 + count p e2)%nat.
Proof. unfold count. now rewrite filter_app, length_app. Qed.

Lemma count_none (p q : Event -> bool) (evs : list Event) :
  (forall e, q e = true -> p e = false) -> forallb q evs = true -> count p evs = 0%nat.
Proof.
  intros H Hq. unfold count. induction evs as [|e evs IH]; [reflexivity|].
  cbn in Hq. apply andb_true_iff in Hq as [He Hq]. cbn. rewrite (H e He). now apply IH.
Qed.

Section StaysFacts.
Variable host : Host.
Variable P : Event -> bool.
Hypothesis P_output : forall e, is_output e = true -> P e = true.

Lemma stays_ret {A : Type} (a : A) : stays P (ret a).
Proof. now apply spec_ret. Qed.

Lemma stays_emit (e : Event) : P e = true -> stays P (emit e).
Proof. intro H. apply spec_emit. cbn. now rewrite H. Qed.

Lemma stays_log (msg : string) : stays P (V2.log host msg).
Proof.
  eapply spec_weaken; [apply spec_log | | intros _ _ []]. cbn. intros _ e [H _].
  rewrite forallb_forall in *. auto.
Qed.

Lemma stays_call {A : Type} (c : Event) (answer : list Event -> Outcome A) :
  P c = true -> (forall m, P (Rejected c m) = true) -> stays P (call c answer).
Proof.
  intros Hc Hr. apply spec_call; cbn; intros; now rewrite Hc, ?Hr.
Qed.

Lemma stays_bind {A B : Type} (m : M A) (k : A -> M B) :
  stays P m -> (forall a, stays P (k a)) -> stays P (bind m k).
Proof.
  intros Hm Hk. eapply spec_bind; [exact Hm | exact Hk | | |]; cbn; auto;
    intros; rewrite forallb_app; now apply andb_true_iff.
Qed.

Lemma stays_try_catch {A : Type} (m : M A) (h : Thrown -> M A) :
  stays P m -> (forall msg, stays P (h msg)) -> stays P (try_catch m h).
Proof.
  intros Hm Hh. eapply spec_try_catch; [exact Hm | exact Hh | | |]; cbn; auto;
    intros; rewrite forallb_app; now apply andb_true_iff.
Qed.

Lemma stays_message_of (v : Thrown) : stays P (message_of v).
Proof. now apply spec_message_of. Qed.


End StaysFacts.


Ltac stays_step :=
  first
    [ apply stays_ret
    | apply stays_log; intros [] ; (reflexivity || discriminate)
    | apply stays_message_of
    | apply stays_emit; reflexivity
    | apply stays_call; [reflexivity | intro; reflexivity]
    | apply stays_bind; [|intro]
    | apply stays_try_catch; [|intro]
    | match goal with
      | |- stays _ (match ?x with _ => _ end) => destruct x
      end ].


(** ** Rejections *)
Section RejectionFacts.

Lemma rejections_app (e1 e2 : list Event) :
  rejections (e1 ++ e2) = (rejections e1 ++ rejections e2)%list.
Proof. apply flat_map_app. Qed.

Lemma rejections_calls (evs : list Event) :
  forallb is_call evs = true -> rejections evs = [].
Proof.
  induction evs as [|e evs IH]; [reflexivity|]. cbn [forallb]. intro H.
  apply andb_true_iff in H as [He H].
  change (rejections (e :: evs))
    with ((match e with Rejected c v => [(c, v)] | _ => [] end) ++ rejections evs)%list.
  rewrite (IH H). destruct e; try reflexivity. discriminate He.
Qed.

Lemma call_output (e : Event) : is_output e = true -> is_call e = true.
Proof. destruct e; cbn; congruence. Qed.

Lemma rejections_output (evs : list Event) :
  forallb is_output evs = true -> rejections evs = [].
Proof. intro H. apply rejections_calls. apply (output_P is_call call_output _ H). Qed.

(** A catch clause of the second revision, from the value it caught. *)
Lemma spec_read_then {A : Type} (v : Thrown) (k : string -> M A)
    (Q : string -> A -> list Event -> Prop) :
  (forall m, spec (k m) (Q m) (fun _ _ => False)) ->
  spec (bind (message_of v) k)
       (fun a evs => exists m, read_message v = Returns m /\ Q m a evs)
       (fun e evs => evs = [] /\ read_message v = Throws e).
Proof.
  intro Hk.
  eapply spec_bind with
    (Q1 := fun m e => e = [] /\ read_message v = Returns m)
    (X1 := fun e evs => evs = [] /\ read_message v = Throws e)
    (Q2 := Q) (X2 := fun _ _ _ => False);
    [now apply spec_message_of | exact Hk | | auto | now intros].
  cbv beta. intros m a e1 e2 [-> Hm] HQ. now exists m.
Qed.

End RejectionFacts.

(** ** What a computation may throw *)
Section EscapeFacts.
Variable host : Host.

Lemma raised_prefix (e : Thrown) (e1 e2 : list Event) :
  raised e e2 -> raised e (e1 ++ e2).
Proof.
  intros [pre [c [v [-> H]]]]. exists (e1 ++ pre)%list, c, v.
  split; [now rewrite app_assoc | exact H].
Qed.

Lemma escaped_prefix (e : Thrown) (e1 e2 : list Event) :
  escaped e e2 -> escaped e (e1 ++ e2).
Proof.
  intros [pre [c [v [-> H]]]]. exists (e1 ++ pre)%list, c, v.
  split; [now rewrite app_assoc | exact H].
Qed.

Lemma escaped_raised (e : Thrown) (evs : list Event) : escaped e evs -> raised e evs.
Proof. intros [pre [c [v [-> H]]]]. exists pre, c, v. split; [reflexivity | now right]. Qed.

(** A catch clause that reads the message first lets only the
    [TypeError] of that read through. *)
Lemma caught (v e : Thrown) (evs : list Event) :
  raised v evs -> read_message v = Throws e -> escaped e evs.
Proof.
  intros [pre [c [v' [-> [-> | H]]]]] Hr.
  - now exists pre, c, v'.
  - apply read_message_TypeError in H as [m Hm]. congruence.
Qed.

Lemma may_raise_ret {A : Type} (a : A) : may_raise (ret a).
Proof. now apply spec_ret. Qed.

Lemma may_raise_emit (e : Event) : may_raise (emit e).
Proof. now apply spec_emit. Qed.

Lemma may_raise_log (msg : string) : may_raise (V2.log host msg).
Proof. eapply spec_weaken; [apply spec_log | auto | now intros]. Qed.

Lemma may_raise_call {A : Type} (c : Event) (answer : list Event -> Outcome A) :
  may_raise (call c answer).
Proof. apply spec_call; [auto|]. intro v. exists [], c, v. split; [reflexivity | now left]. Qed.

Lemma may_raise_bind {A B : Type} (m : M A) (k : A -> M B) :
  may_raise m -> (forall a, may_raise (k a)) -> may_raise (bind m k).
Proof.
  intros Hm Hk. eapply spec_bind; [exact Hm | exact Hk | auto | auto |].
  cbv beta. intros _ e e1 e2 _. apply raised_prefix.
Qed.

Lemma may_raise_escape {A : Type} (m : M A) : may_escape m -> may_raise m.
Proof. intro H. eapply spec_weaken; [exact H | auto | apply escaped_raised]. Qed.

Lemma may_escape_ret {A : Type} (a : A) : may_escape (ret a).
Proof. now apply spec_ret. Qed.

Lemma may_escape_emit (e : Event) : may_escape (emit e).
Proof. now apply spec_emit. Qed.

Lemma may_escape_log (msg : string) : may_escape (V2.log host msg).
Proof. eapply spec_weaken; [apply spec_log | auto | now intros]. Qed.

Lemma may_escape_call_returns {A : Type} (c : Event) (f : list Event -> A) :
  may_escape (call c (fun t => Returns (f t))).
Proof. now apply spec_call_returns. Qed.

Lemma may_escape_bind {A B : Type} (m : M A) (k : A -> M B) :
  may_escape m -> (forall a, may_escape (k a)) -> may_escape (bind m k).
Proof.
  intros Hm Hk. eapply spec_bind; [exact Hm | exact Hk | auto | auto |].
  cbv beta. intros _ e e1 e2 _. apply escaped_prefix.
Qed.

(** The catch clauses of the second revision: the message is read, then
    logged, and the clause goes on. *)
Lemma may_escape_try_catch {A : Type} (m : M A) (k : string -> M A) :
  may_raise m ->
  (forall msg, spec (k msg) (fun _ _ => True) (fun _ _ => False)) ->
  may_escape (try_catch m (fun e => bind (message_of e) k)).
Proof.
  intros Hm Hk.
  eapply spec_try_catch with
    (Q1 := fun _ _ => True) (X1 := raised)
    (Q2 := fun _ _ _ => True)
    (X2 := fun v e evs => evs = [] /\ read_message v = Throws e);
    [exact Hm | intro v | auto | auto | ].
  - eapply spec_bind with
      (Q1 := fun _ e => e = []) (X1 := fun e evs => evs = [] /\ read_message v = Throws e)
      (Q2 := fun _ _ _ => True) (X2 := fun _ _ _ => False);
      [now apply spec_message_of | exact Hk | auto | auto | now intros].
  - cbv beta. intros v e e1 e2 H1 [-> H2]. rewrite app_nil_r. now apply (caught v).
Qed.

End EscapeFacts.

Ltac never_step :=
  first
    [ apply spec_ret; exact I
    | eapply spec_weaken; [apply spec_log | auto | now intros]
    | eapply spec_bind with (Q1 := fun _ _ => True) (X1 := fun _ _ => False)
                            (Q2 := fun _ _ _ => True) (X2 := fun _ _ _ => False);
      [ | intro | auto | now intros | now intros] ].

Ltac raise_step :=
  first
    [ apply may_raise_ret
    | apply may_raise_log
    | apply may_raise_emit
    | apply may_raise_call
    | apply may_raise_bind; [|intro]
    | match goal with
      | |- may_raise (try_catch _ _) =>
          apply may_raise_escape, may_escape_try_catch; [|intro; repeat never_step]
      | |- may_raise (match ?x with _ => _ end) => destruct x
      end ].

Ltac escape_step :=
  first
    [ apply may_escape_ret
    | apply may_escape_log
    | apply may_escape_emit
    | apply may_escape_call_returns
    | apply may_escape_bind; [|intro]
    | apply may_escape_try_catch; [repeat raise_step | intro; repeat never_step]
    | match goal with
      | |- may_escape (match ?x with _ => _ end) => destruct x
      end ].

(** ** The command *)

Section CommandFacts.
Context {NF : NodeFlags}.
Variable host : Host.
Local Open Scope string_scope.

Lemma warmup_output (e : Event) : is_output e = true -> is_warmup e = true.
Proof. destruct e; cbn; congruence. Qed.

Lemma diagnostics_loop_quiet (P : Event -> bool) (doc : TextDocument) (n : nat) :
  (forall e, is_warmup e = true -> P e = true) ->
  forall i, quiet P (V2.diagnostics_loop host doc n i).
Proof.
  intro HP.
  assert (Hout : forall e, is_output e = true -> P e = true).
  { intros e He. now apply HP, warmup_output. }
  induction n as [|n IH]; intro i; cbn [V2.diagnostics_loop].
  - apply quiet_ret.
  - apply quiet_bind.
    + apply spec_call_returns. intros _. cbn. now rewrite HP.
    + intros [|].
      * apply quiet_bind; [now apply quiet_log | intros _; apply quiet_ret].
      * apply quiet_bind; [apply quiet_emit; now apply HP | intros _; apply IH].
Qed.

(** The warm-up leaves warm-up events only, whether it returns or throws. *)
Lemma waitForTypeScriptReady_stays (P : Event -> bool) (doc : TextDocument) :
  (forall e, is_warmup e = true -> P e = true) ->
  stays P (V2.waitForTypeScriptReady host doc).
Proof.
  intro HP.
  assert (Hout : forall e, is_output e = true -> P e = true).
  { intros e He. now apply HP, warmup_output. }
  unfold V2.waitForTypeScriptReady, V2.wake. apply stays_bind.
  - destruct (getExtension host _) as [id|]; [|now apply stays_log].
    apply stays_bind; [now apply stays_log | intros _].
    apply stays_try_catch.
    + apply stays_bind; [|intros _; now apply stays_log].
      apply stays_call; [now apply HP | intro v; now apply HP].
    + intro v. apply stays_bind; [apply stays_message_of | intro msg; now apply stays_log].
  - intros _. apply stays_bind; [apply stays_quiet; now apply diagnostics_loop_quiet|].
    intros [|]; [apply stays_ret | now apply stays_log].
Qed.

(** It throws only when the activation rejected with a value whose
    message cannot be read. *)
Lemma waitForTypeScriptReady_escape (doc : TextDocument) :
  may_escape (V2.waitForTypeScriptReady host doc).
Proof.
  unfold V2.waitForTypeScriptReady, V2.wake. apply may_escape_bind; [repeat escape_step|].
  intros _. apply may_escape_bind.
  - eapply spec_weaken;
      [apply (diagnostics_loop_quiet is_warmup doc 20); auto | auto | now intros].
  - intros [|]; repeat escape_step.
Qed.


Lemma queryMoveNewFileActions_raise (doc : TextDocument) (sel : Selection) :
  may_raise (V2.queryMoveNewFileActions host doc sel).
Proof.
  unfold V2.queryMoveNewFileActions, V2.query_with_kind, V2.query_without_kind.
  cbv zeta. repeat raise_step.
Qed.

Lemma executeEditorCodeAction_escape (kind : string) :
  may_escape (V2.executeEditorCodeAction host kind).
Proof. unfold V2.executeEditorCodeAction. repeat escape_step. Qed.

Lemma process_target_escape (doc : TextDocument) (total : nat) (done : Z) (t : Target) :
  may_escape (V2.process_target host doc total done t).
Proof.
  unfold V2.process_target, V2.provider_path, V2.fallback_path, V2.sleep. cbv zeta.
  do 4 (apply may_escape_bind; [escape_step | intros _]).
  apply may_escape_bind.
  - apply may_escape_try_catch; [|intro; repeat never_step].
    apply may_raise_bind; [apply queryMoveNewFileActions_raise | intro actions].
    repeat raise_step.
  - intros [|]; [escape_step|].
    apply may_escape_bind; [escape_step | intros _].
    apply may_escape_bind; [apply executeEditorCodeAction_escape | intros [|]];
      cbn [negb]; repeat escape_step.
Qed.




Lemma refused_prefix (e1 e2 : list Event) :
  forallb is_output e1 = true -> refused e2 -> refused (e1 ++ e2)%list.
Proof.
  intros H1 [logs [msg [-> [Hout Hlog]]]]. exists (e1 ++ logs)%list, msg.
  split; [now rewrite app_assoc|]. split; [|now apply logged_app_r].
  rewrite forallb_app, H1, Hout. reflexivity.
Qed.

Lemma nothing_found_prefix (f : string) (e1 e2 : list Event) :
  forallb is_warmup e1 = true -> nothing_found f e2 -> nothing_found f (e1 ++ e2)%list.
Proof.
  intros H1 [warm [logs [msg [-> [Hw [Hout Hlog]]]]]]. exists (e1 ++ warm)%list, logs, msg.
  split; [now rewrite app_assoc|]. split; [|now split].
  rewrite forallb_app, H1, Hw. reflexivity.
Qed.

(** The two refusals: log the message, show it as an error, return. *)
Lemma refusal_spec (msg : string) :
  spec (bind (V2.log host msg) (fun _ => emit (ShowErrorMessage msg)))
       (fun _ evs => refused evs) (fun _ _ => False).
Proof.
  eapply spec_bind with
    (Q2 := fun _ _ e => e = [ShowErrorMessage msg]) (X2 := fun _ _ _ => False);
    [apply spec_log | intros _; now apply spec_emit | | auto | auto].
  cbn. intros _ _ e1 e2 [Hout Hlog] ->. now exists e1, msg.
Qed.

(** Log a message and show it as information. *)
Lemma report_spec (msg : string) :
  spec (bind (V2.log host msg) (fun _ => emit (ShowInformationMessage msg)))
       (fun _ evs => exists logs, evs = (logs ++ [ShowInformationMessage msg])%list
                                  /\ forallb is_output logs = true /\ logged msg logs)
       (fun _ _ => False).
Proof.
  eapply spec_bind with
    (Q2 := fun _ _ e => e = [ShowInformationMessage msg]) (X2 := fun _ _ _ => False);
    [apply spec_log | intros _; now apply spec_emit | | auto | auto].
  cbn. intros _ _ e1 e2 [Hout Hlog] ->. now exists e1.
Qed.

Lemma isTSLike_accepted (doc : TextDocument) :
  V2.isTSLike doc = true <-> In (languageId doc) accepted_languages.
Proof.
  unfold V2.isTSLike, accepted_languages. rewrite !orb_true_iff, !String.eqb_eq. cbn.
  intuition congruence.
Qed.

(** Without an editor, or on a document that is not accepted, the command
    awaits nothing: it logs, shows the error and returns. *)
Lemma explodeDocument_refuses :
  activeTextEditor host = None
  \/ (exists editor, activeTextEditor host = Some editor
                     /\ V2.isTSLike (document editor) = false) ->
  spec (V2.explodeDocument host) (fun _ evs => refused evs) (fun _ _ => False).
Proof.
  intro Hrefuse. unfold V2.explodeDocument.
  apply spec_bind_prefix with (P := is_output);
    [apply quiet_out; auto | intros _ | intros _; apply refused_prefix | auto].
  apply spec_bind_prefix with (P := is_output);
    [now apply quiet_emit | intros _ | intros _; apply refused_prefix | auto].
  apply spec_bind_prefix with (P := is_output);
    [apply quiet_log; auto | intros _ | intros _; apply refused_prefix | auto].
  destruct Hrefuse as [-> | [editor [-> Hlang]]]; cbv zeta; [apply refusal_spec|].
  rewrite Hlang. cbn [negb].
  apply spec_bind_prefix with (P := is_output);
    [apply quiet_log; auto | intros _; apply refusal_spec
    | intros _; apply refused_prefix | auto].
Qed.

(** On an accepted document whose walk collects nothing, the command
    either stops in the warm-up, before the parse, or parses and reports. *)
Lemma explodeDocument_finds_nothing (editor : TextEditor) :
  activeTextEditor host = Some editor ->
  V2.isTSLike (document editor) = true ->
  V2.collect (createSourceFile host (fileName (document editor))
                (getDocText (document editor))) = [] ->
  spec (V2.explodeDocument host)
       (fun _ evs => nothing_found (fileName (document editor)) evs)
       (fun e evs => forallb is_warmup evs = true /\ escaped e evs).
Proof.
  intros Heditor Hlang Hnone. unfold V2.explodeDocument. rewrite Heditor. cbv zeta.
  rewrite Hlang, Hnone. cbn [negb].
  assert (HX : forall (e : Thrown) e1 e2, forallb is_warmup e1 = true ->
               forallb is_warmup e2 = true /\ escaped e e2 ->
               forallb is_warmup (e1 ++ e2) = true /\ escaped e (e1 ++ e2)%list).
  { intros e e1 e2 H1 [H2 H3]. split; [|now apply escaped_prefix].
    rewrite forallb_app, H1, H2. reflexivity. }
  apply spec_bind_prefix with (P := is_warmup);
    [apply quiet_out, warmup_output | intros _ | intros _; apply nothing_found_prefix
    | exact HX].
  apply spec_bind_prefix with (P := is_warmup);
    [now apply quiet_emit | intros _ | intros _; apply nothing_found_prefix | exact HX].
  apply spec_bind_prefix with (P := is_warmup);
    [apply quiet_log, warmup_output | intros _ | intros _; apply nothing_found_prefix
    | exact HX].
  apply spec_bind_prefix with (P := is_warmup);
    [apply quiet_log, warmup_output | intros _ | intros _; apply nothing_found_prefix
    | exact HX].
  eapply spec_bind with
    (Q1 := fun _ e => forallb is_warmup e = true)
    (X1 := fun e evs => forallb is_warmup evs = true /\ escaped e evs)
    (Q2 := fun _ _ evs => nothing_found (fileName (document editor)) evs)
    (X2 := fun _ _ _ => False).
  - eapply spec_weaken;
      [apply (spec_conj _ _ _ _ _
                (waitForTypeScriptReady_stays is_warmup (document editor) (fun e H => H))
                (waitForTypeScriptReady_escape (document editor)))
      | cbv beta; tauto | cbv beta; tauto].
  - intros _.
    eapply spec_bind with
      (Q1 := fun _ e => e = [CreateSourceFile (fileName (document editor))])
      (Q2 := fun _ _ evs =>
               exists logs,
                 evs = (logs ++ [ShowInformationMessage
                                   "Explode Document: No top-level declarations found"])%list
                 /\ forallb is_output logs = true
                 /\ logged "Explode Document: No top-level declarations found" logs)
      (X1 := fun _ _ => False) (X2 := fun _ _ _ => False);
      [now apply spec_emit | intros _; apply report_spec | | auto | auto].
    cbn. intros _ _ e1 e2 -> [logs [-> [Hout Hlog]]].
    exists [], logs, "Explode Document: No top-level declarations found".
    now repeat split.
  - cbv beta. intros _ _ e1 e2. apply nothing_found_prefix.
  - auto.
  - now intros.
Qed.

(** A file without qualifying declarations yields no target. *)
Lemma collect_nil (sf : SourceFile) :
  well_linked sf = true -> qualifying sf = [] -> V2.collect sf = [].
Proof.
  intros Hwf Hq. apply length_zero_iff_nil.
  rewrite collect_flat_map, collect_length.
  - unfold qualifying in Hq. now rewrite Hq.
  - intros c Hc E. now apply visit_rejected_child.
Qed.

(** C7: without an active editor, or with a document whose language is
    not one of the four accepted ones, the command returns normally; all it
    does is write to its output channel and show one error message: the
    document is not parsed and nothing is selected, queried or applied. *)
Theorem explodeDocument_refusal (st : State)
    (Hrefuse : activeTextEditor host = None
               \/ exists editor, activeTextEditor host = Some editor
                                 /\ ~ In (languageId (document editor)) accepted_languages) :
  fst (V2.explodeDocument host st) = Returns tt
  /\ exists logs msg,
       trace (snd (V2.explodeDocument host st))
       = (trace st ++ logs ++ [ShowErrorMessage msg])%list
       /\ forallb is_output logs = true.
Proof.
  assert (H : spec (V2.explodeDocument host) (fun _ evs => refused evs) (fun _ _ => False)).
  { apply explodeDocument_refuses. destruct Hrefuse as [E | [editor [E Hlang]]]; [now left|].
    right. exists editor. split; [exact E|].
    destruct (V2.isTSLike (document editor)) eqn:Ets; [|reflexivity].
    apply isTSLike_accepted in Ets. contradiction. }
  destruct (H st) as [evs [Ht Href]].
  destruct (fst (V2.explodeDocument host st)) as [[] | e]; [|contradiction].
  split; [reflexivity|].
  destruct Href as [logs [msg [-> [Hlogs _]]]]. now exists logs, msg.
Qed.

(** C8: on an accepted document whose file has no qualifying top-level
    declaration the plan is empty.  When the run parses the document, it
    returns normally, and after the warm-up and the parse it only logs and
    shows one information message: no error message, nothing selected,
    queried or applied.  A run that does not get to the parse has thrown in
    the warm-up, out of the catch clause of a rejected activation. *)
Theorem explodeDocument_nothing_found (st : State) (editor : TextEditor)
    (Heditor : activeTextEditor host = Some editor)
    (Hlang : In (languageId (document editor)) accepted_languages)
    (Hlinked : well_linked (createSourceFile host (fileName (document editor))
                              (getDocText (document editor))) = true)
    (Hnone : qualifying (createSourceFile host (fileName (document editor))
                           (getDocText (document editor))) = []) :
  V2.plan (createSourceFile host (fileName (document editor))
             (getDocText (document editor))) = []
  /\ exists evs,
       trace (snd (V2.explodeDocument host st)) = (trace st ++ evs)%list
       /\ (In (CreateSourceFile (fileName (document editor))) evs ->
           fst (V2.explodeDocument host st) = Returns tt
           /\ exists warm logs msg,
                trace (snd (V2.explodeDocument host st))
                = (trace st ++ warm ++ CreateSourceFile (fileName (document editor))
                            :: logs ++ [ShowInformationMessage msg])%list
                /\ forallb is_warmup warm = true
                /\ forallb is_output logs = true)
       /\ (~ In (CreateSourceFile (fileName (document editor))) evs ->
           exists e warm id v,
             fst (V2.explodeDocument host st) = Throws e
             /\ evs = (warm ++ [ExtensionActivate id;
                                Rejected (ExtensionActivate id) v])%list
             /\ forallb is_warmup warm = true
             /\ read_message v = Throws e).
Proof.
  pose proof (collect_nil _ Hlinked Hnone) as Hc.
  split; [unfold V2.plan; now rewrite Hc|].
  apply isTSLike_accepted in Hlang.
  destruct (explodeDocument_finds_nothing editor Heditor Hlang Hc st) as [evs [Ht H]].
  exists evs. split; [exact Ht|].
  destruct (fst (V2.explodeDocument host st)) as [[] | e].
  - destruct H as [warm [logs [msg [-> [Hw [Hl _]]]]]]. split.
    + intros _. split; [reflexivity|]. now exists warm, logs, msg.
    + intro Hnot. exfalso. apply Hnot. apply in_or_app. right. now left.
  - destruct H as [Hw [pre [c [v [-> Hv]]]]]. split.
    + intro Hin. rewrite forallb_forall in Hw. specialize (Hw _ Hin). discriminate Hw.
    + intros _. rewrite forallb_app in Hw. apply andb_true_iff in Hw as [Hpre Hlast].
      destruct c as [| | | | | | | id | | | | | | | | | | | | | c' v'];
        cbn in Hlast; try discriminate Hlast.
      * exists e, pre, id, v. now repeat split.
      * destruct c'; discriminate Hlast.
Qed.

End CommandFacts.

(** ** The sample hosts, through the theorems *)

(** No editor, and a JSON document. *)
Lemma explodeDocument_refusal_witness :
  (fst (V2.explodeDocument Samples.host_no_editor Samples.init) = Returns tt
   /\ exists logs msg,
        trace (snd (V2.explodeDocument Samples.host_no_editor Samples.init))
        = ([] ++ logs ++ [ShowErrorMessage msg])%list
        /\ forallb is_output logs = true)
  /\ (fst (V2.explodeDocument Samples.host_json Samples.init) = Returns tt
      /\ exists logs msg,
           trace (snd (V2.explodeDocument Samples.host_json Samples.init))
           = ([] ++ logs ++ [ShowErrorMessage msg])%list
           /\ forallb is_output logs = true).
Proof.
  split.
  - apply (explodeDocument_refusal (NF := ts_NodeFlags) Samples.host_no_editor Samples.init).
    left. reflexivity.
  - apply (explodeDocument_refusal (NF := ts_NodeFlags) Samples.host_json Samples.init).
    right. exists (mkTextEditor (Samples.sample_doc "json")). split; [reflexivity|].
    cbn. intuition discriminate.
Defined.

(** A TypeScript document that holds [console.log(1);] only. *)
Lemma explodeDocument_nothing_found_witness :
  V2.plan Samples.statements_ts = []
  /\ fst (V2.explodeDocument Samples.host_statements Samples.init) = Returns tt
  /\ exists warm logs msg,
       trace (snd (V2.explodeDocument Samples.host_statements Samples.init))
       = ([] ++ warm ++ CreateSourceFile "index.ts"
              :: logs ++ [ShowInformationMessage msg])%list
       /\ forallb is_warmup warm = true
       /\ forallb is_output logs = true.
Proof.
  destruct (explodeDocument_nothing_found (NF := ts_NodeFlags) Samples.host_statements
              Samples.init (mkTextEditor (Samples.sample_doc "typescript"))
              eq_refl (or_introl eq_refl) eq_refl eq_refl)
    as [Hplan [evs [Ht [Hparsed _]]]].
  split; [exact Hplan|]. apply Hparsed.
  change (In (CreateSourceFile "index.ts") (trace Samples.init ++ evs)). rewrite <- Ht.
  vm_compute. repeat (first [left; reflexivity | right]).
Defined.

(** C9, at the failing input: the end-to-end file with its five targets, a
    provider that offers the move, and [vscode.executeCodeAction] rejecting
    with [undefined].  The catch clause of the loop reads the message of
    [undefined]; the [TypeError] of that read leaves the catch clause, the
    loop and the command.  The run stops at the rejection, in the round of
    the first target: one target of five is selected, the failure is not
    logged, and no notification is shown. *)
Theorem explodeDocument_unreadable_rejection :
  let r := V2.explodeDocument (NF := ts_NodeFlags) Samples.host_rejects_undefined
             Samples.init in
  List.length (V2.plan (NF := ts_NodeFlags) Samples.index_ts) = 5%nat
  /\ fst r = Throws (TypeError_reading "message" "undefined")
  /\ firstn 2 (rev (trace (snd r)))
     = [Rejected (ExecuteCodeAction Samples.move_action) Undefined;
        ExecuteCodeAction Samples.move_action]
  /\ filter is_selection (trace (snd r))
     = [SetSelection (mkSelection (mkPosition 0 142) (mkPosition 0 145))]
  /\ existsb (fun e => match e with
                       | AppendLine l => string_infix "Provider execute failed" l
                       | _ => false
                       end) (trace (snd r)) = false
  /\ count is_notification (trace (snd r)) = 0%nat.
Proof. vm_compute. repeat split. Qed.

(** The same file and provider with a command that rejects with an
    [Error]: the round of each target reports the failure under the label
    of the target, the loop goes on and the command returns. *)
Example apply_failure_log :
  let r := V2.explodeDocument Samples.host_apply_fails Samples.init in
  fst r = Returns tt
  /\ count is_selection (trace (snd r)) = 5%nat
  /\ Forall (fun t => In (AppendLine ("[T] Provider execute failed for " ++ label t
                                       ++ ": command failed")) (trace (snd r)))
            (V2.plan Samples.index_ts).
Proof.
  split; [reflexivity|]. split; [reflexivity|]. vm_compute.
  repeat (first [apply Forall_nil | apply Forall_cons]);
    repeat (first [left; reflexivity | right]).
Qed.

(** With a command that rejects with a string, which has no [message],
    the log says [undefined]. *)
Example string_rejection_log :
  let r := V2.explodeDocument Samples.host_rejects_string Samples.init in
  fst r = Returns tt
  /\ In (AppendLine "[T] Provider execute failed for Qux: undefined") (trace (snd r)).
Proof.
  split; [reflexivity|]. vm_compute. repeat (first [left; reflexivity | right]).
Qed.

(** A provider and an editor command that both reject with an [Error]:
    what the log holds for the first and the last target. *)
Example failing_host_log :
  let tr := trace (snd (V2.explodeDocument Samples.host_failing Samples.init)) in
  In (AppendLine "[T] Provider kind query rejected: no provider") tr
  /\ In (AppendLine "[T] Provider execute failed for Qux: no provider") tr
  /\ In (AppendLine "[T] editor.action.codeAction failed: command failed") tr
  /\ In (AppendLine "[T] Fallback codeAction executor did not apply for Qux") tr
  /\ In (AppendLine "[T] Provider execute failed for Foo: no provider") tr
  /\ In (ShowInformationMessage "Explode Document finished. See the Output panel for logs") tr.
Proof.
  vm_compute. repeat split; repeat (first [left; reflexivity | right]).
Qed.

(** ** The first revision, on the same hosts *)

(** It refuses in the same way, without a log. *)
Example first_revision_refusal :
  V1.explodeDocument Samples.host_no_editor Samples.init
  = (Returns tt, mkState false [ShowErrorMessage "Explode Document: No active editor."])
  /\ V1.explodeDocument Samples.host_json Samples.init
     = (Returns tt, mkState false [ShowErrorMessage "Explode Document: TS/JS files only."]).
Proof. split; reflexivity. Qed.

(** It reports an empty result in the same way. *)
Example first_revision_nothing_found :
  V1.explodeDocument Samples.host_statements Samples.init
  = (Returns tt,
     mkState false
       [CreateSourceFile "index.ts";
        ShowInformationMessage "Explode Document: No top-level declarations found."]).
Proof. reflexivity. Qed.

(** Its provider query is outside the [try]: a rejection leaves the
    command, after the first range, and no other range is processed. *)
Example first_revision_query_escapes :
  V1.explodeDocument Samples.host_failing Samples.init
  = (Throws (ErrorObject "no provider"),
     mkState false
       [CreateSourceFile "index.ts";
        WithProgress "Explode Document: Move each decl to a new file";
        ProgressReport "Processing 1/5";
        ExecuteCodeActionProvider
          (mkSelection (mkPosition 0 13) (mkPosition 0 16)) (Some "refactor.move.newFile"%string);
        Rejected
          (ExecuteCodeActionProvider
             (mkSelection (mkPosition 0 13) (mkPosition 0 16))
             (Some "refactor.move.newFile"%string))
          (ErrorObject "no provider")]).
Proof. reflexivity. Qed.

(** A failure while applying an action is caught; the warning carries the
    message and no label, and the ranges are taken top to bottom. *)
Example first_revision_apply_failure :
  let r := V1.explodeDocument Samples.host_apply_fails Samples.init in
  fst r = Returns tt
  /\ filter (fun e => match e with
                      | ShowWarningMessage _ | ExecuteCodeActionProvider _ _ => true
                      | _ => false
                      end) (trace (snd r))
     = flat_map (fun se =>
                   [ExecuteCodeActionProvider
                      (mkSelection (mkPosition 0 (fst se)) (mkPosition 0 (snd se)))
                      (Some "refactor.move.newFile"%string);
                    ShowWarningMessage "Explode Document: one declaration failed: command failed"])
                [(13, 16); (44, 47); (74, 75); (109, 112); (142, 145)].
Proof. split; reflexivity. Qed.

(** Its catch clause reads the message safely: a command that rejects
    with [undefined] is reported like any other, and the command returns. *)
Example first_revision_unreadable_rejection :
  let r := V1.explodeDocument Samples.host_rejects_undefined Samples.init in
  fst r = Returns tt
  /\ count (fun e => match e with
                     | ShowWarningMessage "Explode Document: one declaration failed: undefined" =>
                         true
                     | _ => false
                     end) (trace (snd r)) = 5%nat.
Proof. split; reflexivity. Qed.

(** * Further properties *)

(** ** The two walks *)
Section WalkAgreement.
Context {NF : NodeFlags}.
Variable doc : TextDocument.
Variable sf : SourceFile.

Lemma V1_visit_unfold (n : Node) (nameRanges : list Selection) :
  V1.visit doc sf n nameRanges =
  if negb (parent_is n sf) then
    forEachChild n (V1.visit doc sf) nameRanges
  else if negb (V1.isTopLevelDeclaration n sf) then
    forEachChild n (V1.visit doc sf) nameRanges
  else if negb (isVariableStatement n) then
    match node_name n with
    | Some id => V1.pushNameRange doc (id_getStart id) (id_getEnd id) nameRanges
    | None => V1.pushNameRange doc (getStart n) (getEnd n) nameRanges
    end
  else
    match syntax n with
    | VariableStatement declList =>
        if (has_flag (flags declList) NodeFlags_BlockScoped
            || has_flag (flags declList) NodeFlags_Const
            || has_flag (flags declList) NodeFlags_Let)
           && nonempty (declarations declList) then
          match declarations declList with
          | first :: _ =>
              match vd_name first with
              | BindingIdentifier name =>
                  V1.pushNameRange doc (id_getStart name) (id_getEnd name) nameRanges
              | BindingPattern =>
                  V1.pushNameRange doc (vd_getStart first) (vd_getEnd first) nameRanges
              end
          | [] => nameRanges
          end
        else nameRanges
    | _ => nameRanges
    end.
Proof. destruct n; reflexivity. Qed.

(** The first revision classifies as the second does. *)
Lemma V1_classifies_as_V2 (n : Node) :
  V1.isTopLevelDeclaration n sf = V2.isTopLevelDeclaration n sf.
Proof.
  unfold V1.isTopLevelDeclaration, V2.isTopLevelDeclaration.
  destruct (negb (parent_is n sf)); [reflexivity|].
  destruct (isClassDeclaration n || isInterfaceDeclaration n || isEnumDeclaration n
            || isFunctionDeclaration n || isTypeAliasDeclaration n); [reflexivity|].
  destruct (syntax n) as [k name | dl | k name]; try reflexivity. cbv zeta.
  destruct (has_flag (flags dl) NodeFlags_BlockScoped),
           (has_flag (flags dl) NodeFlags_Const),
           (has_flag (flags dl) NodeFlags_Let),
           (nonempty (declarations dl)); reflexivity.
Qed.

(** On every node the first walk pushes the ranges of the targets the
    second walk pushes. *)
Lemma V1_visit_as_V2 (n : Node) :
  forall nameRanges,
    V1.visit doc sf n nameRanges
    = nameRanges ++ map (selection_of doc) (V2.visit sf n []).
Proof.
  induction n as [n IH] using Node_children_ind. intro acc.
  assert (Hfold : forEachChild n (V1.visit doc sf) acc
                  = acc ++ map (selection_of doc) (forEachChild n (V2.visit sf) [])).
  { unfold forEachChild. rewrite Forall_forall in IH.
    rewrite (fold_left_app_flat_map _ (fun c => map (selection_of doc) (V2.visit sf c [])) _ IH).
    rewrite visit_children. cbn [app]. f_equal. clear IH.
    induction (children n) as [|c cs IHcs]; [reflexivity|]. cbn.
    now rewrite map_app, IHcs. }
  rewrite V1_visit_unfold, (visit_unfold sf n []).
  destruct (parent_is n sf) eqn:Hp; cbn [negb].
  2:{ rewrite (isTopLevelDeclaration_not_child n sf Hp). exact Hfold. }
  rewrite V1_classifies_as_V2.
  destruct (V2.isTopLevelDeclaration n sf) eqn:Hc; cbn [negb]; [|exact Hfold].
  destruct (classified_shape sf n Hc)
    as [[Hv [k [name Hs]]] | [Hv [dl [first [rest [Hs Hd]]]]]]; rewrite Hv; cbn [negb].
  - unfold V1.pushNameRange, V2.push, selection_of. cbv zeta.
    destruct (node_name n); reflexivity.
  - rewrite Hs, Hd.
    assert (Hb : (has_flag (flags dl) NodeFlags_BlockScoped
                  || has_flag (flags dl) NodeFlags_Const
                  || has_flag (flags dl) NodeFlags_Let)
                 && nonempty (declarations dl) = true).
    { revert Hc. unfold V2.isTopLevelDeclaration, isClassDeclaration, isInterfaceDeclaration,
        isEnumDeclaration, isFunctionDeclaration, isTypeAliasDeclaration.
      rewrite Hp, Hs. cbn.
      destruct (has_flag (flags dl) NodeFlags_BlockScoped),
               (has_flag (flags dl) NodeFlags_Const),
               (has_flag (flags dl) NodeFlags_Let),
               (nonempty (declarations dl)); cbn; congruence. }
    rewrite Hd in Hb. rewrite Hb.
    unfold V1.pushNameRange, V2.push, selection_of.
    destruct (vd_name first); reflexivity.
Qed.

(** X1: the first revision, which starts its walk at the source file, and
    the second, which starts at its children, collect the same spans in the
    same order: the ranges of the first are the spans of the targets of the
    second, before the sort. *)
Theorem walks_agree (Hroot : parent_is (sf_node sf) sf = false) :
  V1.nameRanges doc sf = map (selection_of doc) (V2.collect sf).
Proof.
  unfold V1.nameRanges, V2.collect.
  rewrite V1_visit_as_V2, (visit_unfold sf (sf_node sf) []).
  now rewrite (isTopLevelDeclaration_not_child _ _ Hroot).
Qed.

End WalkAgreement.

(** The end-to-end file: five ranges, those of the five targets. *)
Lemma walks_agree_witness :
  parent_is (sf_node Samples.index_ts) Samples.index_ts = false
  /\ List.length (V1.nameRanges (NF := ts_NodeFlags) (Samples.sample_doc "typescript")
                    Samples.index_ts) = 5%nat
  /\ V1.nameRanges (NF := ts_NodeFlags) (Samples.sample_doc "typescript") Samples.index_ts
     = map (selection_of (Samples.sample_doc "typescript"))
           (V2.collect (NF := ts_NodeFlags) Samples.index_ts).
Proof.
  split; [reflexivity|]. split; [reflexivity|].
  exact (walks_agree (NF := ts_NodeFlags) (Samples.sample_doc "typescript")
           Samples.index_ts eq_refl).
Defined.

(** ** Source order *)
Section SourceOrder.
Context {NF : NodeFlags}.
Variable sf : SourceFile.

(** The targets of statements that follow each other follow each other. *)
Lemma collect_chain (cs : list Node) :
  (forall c, In c cs -> V2.isTopLevelDeclaration c sf = false -> V2.visit sf c [] = []) ->
  forallb (fun c => (pos c <=? getEnd c) && name_inside c) cs = true ->
  in_sequence cs = true ->
  forall lo, match cs with c :: _ => lo <= pos c | [] => True end ->
  StronglySorted (fun a b => end_ a <= start b) (flat_map (fun c => V2.visit sf c []) cs)
  /\ Forall (fun t => lo <= start t) (flat_map (fun c => V2.visit sf c []) cs).
Proof.
  induction cs as [|c cs IH]; intros Hrej Hok Hseq lo Hlo.
  - split; constructor.
  - cbn [forallb] in Hok. apply andb_true_iff in Hok as [Hc Hok].
    apply andb_true_iff in Hc as [Hpe Hin]. apply Z.leb_le in Hpe.
    assert (Htail : StronglySorted (fun a b => end_ a <= start b)
                      (flat_map (fun c => V2.visit sf c []) cs)
                    /\ Forall (fun t => getEnd c <= start t)
                         (flat_map (fun c => V2.visit sf c []) cs)).
    { apply IH.
      - intros; apply Hrej; [now right | assumption].
      - exact Hok.
      - cbn in Hseq. destruct cs; [reflexivity|]. now apply andb_true_iff in Hseq as [_ Hseq].
      - cbn in Hseq. destruct cs; [exact I|]. apply andb_true_iff in Hseq as [Hseq _].
        now apply Z.leb_le in Hseq. }
    destruct Htail as [Hsorted Hlow]. cbn [flat_map].
    destruct (V2.isTopLevelDeclaration c sf) eqn:E.
    + destruct (visit_classified sf c E) as [t [-> Hb]]. specialize (Hb Hin). cbn [app].
      split.
      * constructor; [exact Hsorted|].
        eapply Forall_impl; [|exact Hlow]. cbn. intros; lia.
      * constructor; [lia|].
        eapply Forall_impl; [|exact Hlow]. cbn. intros; lia.
    + rewrite (Hrej c (or_introl eq_refl) E). cbn [app]. split; [exact Hsorted|].
      eapply Forall_impl; [|exact Hlow]. cbn. intros; lia.
Qed.

Lemma collect_in_chain :
  well_linked sf = true -> well_placed sf = true ->
  StronglySorted (fun a b => end_ a <= start b) (V2.collect sf).
Proof.
  intros Hlinked Hplaced. rewrite collect_flat_map.
  unfold well_placed in Hplaced. apply andb_true_iff in Hplaced as [Hok Hseq].
  assert (Hrej : forall c, In c (children (sf_node sf)) ->
                 V2.isTopLevelDeclaration c sf = false -> V2.visit sf c [] = []).
  { intros c Hc E. now apply visit_rejected_child. }
  destruct (children (sf_node sf)) as [|c cs] eqn:Ecs; [constructor|].
  now apply (collect_chain (c :: cs) Hrej Hok Hseq (pos c)), Z.le_refl.
Qed.

(** An entry that starts before all the others goes last. *)
Lemma sort_insert_last (x : Target) (l : list Target) :
  Forall (fun y => start x < start y) l ->
  sort_insert (fun a b => start b - start a) x l = l ++ [x].
Proof.
  induction l as [|y l IH]; intro H; [reflexivity|]. cbn.
  inversion H as [|? ? Hy Hl]; subst.
  destruct (Z.leb_spec (start y - start x) 0) as [Hle|_]; [lia|].
  now rewrite IH.
Qed.

Lemma Array_sort_ascending (l : list Target) :
  StronglySorted (fun a b => start a < start b) l ->
  Array_sort (fun a b => start b - start a) l = rev l.
Proof.
  induction l as [|x l IH]; intro H; [reflexivity|]. cbn.
  inversion H as [|? ? Hl Hx]; subst. rewrite (IH Hl).
  apply sort_insert_last. apply Forall_forall. intros y Hy.
  rewrite Forall_forall in Hx. apply Hx. now apply in_rev.
Qed.

Lemma chain_ascending (l : list Target) :
  StronglySorted (fun a b => end_ a <= start b) l ->
  Forall (fun t => start t < end_ t) l ->
  StronglySorted (fun a b => start a < start b) l.
Proof.
  induction l as [|a l IH]; intros Hs Hn; [constructor|].
  inversion Hs as [|? ? Hsl Hsa]; subst. inversion Hn as [|? ? Hna Hnl]; subst.
  constructor; [now apply IH|].
  eapply Forall_impl; [|exact Hsa]. cbn. intros; lia.
Qed.

(** X2: in a file as the parser builds it, the walk collects the targets in
    source order, each one ending before the next one starts. *)
Theorem collect_source_order
    (Hlinked : well_linked sf = true) (Hplaced : well_placed sf = true) :
  StronglySorted (fun a b => end_ a <= start b) (V2.collect sf)
  /\ Forall (fun t => start t <= end_ t) (V2.collect sf).
Proof.
  split; [now apply collect_in_chain|].
  rewrite collect_flat_map. apply Forall_forall. intros t Ht.
  apply in_flat_map in Ht as [c [Hc Ht]].
  unfold well_placed in Hplaced. apply andb_true_iff in Hplaced as [Hok _].
  rewrite forallb_forall in Hok. specialize (Hok c Hc).
  apply andb_true_iff in Hok as [_ Hin].
  destruct (V2.isTopLevelDeclaration c sf) eqn:E.
  - destruct (visit_classified sf c E) as [t' [Hv Hb]]. rewrite Hv in Ht.
    destruct Ht as [<- | []]. specialize (Hb Hin). lia.
  - rewrite (visit_rejected_child sf c Hlinked Hc E) in Ht. destruct Ht.
Qed.

(** X3: in such a file, when no span is empty, the plan is the collected
    list reversed: the targets from the bottom of the file to the top. *)
Theorem plan_is_reverse_source_order
    (Hlinked : well_linked sf = true) (Hplaced : well_placed sf = true)
    (Hspans : Forall (fun t => start t < end_ t) (V2.collect sf)) :
  V2.plan sf = rev (V2.collect sf).
Proof.
  unfold V2.plan. apply Array_sort_ascending, chain_ascending; [|exact Hspans].
  now apply collect_in_chain.
Qed.

(** X4: in a well-linked file every target of the plan comes from a
    qualifying statement of the file, and lies inside it when the name of
    that statement does. *)
Theorem plan_targets_inside (Hlinked : well_linked sf = true) (t : Target)
    (Ht : In t (V2.plan sf)) :
  exists c, In c (qualifying sf)
            /\ (name_inside c = true ->
                pos c <= start t /\ start t <= end_ t /\ end_ t <= getEnd c).
Proof.
  apply (Permutation_in _ (Permutation_sym (Array_sort_Permutation _ _))) in Ht.
  rewrite collect_flat_map in Ht. apply in_flat_map in Ht as [c [Hc Ht]].
  destruct (V2.isTopLevelDeclaration c sf) eqn:E.
  - destruct (visit_classified sf c E) as [t' [Hv Hb]]. rewrite Hv in Ht.
    destruct Ht as [<- | []]. exists c. split; [|exact Hb].
    unfold qualifying. apply filter_In. now split.
  - rewrite (visit_rejected_child sf c Hlinked Hc E) in Ht. destruct Ht.
Qed.

(** The walk only pushes targets of the six kinds. *)
Lemma visit_kinds (n : Node) :
  forall targets,
    Forall (fun t => In (kind t) target_kinds) targets ->
    Forall (fun t => In (kind t) target_kinds) (V2.visit sf n targets).
Proof.
  induction n as [n IH] using Node_children_ind. intros targets Hacc.
  rewrite visit_unfold.
  destruct (V2.isTopLevelDeclaration n sf) eqn:Hc; cbn [negb].
  - destruct (classified_shape sf n Hc)
      as [[Hv [k [name Hs]]] | [Hv [dl [first [rest [Hs Hd]]]]]]; rewrite Hv; cbn [negb].
    + unfold V2.push. cbv zeta. apply Forall_app. split; [exact Hacc|].
      constructor; [|constructor]. cbn. unfold SyntaxKind_name. rewrite Hs.
      destruct k; cbn; tauto.
    + rewrite Hs, Hd. unfold V2.push.
      destruct (vd_name first); apply Forall_app; (split; [exact Hacc|]);
        (constructor; [|constructor]); cbn; tauto.
  - unfold forEachChild. revert targets Hacc.
    induction (children n) as [|c cs IHcs]; intros targets Hacc; [exact Hacc|].
    inversion IH as [|? ? Hc' Hcs]; subst. cbn. apply IHcs; [exact Hcs|]. now apply Hc'.
Qed.

(** X5: the [kind] of a target of the plan is ["Variable"] or the name of
    one of the five declaration kinds, on every file. *)
Theorem plan_kinds : Forall (fun t => In (kind t) target_kinds) (V2.plan sf).
Proof.
  apply Forall_forall. intros t Ht.
  apply (Permutation_in _ (Permutation_sym (Array_sort_Permutation _ _))) in Ht.
  revert t Ht. apply Forall_forall. unfold V2.collect, forEachChild.
  assert (H : forall cs acc, Forall (fun t => In (kind t) target_kinds) acc ->
              Forall (fun t => In (kind t) target_kinds)
                (fold_left (fun acc c => V2.visit sf c acc) cs acc)).
  { induction cs as [|c cs IH]; intros acc Hacc; [exact Hacc|]. cbn.
    apply IH. now apply visit_kinds. }
  apply H. constructor.
Qed.

End SourceOrder.

Lemma collect_source_order_witness :
  well_linked Samples.index_ts = true
  /\ well_placed Samples.index_ts = true
  /\ StronglySorted (fun a b => end_ a <= start b)
       (V2.collect (NF := ts_NodeFlags) Samples.index_ts)
  /\ Forall (fun t => start t <= end_ t) (V2.collect (NF := ts_NodeFlags) Samples.index_ts).
Proof.
  split; [reflexivity|]. split; [reflexivity|].
  exact (collect_source_order (NF := ts_NodeFlags) Samples.index_ts eq_refl eq_refl).
Defined.

Lemma plan_is_reverse_source_order_witness :
  well_linked Samples.index_ts = true
  /\ well_placed Samples.index_ts = true
  /\ Forall (fun t => start t < end_ t) (V2.collect (NF := ts_NodeFlags) Samples.index_ts)
  /\ V2.plan (NF := ts_NodeFlags) Samples.index_ts
     = rev (V2.collect (NF := ts_NodeFlags) Samples.index_ts).
Proof.
  assert (Hspans : Forall (fun t => start t < end_ t)
                     (V2.collect (NF := ts_NodeFlags) Samples.index_ts)).
  { repeat (first [apply Forall_nil | apply Forall_cons; [reflexivity|]]). }
  split; [reflexivity|]. split; [reflexivity|]. split; [exact Hspans|].
  exact (plan_is_reverse_source_order (NF := ts_NodeFlags) Samples.index_ts
           eq_refl eq_refl Hspans).
Defined.

Lemma plan_targets_inside_witness :
  well_linked Samples.index_ts = true
  /\ In (mkTarget 13 16 "Foo" "ClassDeclaration")
        (V2.plan (NF := ts_NodeFlags) Samples.index_ts)
  /\ exists c, In c (qualifying (NF := ts_NodeFlags) Samples.index_ts)
               /\ (name_inside c = true ->
                   pos c <= 13 /\ 13 <= 16 /\ 16 <= getEnd c).
Proof.
  assert (Ht : In (mkTarget 13 16 "Foo" "ClassDeclaration")
                  (V2.plan (NF := ts_NodeFlags) Samples.index_ts)).
  { repeat (first [left; reflexivity | right]). }
  split; [reflexivity|]. split; [exact Ht|].
  exact (plan_targets_inside (NF := ts_NodeFlags) Samples.index_ts eq_refl
           (mkTarget 13 16 "Foo" "ClassDeclaration") Ht).
Defined.

(** ** Relations every step keeps *)
Section Keeps.
Context {NF : NodeFlags}.
Variable host : Host.
Variable R : State -> State -> Prop.
Hypothesis R_refl : forall st, R st st.
Hypothesis R_trans : forall a b c, R a b -> R b c -> R a c.
Hypothesis R_event :
  forall e st, vocabulary e = true -> R st (mkState (channel st) (trace st ++ [e])).
Hypothesis R_out : forall st, R st (snd (V2.out st)).
Hypothesis R_log : forall msg st, R st (snd (V2.log host msg st)).
Local Open Scope string_scope.

Lemma keeps_ret {A : Type} (a : A) : keeps R (ret a).
Proof. intro st. apply R_refl. Qed.

Lemma keeps_emit (e : Event) : vocabulary e = true -> keeps R (emit e).
Proof. intros H st. now apply R_event. Qed.

Lemma keeps_log (msg : string) : keeps R (V2.log host msg).
Proof. intro st. apply R_log. Qed.

Lemma keeps_call {A : Type} (c : Event) (answer : list Event -> Outcome A) :
  vocabulary c = true -> (forall m, vocabulary (Rejected c m) = true) ->
  keeps R (call c answer).
Proof.
  intros Hc Hr st. unfold call. destruct (answer (trace st)) as [a | m]; cbn.
  - now apply R_event.
  - apply R_trans with (mkState (channel st) (trace st ++ [c])); [now apply R_event|].
    replace (trace st ++ [c; Rejected c m])%list
      with ((trace st ++ [c]) ++ [Rejected c m])%list by now rewrite <- app_assoc.
    apply (R_event (Rejected c m) (mkState (channel st) (trace st ++ [c]))), Hr.
Qed.

Lemma keeps_bind {A B : Type} (m : M A) (k : A -> M B) :
  keeps R m -> (forall a, keeps R (k a)) -> keeps R (bind m k).
Proof.
  intros Hm Hk st. unfold bind. specialize (Hm st).
  destruct (m st) as [[a | e] st1]; cbn in *; [|exact Hm].
  apply R_trans with st1; [exact Hm | apply Hk].
Qed.

Lemma keeps_message_of (v : Thrown) : keeps R (message_of v).
Proof. intro st. apply R_refl. Qed.

Lemma keeps_try_catch {A : Type} (m : M A) (h : Thrown -> M A) :
  keeps R m -> (forall e, keeps R (h e)) -> keeps R (try_catch m h).
Proof.
  intros Hm Hh st. unfold try_catch. specialize (Hm st).
  destruct (m st) as [[a | e] st1]; cbn in *; [exact Hm|].
  apply R_trans with st1; [exact Hm | apply Hh].
Qed.

End Keeps.

Ltac keeps_step :=
  first
    [ apply keeps_ret; assumption
    | apply keeps_log; assumption
    | apply keeps_message_of; assumption
    | apply keeps_emit; [assumption | reflexivity]
    | apply keeps_call; [assumption | assumption | reflexivity | intro; reflexivity]
    | apply keeps_bind; [assumption | | intro]
    | apply keeps_try_catch; [assumption | | intro]
    | match goal with
      | |- keeps _ (match ?x with _ => _ end) => destruct x
      end ].

Section KeepsCommand.
Context {NF : NodeFlags}.
Variable host : Host.
Variable R : State -> State -> Prop.
Hypothesis R_refl : forall st, R st st.
Hypothesis R_trans : forall a b c, R a b -> R b c -> R a c.
Hypothesis R_event :
  forall e st, vocabulary e = true -> R st (mkState (channel st) (trace st ++ [e])).
Hypothesis R_log : forall msg st, R st (snd (V2.log host msg st)).

Lemma keeps_diagnostics_loop (doc : TextDocument) (n : nat) :
  forall i, keeps R (V2.diagnostics_loop host doc n i).
Proof.
  induction n as [|n IH]; intro i; cbn [V2.diagnostics_loop]; [keeps_step|].
  unfold V2.sleep. (apply keeps_bind; [assumption | | intros [|]]); repeat keeps_step.
  apply IH.
Qed.

Lemma keeps_waitForTypeScriptReady (doc : TextDocument) :
  keeps R (V2.waitForTypeScriptReady host doc).
Proof.
  unfold V2.waitForTypeScriptReady, V2.wake.
  apply keeps_bind; [assumption | repeat keeps_step | intros _].
  apply keeps_bind; [assumption | apply keeps_diagnostics_loop | intros [|]];
    repeat keeps_step.
Qed.

Lemma keeps_process_target (doc : TextDocument) (total : nat) (done : Z) (t : Target) :
  keeps R (V2.process_target host doc total done t).
Proof.
  unfold V2.process_target, V2.provider_path, V2.fallback_path,
    V2.queryMoveNewFileActions, V2.query_with_kind, V2.query_without_kind,
    V2.executeEditorCodeAction, V2.sleep.
  cbv zeta. repeat keeps_step.
Qed.

Lemma keeps_process_targets (doc : TextDocument) (total : nat) (ts : list Target) :
  forall done, keeps R (V2.process_targets host doc total done ts).
Proof.
  induction ts as [|t ts IH]; intro done; cbn [V2.process_targets]; [keeps_step|].
  apply keeps_bind; [assumption | apply keeps_process_target | intros _; apply IH].
Qed.

Lemma keeps_log_targets (doc : TextDocument) (total : nat) (ts : list Target) :
  forall i, keeps R (V2.log_targets host doc total i ts).
Proof.
  induction ts as [|t ts IH]; intro i; cbn [V2.log_targets]; [keeps_step|].
  apply keeps_bind; [assumption | keeps_step | intros _; apply IH].
Qed.

(** The command is [out()] followed by steps that keep the relation. *)
Lemma keeps_explodeDocument_after_out :
  exists k, V2.explodeDocument host = bind V2.out k /\ keeps R (k tt).
Proof.
  unfold V2.explodeDocument. eexists. split; [reflexivity|]. cbv beta.
  apply keeps_bind; [assumption | keeps_step | intros _].
  apply keeps_bind; [assumption | keeps_step | intros _].
  destruct (activeTextEditor host) as [editor|]; cbv zeta; [|repeat keeps_step].
  apply keeps_bind; [assumption | keeps_step | intros _].
  destruct (negb (V2.isTSLike (document editor))); [repeat keeps_step|].
  apply keeps_bind; [assumption | apply keeps_waitForTypeScriptReady | intros _].
  apply keeps_bind; [assumption | keeps_step | intros _].
  destruct (V2.collect _) as [|t0 ts0]; [repeat keeps_step|].
  apply keeps_bind; [assumption | keeps_step | intros _].
  apply keeps_bind; [assumption | apply keeps_log_targets | intros _].
  apply keeps_bind; [assumption | keeps_step | intros _].
  apply keeps_bind; [assumption | apply keeps_process_targets | intros _].
  repeat keeps_step.
Qed.

End KeepsCommand.

(** ** The output channel and the console *)
Section ChannelFacts.
Context {NF : NodeFlags}.
Variable host : Host.
Local Open Scope string_scope.

Lemma channel_conserved_refl (st : State) : channel_conserved st st.
Proof. exists []. split; [now rewrite app_nil_r | cbn; lia]. Qed.

Lemma channel_conserved_trans (a b c : State) :
  channel_conserved a b -> channel_conserved b c -> channel_conserved a c.
Proof.
  intros [e1 [Ht1 Hc1]] [e2 [Ht2 Hc2]]. exists (e1 ++ e2)%list. split.
  - rewrite Ht2, Ht1. now rewrite app_assoc.
  - rewrite count_app. lia.
Qed.

Lemma channel_conserved_event (e : Event) (st : State) :
  vocabulary e = true ->
  channel_conserved st (mkState (channel st) (trace st ++ [e])).
Proof.
  intro H. exists [e]. split; [reflexivity|]. unfold count. cbn.
  destruct e; try discriminate; cbn; lia.
Qed.

Lemma channel_conserved_log (msg : string) (st : State) :
  channel_conserved st (snd (V2.log host msg st)).
Proof.
  unfold V2.log, V2.out, bind, get_trace, emit. cbn.
  destruct (channel st) eqn:E; cbn.
  - eexists. split; [rewrite <- app_assoc; reflexivity|]. rewrite E. reflexivity.
  - eexists. split; [rewrite <- !app_assoc; reflexivity|]. rewrite E. reflexivity.
Qed.

(** X6: the output channel is created on first use only.  After a run
    there is a channel; the run created exactly one when there was none and
    none when there was one, so a later run creates none. *)
Theorem output_channel_created_once (st : State) :
  channel (snd (V2.explodeDocument host st)) = true
  /\ exists evs,
       trace (snd (V2.explodeDocument host st)) = (trace st ++ evs)%list
       /\ count is_create evs = if channel st then 0%nat else 1%nat.
Proof.
  destruct (keeps_explodeDocument_after_out host channel_conserved
              channel_conserved_refl channel_conserved_trans
              channel_conserved_event channel_conserved_log) as [k [E Hk]].
  rewrite E. unfold bind, V2.out. destruct (channel st) eqn:Ec.
  - destruct (Hk st) as [evs [Ht Hc]]. rewrite Ec in Hc.
    destruct (channel (snd (k tt st))) eqn:Ec'; cbn in Hc; [|lia].
    split; [reflexivity|]. exists evs. split; [exact Ht | lia].
  - destruct (Hk (mkState true (trace st ++ [CreateOutputChannel "Explode Document"])))
      as [evs [Ht Hc]]. cbn in Ht, Hc.
    destruct (channel (snd (k tt _))) eqn:Ec'; cbn in Hc; [|lia].
    split; [reflexivity|]. exists (CreateOutputChannel "Explode Document" :: evs).
    split; [rewrite Ht; now rewrite <- app_assoc|].
    unfold count in *. cbn. lia.
Qed.

Lemma lines_app (e1 e2 : list Event) :
  channel_lines (e1 ++ e2) = (channel_lines e1 ++ channel_lines e2)%list
  /\ console_lines (e1 ++ e2) = (console_lines e1 ++ console_lines e2)%list.
Proof. unfold channel_lines, console_lines. now rewrite !flat_map_app. Qed.

Lemma mirrored_refl (st : State) : mirrored st st.
Proof. exists []. split; [now rewrite app_nil_r | reflexivity]. Qed.

Lemma mirrored_trans (a b c : State) : mirrored a b -> mirrored b c -> mirrored a c.
Proof.
  intros [e1 [Ht1 Hc1]] [e2 [Ht2 Hc2]]. exists (e1 ++ e2)%list. split.
  - rewrite Ht2, Ht1. now rewrite app_assoc.
  - destruct (lines_app e1 e2) as [-> ->]. now rewrite Hc1, Hc2.
Qed.

Lemma mirrored_event (e : Event) (st : State) :
  vocabulary e = true -> mirrored st (mkState (channel st) (trace st ++ [e])).
Proof.
  intro H. exists [e]. split; [reflexivity|]. destruct e; try discriminate; reflexivity.
Qed.

Lemma mirrored_log (msg : string) (st : State) : mirrored st (snd (V2.log host msg st)).
Proof.
  unfold V2.log, V2.out, bind, get_trace, emit. cbn.
  destruct (channel st); cbn.
  - eexists. split; [rewrite <- app_assoc; reflexivity | reflexivity].
  - eexists. split; [rewrite <- !app_assoc; reflexivity | reflexivity].
Qed.

(** X7: whatever happens during a run, the console receives the lines the
    output channel receives, in the same order. *)
Theorem console_mirrors_channel (st : State) :
  exists evs,
    trace (snd (V2.explodeDocument host st)) = (trace st ++ evs)%list
    /\ channel_lines evs = console_lines evs.
Proof.
  destruct (keeps_explodeDocument_after_out host mirrored
              mirrored_refl mirrored_trans mirrored_event mirrored_log) as [k [E Hk]].
  rewrite E. unfold bind, V2.out. destruct (channel st).
  - apply Hk.
  - destruct (Hk (mkState true (trace st ++ [CreateOutputChannel "Explode Document"])))
      as [evs [Ht Hc]]. cbn in Ht.
    exists (CreateOutputChannel "Explode Document" :: evs).
    split; [rewrite Ht; now rewrite <- app_assoc | exact Hc].
Qed.

End ChannelFacts.

(** ** The final notification *)
Section NotificationFacts.
Context {NF : NodeFlags}.
Variable host : Host.
Local Open Scope string_scope.












End NotificationFacts.

(** ** Waiting for the TypeScript extension *)
Section WarmupFacts.
Variable host : Host.
Variable doc : TextDocument.
Local Open Scope string_scope.

Lemma timeouts_app (e1 e2 : list Event) :
  timeouts (e1 ++ e2) = (timeouts e1 ++ timeouts e2)%list.
Proof. unfold timeouts. now rewrite flat_map_app. Qed.

Lemma timeouts_none (q : Event -> bool) (evs : list Event) :
  (forall e ms, q e = true -> e <> SetTimeout ms) -> forallb q evs = true -> timeouts evs = [].
Proof.
  intros H Hq. unfold timeouts. induction evs as [|e evs IH]; [reflexivity|].
  cbn in Hq. apply andb_true_iff in Hq as [He Hq]. cbn. rewrite (IH Hq).
  destruct e; try reflexivity. exfalso. now apply (H _ ms He).
Qed.

Lemma output_no_ping (evs : list Event) :
  forallb is_output evs = true -> count is_ping evs = 0%nat /\ timeouts evs = [].
Proof.
  intro H. split.
  - apply (count_none _ is_output); [|exact H]. now intros [].
  - apply (timeouts_none is_output); [|exact H]. intros e ms He ->. discriminate.
Qed.

(** The ping loop, with [n] rounds left at counter [i]: it sleeps after
    each ping without an answer and stops at the first answer. *)
Lemma diagnostics_loop_spec (n : nat) :
  forall i,
    spec (V2.diagnostics_loop host doc n i)
         (fun returned evs =>
            exists k, timeouts evs = repeat 100 k
                      /\ if returned : bool
                         then (k < n)%nat /\ count is_ping evs = S k
                              /\ logged ("Diagnostics check " ++ show (i + Z.of_nat k + 1)
                                         ++ " ok for " ++ fsPath doc) evs
                         else k = n /\ count is_ping evs = n)
         (fun _ _ => False).
Proof.
  induction n as [|n IH]; intro i; cbn [V2.diagnostics_loop].
  - apply spec_ret. exists 0%nat. now repeat split.
  - eapply spec_bind with
      (Q1 := fun _ e => e = [GetDiagnostics])
      (X1 := fun _ _ => False)
      (Q2 := fun (diags : bool) (returned : bool) e =>
               exists k, timeouts e = repeat 100 k
                         /\ if returned
                            then (k < S n)%nat /\ count is_ping e = k
                                 /\ logged ("Diagnostics check " ++ show (i + Z.of_nat k + 1)
                                            ++ " ok for " ++ fsPath doc) e
                            else k = S n /\ count is_ping e = n)
      (X2 := fun _ _ _ => False);
      [now apply spec_call_returns | intros [|] | | auto | auto].
    + eapply spec_bind with
        (Q2 := fun _ (returned : bool) e => returned = true /\ e = [])
        (X2 := fun _ _ _ => False);
        [apply spec_log | intros _; now apply spec_ret | | auto | auto].
      cbv beta. intros _ returned e1 e2 [Hout Hlog] [-> ->]. rewrite app_nil_r.
      destruct (output_no_ping _ Hout) as [Hp Ht]. exists 0%nat.
      rewrite Ht, Hp. repeat split; [lia|].
      now replace (i + Z.of_nat 0 + 1) with (i + 1) by lia.
    + eapply spec_bind with
        (Q1 := fun _ e => e = [SetTimeout 100])
        (X1 := fun _ _ => False)
        (Q2 := fun _ (returned : bool) evs =>
                 exists k, timeouts evs = repeat 100 k
                           /\ if returned
                              then (k < n)%nat /\ count is_ping evs = S k
                                   /\ logged ("Diagnostics check "
                                              ++ show (i + 1 + Z.of_nat k + 1)
                                              ++ " ok for " ++ fsPath doc) evs
                              else k = n /\ count is_ping evs = n)
        (X2 := fun _ _ _ => False);
        [now apply spec_emit | intros _; apply (IH (i + 1)) | | auto | auto].
      cbv beta. intros _ returned e1 e2 -> [k [Ht H]]. exists (S k).
      rewrite timeouts_app, count_app, Ht.
      change (timeouts [SetTimeout 100]) with [100].
      change (count is_ping [SetTimeout 100]) with 0%nat.
      split; [reflexivity|]. destruct returned.
      * destruct H as [Hk [Hp Hlog]]. repeat split; [lia | exact Hp |].
        apply logged_app_r.
        now replace (i + Z.of_nat (S k) + 1) with (i + 1 + Z.of_nat k + 1) by lia.
      * destruct H as [-> Hp]. now split.
    + cbv beta. intros diags returned e1 e2 -> [k [Ht H]]. exists k.
      rewrite timeouts_app, count_app.
      change (timeouts [GetDiagnostics]) with (@nil Z).
      change (count is_ping [GetDiagnostics]) with 1%nat.
      split; [exact Ht|]. destruct returned.
      * destruct H as [Hk [Hp Hlog]]. repeat split; [exact Hk | lia |].
        now apply logged_app_r.
      * destruct H as [-> Hp]. split; [reflexivity | lia].
Qed.

Lemma poll_output (e : Event) : is_output e = true -> is_poll e = true.
Proof. destruct e; cbn; congruence. Qed.

Lemma wakeup_output (e : Event) : is_output e = true -> is_wakeup e = true.
Proof. destruct e; cbn; congruence. Qed.

Lemma diagnostics_loop_polls (n : nat) :
  forall i, quiet is_poll (V2.diagnostics_loop host doc n i).
Proof.
  induction n as [|n IH]; intro i; cbn [V2.diagnostics_loop].
  - apply quiet_ret.
  - apply quiet_bind; [now apply spec_call_returns|].
    intros [|].
    + apply quiet_bind; [apply quiet_log, poll_output | intros _; apply quiet_ret].
    + apply quiet_bind; [now apply quiet_emit | intros _; apply IH].
Qed.

Lemma wakeup_no_ping (evs : list Event) :
  forallb is_wakeup evs = true -> count is_ping evs = 0%nat /\ timeouts evs = [].
Proof.
  intro H. split.
  - apply (count_none is_ping is_wakeup); [|exact H].
    intros [] He; try reflexivity; discriminate.
  - apply (timeouts_none is_wakeup); [|exact H]. intros e ms He ->. discriminate.
Qed.

(** The last call of a trace of waking events is the activation. *)
Lemma wakeup_last (pre : list Event) (c : Event) (v : Thrown) :
  forallb is_wakeup (pre ++ [c; Rejected c v]) = true -> exists id, c = ExtensionActivate id.
Proof.
  rewrite forallb_app. intro H. apply andb_true_iff in H as [_ H].
  destruct c as [| | | | | | | id | | | | | | | | | | | | | c' v'];
    cbn in H; try discriminate H; [now eexists|].
  destruct c'; discriminate H.
Qed.

Lemma wake_stays : stays is_wakeup (V2.wake host).
Proof.
  unfold V2.wake. destruct (getExtension host _) as [id|]; [|apply stays_log, wakeup_output].
  apply stays_bind; [apply stays_log, wakeup_output | intros _].
  apply stays_try_catch.
  - apply stays_bind; [apply stays_call; reflexivity | intros _].
    apply stays_log, wakeup_output.
  - intro v. apply stays_bind; [apply stays_message_of | intro m].
    apply stays_log, wakeup_output.
Qed.

Lemma wake_escape : may_escape (V2.wake host).
Proof. unfold V2.wake. repeat escape_step. Qed.

(** It is looked up, activated once when it is there, and a failure to
    activate is logged when its message can be read. *)
Lemma wake_spec :
  spec (V2.wake host)
       (fun _ evs =>
          match getExtension host "vscode.typescript-language-features" with
          | None =>
              count is_activation evs = 0%nat
              /\ rejections evs = []
              /\ logged "TypeScript extension vscode.typescript-language-features not found"
                   evs
          | Some id =>
              count is_activation evs = 1%nat /\ In (ExtensionActivate id) evs
              /\ (rejections evs = []
                  \/ exists v m,
                       rejections evs = [(ExtensionActivate id, v)]
                       /\ read_message v = Returns m
                       /\ logged ("TypeScript extension activation error: " ++ m) evs)
          end)
       (fun e evs =>
          match getExtension host "vscode.typescript-language-features" with
          | None => False
          | Some id =>
              count is_activation evs = 1%nat /\ In (ExtensionActivate id) evs
              /\ exists v, rejections evs = [(ExtensionActivate id, v)]
                           /\ read_message v = Throws e
          end).
Proof.
  unfold V2.wake. destruct (getExtension host _) as [id|].
  2:{ eapply spec_weaken; [apply spec_log | | auto]. cbv beta. intros _ e [Hout Hlog].
      split; [|split; [now apply rejections_output | exact Hlog]].
      apply (count_none is_activation is_output); [now intros [] | exact Hout]. }
  assert (Hact : forall e, forallb is_output e = true -> count is_activation e = 0%nat).
  { intros e He. apply (count_none is_activation is_output); [now intros [] | exact He]. }
  eapply spec_bind with
    (Q1 := fun _ e => forallb is_output e = true)
    (X1 := fun _ _ => False)
    (Q2 := fun _ _ evs =>
             count is_activation evs = 1%nat /\ In (ExtensionActivate id) evs
             /\ (rejections evs = []
                 \/ exists v m,
                      rejections evs = [(ExtensionActivate id, v)]
                      /\ read_message v = Returns m
                      /\ logged ("TypeScript extension activation error: " ++ m) evs))
    (X2 := fun _ e evs =>
             count is_activation evs = 1%nat /\ In (ExtensionActivate id) evs
             /\ exists v, rejections evs = [(ExtensionActivate id, v)]
                          /\ read_message v = Throws e);
    [eapply spec_weaken; [apply spec_log | cbv beta; tauto | auto] | intros _ | | now intros | ].
  - eapply spec_try_catch with
      (Q1 := fun _ e => count is_activation e = 1%nat /\ In (ExtensionActivate id) e
                        /\ rejections e = [])
      (X1 := fun v e => e = [ExtensionActivate id; Rejected (ExtensionActivate id) v])
      (Q2 := fun v _ e => exists m, read_message v = Returns m
                                    /\ forallb is_output e = true
                                    /\ logged ("TypeScript extension activation error: " ++ m) e)
      (X2 := fun v e evs => evs = [] /\ read_message v = Throws e).
    + eapply spec_bind with
        (Q1 := fun _ e => e = [ExtensionActivate id])
        (X1 := fun v e => e = [ExtensionActivate id; Rejected (ExtensionActivate id) v])
        (Q2 := fun _ _ e => forallb is_output e = true)
        (X2 := fun _ _ _ => False);
        [now apply spec_call
        | intros _; eapply spec_weaken; [apply spec_log | cbv beta; tauto | auto]
        | | auto | now intros].
      cbv beta. intros _ _ e1 e2 -> Hout.
      rewrite count_app, rejections_app, (Hact _ Hout), (rejections_output _ Hout).
      split; [reflexivity|]. split; [now left | reflexivity].
    + intro v. apply spec_read_then. intro m. eapply spec_weaken; [apply spec_log | auto | auto].
    + cbv beta. intros _ e [H1 [H2 H3]]. split; [exact H1|]. split; [exact H2 | now left].
    + cbv beta. intros v _ e1 e2 -> [m [Hm [Hout Hlog]]].
      rewrite count_app, rejections_app, (Hact _ Hout), (rejections_output _ Hout).
      split; [reflexivity|]. split; [now left|]. right. exists v, m.
      split; [reflexivity|]. split; [exact Hm | now apply logged_app_r].
    + cbv beta. intros v e e1 e2 -> [-> Hr]. split; [reflexivity|]. split; [now left|].
      now exists v.
  - cbv beta. intros _ _ e1 e2 Hout [H1 [H2 H3]].
    rewrite count_app, rejections_app, (Hact _ Hout), (rejections_output _ Hout).
    split; [exact H1|]. split; [apply in_or_app; now right|].
    destruct H3 as [H3 | [v [m [H3 [H4 H5]]]]]; [now left|].
    right. exists v, m. split; [exact H3|]. split; [exact H4 | now apply logged_app_r].
  - cbv beta. intros _ e e1 e2 Hout [H1 [H2 [v [H3 H4]]]].
    rewrite count_app, rejections_app, (Hact _ Hout), (rejections_output _ Hout).
    split; [exact H1|]. split; [apply in_or_app; now right|]. now exists v.
Qed.

(** X9: waiting for the TypeScript extension is bounded.  When it
    returns, the diagnostics were asked for at most 20 times, with a sleep
    of 100 ms after each ping that got no answer; the wait ended at the
    first answer, or after 20 pings with a warning in the log.  It throws
    only before the first ping, out of the catch clause of an activation
    that rejected with a value whose message cannot be read. *)
Theorem waitForTypeScriptReady_bounded (st : State) :
  exists evs,
    trace (snd (V2.waitForTypeScriptReady host doc st)) = (trace st ++ evs)%list
    /\ match fst (V2.waitForTypeScriptReady host doc st) with
       | Returns _ =>
           exists k,
             timeouts evs = repeat 100 k
             /\ ((k < 20)%nat
                 /\ count is_ping evs = S k
                 /\ logged ("Diagnostics check " ++ show (Z.of_nat (S k)) ++ " ok for "
                            ++ fsPath doc) evs
                 \/ k = 20%nat
                    /\ count is_ping evs = 20%nat
                    /\ logged "Warning: diagnostics ping loop ended without confirmation" evs)
       | Throws e =>
           count is_ping evs = 0%nat
           /\ timeouts evs = []
           /\ exists pre id v,
                evs = (pre ++ [ExtensionActivate id; Rejected (ExtensionActivate id) v])%list
                /\ read_message v = Throws e
       end.
Proof.
  assert (H : spec (V2.waitForTypeScriptReady host doc)
                (fun _ evs =>
                   exists k,
                     timeouts evs = repeat 100 k
                     /\ ((k < 20)%nat
                         /\ count is_ping evs = S k
                         /\ logged ("Diagnostics check " ++ show (Z.of_nat (S k)) ++ " ok for "
                                    ++ fsPath doc) evs
                         \/ k = 20%nat
                            /\ count is_ping evs = 20%nat
                            /\ logged "Warning: diagnostics ping loop ended without confirmation"
                                 evs))
                (fun e evs => forallb is_wakeup evs = true /\ escaped e evs)).
  { unfold V2.waitForTypeScriptReady.
    eapply spec_bind with
      (Q1 := fun _ e => forallb is_wakeup e = true)
      (X1 := fun e evs => forallb is_wakeup evs = true /\ escaped e evs)
      (Q2 := fun _ _ evs =>
               exists k,
                 timeouts evs = repeat 100 k
                 /\ ((k < 20)%nat
                     /\ count is_ping evs = S k
                     /\ logged ("Diagnostics check " ++ show (Z.of_nat (S k)) ++ " ok for "
                                ++ fsPath doc) evs
                     \/ k = 20%nat
                        /\ count is_ping evs = 20%nat
                        /\ logged "Warning: diagnostics ping loop ended without confirmation"
                             evs))
      (X2 := fun _ _ _ => False);
      [eapply spec_weaken; [apply (spec_conj _ _ _ _ _ wake_stays wake_escape) | | ];
       cbv beta; tauto
      | intros _ | | auto | now intros].
    - eapply spec_bind with
        (Q2 := fun (returned : bool) _ e =>
                 if returned then e = []
                 else forallb is_output e = true
                      /\ logged "Warning: diagnostics ping loop ended without confirmation" e)
        (X2 := fun _ _ _ => False);
        [apply (diagnostics_loop_spec 20 0) | intros [|] | | auto | auto].
      + now apply spec_ret.
      + apply spec_log.
      + cbv beta. intros [|] _ e1 e2 [k [Ht H]] H2.
        * subst e2. rewrite app_nil_r. destruct H as [Hk [Hp Hl]]. exists k.
          split; [exact Ht|]. left. repeat split; [exact Hk | exact Hp|].
          replace (Z.of_nat (S k)) with (0 + Z.of_nat k + 1) by lia. exact Hl.
        * destruct H as [-> Hp]. destruct H2 as [Hout Hl].
          destruct (output_no_ping _ Hout) as [Hp2 Ht2]. exists 20%nat.
          rewrite timeouts_app, count_app, Ht, Ht2, Hp, Hp2, app_nil_r.
          split; [reflexivity|]. right. repeat split. now apply logged_app_r.
    - cbv beta. intros _ _ e1 e2 H1 [k [Ht H]]. exists k.
      destruct (wakeup_no_ping _ H1) as [Hp1 Ht1].
      rewrite timeouts_app, count_app, Hp1, Ht1.
      split; [exact Ht|]. destruct H as [[Hk [Hp Hl]] | [Hk [Hp Hl]]].
      + left. repeat split; [exact Hk | exact Hp | now apply logged_app_r].
      + right. repeat split; [exact Hk | exact Hp | now apply logged_app_r]. }
  destruct (H st) as [evs [Ht Hq]]. exists evs. split; [exact Ht|].
  destruct (fst (V2.waitForTypeScriptReady host doc st)) as [[] | e]; [exact Hq|].
  destruct Hq as [Hw [pre [c [v [-> Hv]]]]].
  destruct (wakeup_no_ping _ Hw) as [Hp Hto]. split; [exact Hp|]. split; [exact Hto|].
  destruct (wakeup_last _ _ _ Hw) as [id ->]. now exists pre, id, v.
Qed.

Lemma warmup_last (pre : list Event) (c : Event) (v : Thrown) :
  forallb is_warmup (pre ++ [c; Rejected c v]) = true -> exists id, c = ExtensionActivate id.
Proof.
  rewrite forallb_app. intro H. apply andb_true_iff in H as [_ H].
  destruct c as [| | | | | | | id | | | | | | | | | | | | | c' v'];
    cbn in H; try discriminate H; [now eexists|].
  destruct c'; discriminate H.
Qed.

Lemma poll_calls (evs : list Event) :
  forallb is_poll evs = true ->
  count is_activation evs = 0%nat /\ rejections evs = [].
Proof.
  intro H. split.
  - apply (count_none is_activation is_poll); [|exact H].
    intros [] He; try reflexivity; discriminate.
  - apply rejections_calls. rewrite forallb_forall in *. intros e He.
    specialize (H e He). destruct e; try reflexivity; discriminate.
Qed.

Lemma waitForTypeScriptReady_spec :
  spec (V2.waitForTypeScriptReady host doc)
       (fun _ evs =>
          match getExtension host "vscode.typescript-language-features" with
          | None =>
              count is_activation evs = 0%nat
              /\ rejections evs = []
              /\ logged "TypeScript extension vscode.typescript-language-features not found"
                   evs
          | Some id =>
              count is_activation evs = 1%nat /\ In (ExtensionActivate id) evs
              /\ (rejections evs = []
                  \/ exists v m,
                       rejections evs = [(ExtensionActivate id, v)]
                       /\ read_message v = Returns m
                       /\ logged ("TypeScript extension activation error: " ++ m) evs)
          end)
       (fun e evs =>
          match getExtension host "vscode.typescript-language-features" with
          | None => False
          | Some id =>
              count is_activation evs = 1%nat /\ In (ExtensionActivate id) evs
              /\ exists v, rejections evs = [(ExtensionActivate id, v)]
                           /\ read_message v = Throws e
          end).
Proof.
  unfold V2.waitForTypeScriptReady.
  eapply spec_bind with
    (Q2 := fun _ _ e => forallb is_poll e = true) (X2 := fun _ _ _ => False);
    [apply wake_spec | intros _ | | auto | now intros].
  - apply quiet_bind; [apply diagnostics_loop_polls|].
    intros [|]; [apply quiet_ret | apply quiet_log, poll_output].
  - cbv beta. intros _ _ e1 e2 H1 H2. destruct (poll_calls _ H2) as [Hc Hr].
    rewrite count_app, rejections_app, Hc, Hr, Nat.add_0_r, app_nil_r.
    destruct (getExtension host _) as [id|].
    + destruct H1 as [H3 [H4 H5]]. split; [exact H3|]. split; [apply in_or_app; now left|].
      destruct H5 as [H5 | [v [m [H5 [H6 H7]]]]]; [now left|].
      right. exists v, m. split; [exact H5|]. split; [exact H6 | now apply logged_app_l].
    + destruct H1 as [H3 [H4 H5]]. split; [exact H3|]. split; [exact H4|].
      now apply logged_app_l.
Qed.

(** X10: the TypeScript extension is activated exactly once when it is
    installed and never when it is not, which the log then says.  Nothing
    but the activation rejects during the wait.  When it rejects with a
    value whose message can be read (an [Error], or any value other than
    [undefined] and [null], a missing message reading as [undefined]), the
    rejection is caught and logged with that message, and the function
    returns; when it rejects with [undefined] or [null], the function
    throws the [TypeError] of the read, and the rejection is the last
    event: nothing is logged after it. *)
Theorem waitForTypeScriptReady_activation (st : State) :
  exists evs,
    trace (snd (V2.waitForTypeScriptReady host doc st)) = (trace st ++ evs)%list
    /\ match getExtension host "vscode.typescript-language-features" with
       | None =>
           count is_activation evs = 0%nat
           /\ logged "TypeScript extension vscode.typescript-language-features not found"
                evs
       | Some id => count is_activation evs = 1%nat /\ In (ExtensionActivate id) evs
       end
    /\ match fst (V2.waitForTypeScriptReady host doc st) with
       | Returns _ =>
           rejections evs = []
           \/ exists id v m,
                rejections evs = [(ExtensionActivate id, v)]
                /\ read_message v = Returns m
                /\ logged ("TypeScript extension activation error: " ++ m) evs
       | Throws e =>
           exists pre id v,
             evs = (pre ++ [ExtensionActivate id; Rejected (ExtensionActivate id) v])%list
             /\ rejections pre = []
             /\ read_message v = Throws e
       end.
Proof.
  destruct (spec_conj _ _ _ _ _ waitForTypeScriptReady_spec
              (spec_conj _ _ _ _ _
                 (waitForTypeScriptReady_stays host is_warmup doc (fun e H => H))
                 (waitForTypeScriptReady_escape host doc)) st) as [evs [Ht H]].
  exists evs. split; [exact Ht|].
  destruct (fst (V2.waitForTypeScriptReady host doc st)) as [[] | e].
  - destruct H as [H _]. destruct (getExtension host _) as [id|].
    + destruct H as [H1 [H2 H3]]. split; [now split|].
      destruct H3 as [H3 | [v [m H3]]]; [now left | right; now exists id, v, m].
    + destruct H as [H1 [H2 H3]]. split; [now split | now left].
  - destruct H as [H [Hw [pre [c [v [-> Hv]]]]]].
    destruct (warmup_last _ _ _ Hw) as [id' ->].
    destruct (getExtension host _) as [id|]; [|contradiction].
    destruct H as [H1 [H2 [v' [H3 H4]]]]. split; [now split|].
    exists pre, id', v. split; [reflexivity|]. split; [|exact Hv].
    rewrite rejections_app in H3.
    change (rejections [ExtensionActivate id'; Rejected (ExtensionActivate id') v])
      with [(ExtensionActivate id', v)] in H3.
    destruct (rejections pre) as [|x l]; [reflexivity|].
    destruct l; discriminate H3.
Qed.

End WarmupFacts.

(** ** Asking the provider *)
Section QueryFacts.
Variable host : Host.
Variable doc : TextDocument.
Variable sel : Selection.
Local Open Scope string_scope.

(** The second block, from the state it starts in. *)
Lemma query_without_kind_run (st : State) :
  exists evs,
    trace (snd (V2.query_without_kind host sel st)) = (trace st ++ evs)%list
    /\ loose_query host sel (trace st) evs (fst (V2.query_without_kind host sel st)).
Proof.
  unfold V2.query_without_kind. cbv zeta. unfold bind. run_log.
  unfold call. cbn [fst snd trace channel].
  destruct (executeCodeActionProvider host (trace st ++ e) sel None) as [b | v] eqn:A.
  - run_log. unfold ret. cbn [fst snd trace channel].
    exists (e ++ ExecuteCodeActionProvider sel None :: e0)%list.
    split; [now rewrite <- !app_assoc|].
    exists e, e0. split; [reflexivity|]. split; [exact O|]. rewrite A.
    split; [reflexivity | exact O0].
  - cbn [fst snd trace channel].
    exists (e ++ [ExecuteCodeActionProvider sel None;
                  Rejected (ExecuteCodeActionProvider sel None) v])%list.
    split; [now rewrite <- !app_assoc|].
    exists e, [Rejected (ExecuteCodeActionProvider sel None) v].
    split; [reflexivity|]. split; [exact O|]. rewrite A. now split.
Qed.

(** The first block, from the state it starts in. *)
Lemma query_with_kind_run (st : State) :
  exists pre,
    forallb is_output pre = true
    /\ match executeCodeActionProvider host (trace st ++ pre) sel
               (Some "refactor.move.newFile") with
       | Returns a =>
           exists post,
             forallb is_output post = true
             /\ V2.query_with_kind host sel st
                = (Returns match filter V2.is_move_newFile (or_empty a) with
                           | [] => None
                           | x :: filtered => Some (x :: filtered)
                           end,
                   mkState true
                     (trace st ++ pre
                      ++ ExecuteCodeActionProvider sel (Some "refactor.move.newFile")
                      :: post))
       | Throws v =>
           match read_message v with
           | Returns m =>
               exists post,
                 forallb is_output post = true
                 /\ logged ("Provider kind query rejected: " ++ m) post
                 /\ V2.query_with_kind host sel st
                    = (Returns None,
                       mkState true
                         (trace st ++ pre
                          ++ ExecuteCodeActionProvider sel (Some "refactor.move.newFile")
                          :: Rejected (ExecuteCodeActionProvider sel
                                         (Some "refactor.move.newFile")) v
                          :: post))
           | Throws e =>
               V2.query_with_kind host sel st
               = (Throws e,
                  mkState true
                    (trace st ++ pre
                     ++ [ExecuteCodeActionProvider sel (Some "refactor.move.newFile");
                         Rejected (ExecuteCodeActionProvider sel
                                     (Some "refactor.move.newFile")) v]))
           end
       end.
Proof.
  unfold V2.query_with_kind. cbv zeta. unfold try_catch, bind. run_log.
  unfold call. cbn [fst snd trace channel].
  exists e. split; [exact O|].
  destruct (executeCodeActionProvider host (trace st ++ e) sel (Some "refactor.move.newFile"))
    as [a | v] eqn:A.
  - run_log. exists e0. split; [exact O0|]. unfold or_empty.
    destruct (filter V2.is_move_newFile _) as [|x l]; unfold ret;
      rewrite <- !app_assoc; reflexivity.
  - unfold message_of. destruct (read_message v) as [m | e'].
    + run_log. exists e0. split; [exact O0|]. split; [exact L0|]. unfold ret.
      now rewrite <- !app_assoc.
    + now rewrite <- !app_assoc.
Qed.

(** X11: what [queryMoveNewFileActions] asks and what it answers.  After
    a line of the log it asks the provider with the kind of the move.  If
    the answer, filtered by kind, is not empty, that list is returned and
    nothing more is asked.  If it is empty, or if the query rejected with a
    value whose message can be read (the message is then logged), the
    provider is asked a second time, without a kind: the answer of that
    query, filtered by kind or by title, is returned, and a rejection of it
    is thrown as it is.  If the first query rejected with a value whose
    message cannot be read, the function throws the [TypeError] of the
    read, and asks nothing more. *)
Theorem queryMoveNewFileActions_answers (st : State) :
  exists pre rest,
    trace (snd (V2.queryMoveNewFileActions host doc sel st))
    = (trace st ++ pre
       ++ ExecuteCodeActionProvider sel (Some "refactor.move.newFile") :: rest)%list
    /\ forallb is_output pre = true
    /\ match executeCodeActionProvider host (trace st ++ pre) sel
               (Some "refactor.move.newFile") with
       | Returns a =>
           match filter V2.is_move_newFile (or_empty a) with
           | [] =>
               loose_query host sel
                 (trace st ++ pre
                  ++ [ExecuteCodeActionProvider sel (Some "refactor.move.newFile")])
                 rest (fst (V2.queryMoveNewFileActions host doc sel st))
           | x :: filtered =>
               fst (V2.queryMoveNewFileActions host doc sel st) = Returns (x :: filtered)
               /\ forallb is_output rest = true
           end
       | Throws v =>
           match read_message v with
           | Returns m =>
               exists rest',
                 rest = Rejected (ExecuteCodeActionProvider sel
                                    (Some "refactor.move.newFile")) v :: rest'
                 /\ logged ("Provider kind query rejected: " ++ m) rest'
                 /\ loose_query host sel
                      (trace st ++ pre
                       ++ [ExecuteCodeActionProvider sel (Some "refactor.move.newFile");
                           Rejected (ExecuteCodeActionProvider sel
                                       (Some "refactor.move.newFile")) v])
                      rest' (fst (V2.queryMoveNewFileActions host doc sel st))
           | Throws e =>
               fst (V2.queryMoveNewFileActions host doc sel st) = Throws e
               /\ rest = [Rejected (ExecuteCodeActionProvider sel
                                      (Some "refactor.move.newFile")) v]
           end
       end.
Proof.
  unfold V2.queryMoveNewFileActions, bind.
  destruct (query_with_kind_run st) as [pre [Hpre H]]. exists pre.
  destruct (executeCodeActionProvider host (trace st ++ pre) sel (Some "refactor.move.newFile"))
    as [a | v].
  - destruct H as [post [Hpost E]]. rewrite E. clear E.
    destruct (filter V2.is_move_newFile (or_empty a)) as [|x l].
    + destruct (query_without_kind_run
                  (mkState true
                     (trace st ++ pre
                      ++ ExecuteCodeActionProvider sel (Some "refactor.move.newFile")
                      :: post))) as [evs [Ht [mid [post' [-> [Hmid Hq]]]]]].
      cbn [trace] in Ht, Hq. rewrite Ht. exists (post ++ mid ++ ExecuteCodeActionProvider sel None :: post')%list.
      split; [now rewrite <- !app_assoc|]. split; [exact Hpre|].
      exists (post ++ mid)%list, post'. split; [now rewrite <- app_assoc|].
      split; [rewrite forallb_app; now rewrite Hpost, Hmid|].
      replace ((trace st ++ pre ++ [ExecuteCodeActionProvider sel (Some "refactor.move.newFile")])
               ++ post ++ mid)%list
        with ((trace st ++ pre ++ ExecuteCodeActionProvider sel (Some "refactor.move.newFile")
               :: post) ++ mid)%list by (now rewrite <- !app_assoc).
      exact Hq.
    + unfold ret. cbn [fst snd trace]. exists post. now repeat split.
  - destruct (read_message v) as [m | e].
    + destruct H as [post [Hpost [Hlog E]]]. rewrite E. clear E.
      destruct (query_without_kind_run
                  (mkState true
                     (trace st ++ pre
                      ++ ExecuteCodeActionProvider sel (Some "refactor.move.newFile")
                      :: Rejected (ExecuteCodeActionProvider sel
                                     (Some "refactor.move.newFile")) v
                      :: post))) as [evs [Ht [mid [post' [-> [Hmid Hq]]]]]].
      cbn [trace] in Ht, Hq. rewrite Ht.
      exists (Rejected (ExecuteCodeActionProvider sel (Some "refactor.move.newFile")) v
              :: post ++ mid ++ ExecuteCodeActionProvider sel None :: post')%list.
      split; [now rewrite <- !app_assoc|]. split; [exact Hpre|].
      exists (post ++ mid ++ ExecuteCodeActionProvider sel None :: post')%list.
      split; [reflexivity|]. split; [now apply logged_app_l|].
      exists (post ++ mid)%list, post'. split; [now rewrite <- app_assoc|].
      split; [rewrite forallb_app; now rewrite Hpost, Hmid|].
      replace ((trace st ++ pre
                ++ [ExecuteCodeActionProvider sel (Some "refactor.move.newFile");
                    Rejected (ExecuteCodeActionProvider sel
                                (Some "refactor.move.newFile")) v])
               ++ post ++ mid)%list
        with ((trace st ++ pre
               ++ ExecuteCodeActionProvider sel (Some "refactor.move.newFile")
               :: Rejected (ExecuteCodeActionProvider sel
                              (Some "refactor.move.newFile")) v
               :: post) ++ mid)%list by (now rewrite <- !app_assoc).
      exact Hq.
    + rewrite H. cbn [fst snd trace].
      exists [Rejected (ExecuteCodeActionProvider sel (Some "refactor.move.newFile")) v].
      now repeat split.
Qed.

End QueryFacts.

(** ** The two ways to apply a move *)
Section ApplyFacts.
Variable host : Host.
Variable doc : TextDocument.
Local Open Scope string_scope.

Lemma plain_output (e : Event) : is_output e = true -> is_plain e = true.
Proof. destruct e; cbn; congruence. Qed.

Lemma plain_counts (evs : list Event) :
  forallb is_plain evs = true ->
  count is_execution evs = 0%nat
  /\ count is_execution_rejection evs = 0%nat
  /\ count is_fallback evs = 0%nat.
Proof.
  intro H. repeat split; apply (count_none _ is_plain); try exact H;
    intros e He; unfold is_plain in He; apply negb_true_iff in He;
    apply orb_false_iff in He as [He H3]; apply orb_false_iff in He as [H1 H2];
    assumption.
Qed.

Lemma output_counts (evs : list Event) :
  forallb is_output evs = true ->
  count is_execution evs = 0%nat
  /\ count is_execution_rejection evs = 0%nat
  /\ count is_fallback evs = 0%nat.
Proof. intro H. apply plain_counts. apply (output_P is_plain plain_output _ H). Qed.

(** X12: the fallback, by what the editor answers.  After a line of the
    log the command [editor.action.codeAction] is run, once.  When it
    resolves, the function returns [true] and does nothing more.  When it
    rejects with a value whose message can be read, the message is logged
    and the function returns [false].  When it rejects with [undefined] or
    [null], the function throws the [TypeError] of the read, and the
    rejection is its last event. *)
Theorem executeEditorCodeAction_answers (kind : string) (st : State) :
  exists pre,
    forallb is_output pre = true
    /\ match editorActionCodeAction host (trace st ++ pre) kind with
       | Returns _ =>
           V2.executeEditorCodeAction host kind st
           = (Returns true,
              mkState true (trace st ++ pre ++ [EditorActionCodeAction kind]))
       | Throws v =>
           match read_message v with
           | Returns m =>
               exists post,
                 forallb is_output post = true
                 /\ logged ("editor.action.codeAction failed: " ++ m) post
                 /\ V2.executeEditorCodeAction host kind st
                    = (Returns false,
                       mkState true
                         (trace st ++ pre
                          ++ EditorActionCodeAction kind
                          :: Rejected (EditorActionCodeAction kind) v :: post))
           | Throws e =>
               V2.executeEditorCodeAction host kind st
               = (Throws e,
                  mkState true
                    (trace st ++ pre
                     ++ [EditorActionCodeAction kind;
                         Rejected (EditorActionCodeAction kind) v]))
           end
       end.
Proof.
  unfold V2.executeEditorCodeAction, try_catch, bind. run_log.
  unfold call. cbn [fst snd trace channel]. exists e. split; [exact O|].
  destruct (editorActionCodeAction host (trace st ++ e) kind) as [[] | v].
  - unfold ret. now rewrite <- !app_assoc.
  - unfold message_of. destruct (read_message v) as [m | e'].
    + run_log. exists e0. split; [exact O0|]. split; [exact L0|]. unfold ret.
      now rewrite <- !app_assoc.
    + now rewrite <- !app_assoc.
Qed.

Lemma tally_app (e1 e2 : list Event) (a b c a' b' c' : nat) :
  tally e1 a b c -> tally e2 a' b' c' -> tally (e1 ++ e2) (a + a') (b + b') (c + c').
Proof.
  intros [H1 [H2 H3]] [H4 [H5 H6]]. unfold tally. rewrite !count_app. lia.
Qed.

Lemma tally_plain (evs : list Event) : forallb is_plain evs = true -> tally evs 0 0 0.
Proof. apply plain_counts. Qed.

Lemma tally_output (evs : list Event) : forallb is_output evs = true -> tally evs 0 0 0.
Proof. apply output_counts. Qed.

(** The fallback, counted: one run of the command, whatever the outcome. *)
Lemma executeEditorCodeAction_tally (kind : string) :
  spec (V2.executeEditorCodeAction host kind)
       (fun _ evs => tally evs 0 0 1) (fun _ evs => tally evs 0 0 1).
Proof.
  intro st. destruct (executeEditorCodeAction_answers kind st) as [pre [Hpre H]].
  pose proof (tally_output _ Hpre) as Tpre.
  destruct (editorActionCodeAction host (trace st ++ pre) kind) as [[] | v].
  - rewrite H. cbn [fst snd trace]. eexists. split; [reflexivity|].
    apply (tally_app pre [EditorActionCodeAction kind] 0 0 0 0 0 1 Tpre). now repeat split.
  - destruct (read_message v) as [m | e].
    + destruct H as [post [Hpost [_ ->]]]. cbn [fst snd trace]. eexists.
      split; [reflexivity|].
      apply (tally_app pre _ 0 0 0 0 0 1 Tpre).
      apply (tally_app [EditorActionCodeAction kind; Rejected (EditorActionCodeAction kind) v]
               post 0 0 1 0 0 0); [now repeat split | now apply tally_output].
    + rewrite H. cbn [fst snd trace]. eexists. split; [reflexivity|].
      apply (tally_app pre _ 0 0 0 0 0 1 Tpre). now repeat split.
Qed.

Lemma queryMoveNewFileActions_plain (sel : Selection) :
  stays is_plain (V2.queryMoveNewFileActions host doc sel).
Proof.
  unfold V2.queryMoveNewFileActions, V2.query_with_kind, V2.query_without_kind.
  repeat stays_step.
Qed.

(** The provider path: when it answers [true] one action was executed and
    resolved; otherwise none was, or the one that was rejected. *)
Lemma provider_path_tally (t : Target) (sel : Selection) :
  spec (V2.provider_path host doc t sel)
       (fun used evs => if used : bool then tally evs 1 0 0
                        else tally evs 0 0 0 \/ tally evs 1 1 0)
       (fun _ evs => tally evs 0 0 0 \/ tally evs 1 1 0).
Proof.
  unfold V2.provider_path.
  eapply spec_try_catch with
    (Q1 := fun (used : bool) e => if used then tally e 1 0 0 else tally e 0 0 0)
    (X1 := fun _ e => tally e 0 0 0 \/ tally e 1 1 0)
    (Q2 := fun _ (used : bool) e => used = false /\ forallb is_output e = true)
    (X2 := fun _ _ e => e = []).
  - eapply spec_bind with
      (Q1 := fun _ e => forallb is_plain e = true)
      (X1 := fun _ e => forallb is_plain e = true)
      (Q2 := fun _ (used : bool) e => if used then tally e 1 0 0 else tally e 0 0 0)
      (X2 := fun _ _ e => tally e 1 1 0);
      [apply queryMoveNewFileActions_plain | intro actions | | | ].
    + eapply spec_bind with
        (Q1 := fun _ e => forallb is_output e = true)
        (X1 := fun _ _ => False)
        (Q2 := fun _ (used : bool) e => if used then tally e 1 0 0 else tally e 0 0 0)
        (X2 := fun _ _ e => tally e 1 1 0);
        [eapply spec_weaken; [apply spec_log | cbv beta; tauto | now intros]
        | intros _ | | now intros | ].
      * destruct actions as [|action rest]; [now apply spec_ret|]. cbv zeta.
        eapply spec_bind with
          (Q1 := fun _ e => forallb is_output e = true)
          (X1 := fun _ _ => False)
          (Q2 := fun _ (used : bool) e => used = true /\ tally e 1 0 0)
          (X2 := fun _ _ e => tally e 1 1 0);
          [eapply spec_weaken; [apply spec_log | cbv beta; tauto | now intros]
          | intros _ | | now intros | ].
        -- eapply spec_bind with
             (Q1 := fun _ e => tally e 1 0 0)
             (X1 := fun _ e => tally e 1 1 0)
             (Q2 := fun _ (used : bool) e => used = true /\ forallb is_plain e = true)
             (X2 := fun _ _ _ => False);
             [apply spec_call; now intros | intros _ | | now intros | now intros].
           ++ eapply spec_bind with
                (Q1 := fun _ e => forallb is_plain e = true)
                (X1 := fun _ _ => False)
                (Q2 := fun _ (used : bool) e => used = true /\ e = [])
                (X2 := fun _ _ _ => False);
                [now apply spec_emit | intros _; now apply spec_ret
                | | now intros | now intros].
              cbv beta. intros _ used e1 e2 H1 [-> ->]. now rewrite app_nil_r.
           ++ cbv beta. intros _ used e1 e2 H1 [-> H2]. split; [reflexivity|].
              apply (tally_app e1 e2 1 0 0 0 0 0 H1 (tally_plain _ H2)).
        -- cbv beta. intros _ used e1 e2 H1 [-> H2].
           apply (tally_app e1 e2 0 0 0 1 0 0 (tally_output _ H1) H2).
        -- cbv beta. intros _ msg e1 e2 H1 H2.
           apply (tally_app e1 e2 0 0 0 1 1 0 (tally_output _ H1) H2).
      * cbv beta. intros _ used e1 e2 H1 H2. destruct used.
        -- apply (tally_app e1 e2 0 0 0 1 0 0 (tally_output _ H1) H2).
        -- apply (tally_app e1 e2 0 0 0 0 0 0 (tally_output _ H1) H2).
      * cbv beta. intros _ msg e1 e2 H1 H2.
        apply (tally_app e1 e2 0 0 0 1 1 0 (tally_output _ H1) H2).
    + cbv beta. intros actions used e1 e2 H1 H2. destruct used.
      * apply (tally_app e1 e2 0 0 0 1 0 0 (tally_plain _ H1) H2).
      * apply (tally_app e1 e2 0 0 0 0 0 0 (tally_plain _ H1) H2).
    + cbv beta. intros msg e1 H1. left. now apply tally_plain.
    + cbv beta. intros actions msg e1 e2 H1 H2. right.
      apply (tally_app e1 e2 0 0 0 1 1 0 (tally_plain _ H1) H2).
  - intro v. eapply spec_weaken.
    + apply (spec_read_then v) with
        (Q := fun _ (used : bool) e => used = false /\ forallb is_output e = true).
      intro m.
      eapply spec_bind with
        (Q2 := fun _ (used : bool) e => used = false /\ e = []) (X2 := fun _ _ _ => False);
        [apply spec_log | intros _; now apply spec_ret | | now intros | now intros].
      cbv beta. intros _ used e1 e2 [H1 _] [-> ->]. now rewrite app_nil_r.
    + cbv beta. now intros used e [m [_ H]].
    + cbv beta. now intros e evs [-> _].
  - cbv beta. intros [|] e H; [exact H | now left].
  - cbv beta. intros msg used e1 e2 H1 [-> H2].
    pose proof (tally_output _ H2) as H3. destruct H1 as [H1 | H1].
    + left. apply (tally_app e1 e2 0 0 0 0 0 0 H1 H3).
    + right. apply (tally_app e1 e2 1 1 0 0 0 0 H1 H3).
  - cbv beta. intros v e e1 e2 H1 ->. now rewrite app_nil_r.
Qed.

Lemma fallback_path_tally (t : Target) :
  spec (V2.fallback_path host t) (fun _ evs => tally evs 0 0 1) (fun _ evs => tally evs 0 0 1).
Proof.
  unfold V2.fallback_path.
  eapply spec_bind with
    (Q1 := fun _ e => forallb is_output e = true)
    (X1 := fun _ _ => False)
    (Q2 := fun _ _ e => tally e 0 0 1)
    (X2 := fun _ _ e => tally e 0 0 1);
    [eapply spec_weaken; [apply spec_log | cbv beta; tauto | now intros]
    | intros _ | | now intros | ].
  - eapply spec_bind with
      (Q1 := fun (ok : bool) e => tally e 0 0 1)
      (X1 := fun _ e => tally e 0 0 1)
      (Q2 := fun _ _ e => forallb is_plain e = true)
      (X2 := fun _ _ _ => False);
      [apply executeEditorCodeAction_tally | intros [|]; cbn [negb] | | now intros
      | now intros].
    + apply quiet_bind; [apply quiet_log, plain_output | intros _; now apply quiet_emit].
    + apply quiet_log, plain_output.
    + cbv beta. intros ok _ e1 e2 H1 H2.
      apply (tally_app e1 e2 0 0 1 0 0 0 H1 (tally_plain _ H2)).
  - cbv beta. intros _ _ e1 e2 H1 H2.
    apply (tally_app e1 e2 0 0 0 0 0 1 (tally_output _ H1) H2).
  - cbv beta. intros _ _ e1 e2 H1 H2.
    apply (tally_app e1 e2 0 0 0 0 0 1 (tally_output _ H1) H2).
Qed.

Lemma process_target_tally (total : nat) (done : Z) (t : Target) :
  spec (V2.process_target host doc total done t)
       (fun _ evs => tally evs 1 0 0 \/ tally evs 0 0 1 \/ tally evs 1 1 1)
       (fun _ evs => tally evs 0 0 0 \/ tally evs 1 1 0
                     \/ tally evs 0 0 1 \/ tally evs 1 1 1).
Proof.
  unfold V2.process_target. cbv zeta.
  assert (Hpre : forall (b : unit) e1 e2, forallb is_plain e1 = true ->
                 tally e2 1 0 0 \/ tally e2 0 0 1 \/ tally e2 1 1 1 ->
                 tally (e1 ++ e2) 1 0 0 \/ tally (e1 ++ e2) 0 0 1 \/ tally (e1 ++ e2) 1 1 1).
  { intros _ e1 e2 H1 [H2 | [H2 | H2]]; pose proof (tally_plain _ H1) as H0.
    - left. apply (tally_app e1 e2 0 0 0 1 0 0 H0 H2).
    - right; left. apply (tally_app e1 e2 0 0 0 0 0 1 H0 H2).
    - right; right. apply (tally_app e1 e2 0 0 0 1 1 1 H0 H2). }
  assert (HX : forall (v : Thrown) e1 e2, forallb is_plain e1 = true ->
               tally e2 0 0 0 \/ tally e2 1 1 0 \/ tally e2 0 0 1 \/ tally e2 1 1 1 ->
               tally (e1 ++ e2) 0 0 0 \/ tally (e1 ++ e2) 1 1 0
               \/ tally (e1 ++ e2) 0 0 1 \/ tally (e1 ++ e2) 1 1 1).
  { intros _ e1 e2 H1 [H2 | [H2 | [H2 | H2]]]; pose proof (tally_plain _ H1) as H0.
    - left. apply (tally_app e1 e2 0 0 0 0 0 0 H0 H2).
    - right; left. apply (tally_app e1 e2 0 0 0 1 1 0 H0 H2).
    - right; right; left. apply (tally_app e1 e2 0 0 0 0 0 1 H0 H2).
    - right; right; right. apply (tally_app e1 e2 0 0 0 1 1 1 H0 H2). }
  apply spec_bind_prefix with (P := is_plain);
    [now apply quiet_emit | intros _ | exact Hpre | exact HX].
  apply spec_bind_prefix with (P := is_plain);
    [now apply quiet_emit | intros _ | exact Hpre | exact HX].
  apply spec_bind_prefix with (P := is_plain);
    [now apply quiet_emit | intros _ | exact Hpre | exact HX].
  apply spec_bind_prefix with (P := is_plain);
    [apply quiet_log, plain_output | intros _ | exact Hpre | exact HX].
  eapply spec_bind with
    (Q2 := fun (used : bool) _ e => if used then e = [] else tally e 0 0 1)
    (X2 := fun (used : bool) _ e => used = false /\ tally e 0 0 1);
    [apply provider_path_tally | intros [|] | | | ].
  - now apply spec_ret.
  - eapply spec_weaken; [apply fallback_path_tally | auto | now intros].
  - cbv beta. intros [|] _ e1 e2 H1 H2.
    + subst e2. rewrite app_nil_r. now left.
    + destruct H1 as [H1 | H1].
      * right; left. apply (tally_app e1 e2 0 0 0 0 0 1 H1 H2).
      * right; right. apply (tally_app e1 e2 1 1 0 0 0 1 H1 H2).
  - cbv beta. intros v e1 [H | H]; [now left | right; now left].
  - cbv beta. intros [|] v e1 e2 H1 [Hu H2]; [discriminate Hu|].
    destruct H1 as [H1 | H1].
    + right; right; left. apply (tally_app e1 e2 0 0 0 0 0 1 H1 H2).
    + right; right; right. apply (tally_app e1 e2 1 1 0 0 0 1 H1 H2).
Qed.

(** X13: in the round of a target at most one action is executed, the
    first one the provider offers, and the fallback command is run at most
    once, and not after an execution that resolved.  A round that returns
    has either executed an action that resolved, without the fallback, or
    run the fallback once, after no execution or a rejected one.  A round
    throws only out of a catch clause, at a rejection whose message cannot
    be read, which is then its last event. *)
Theorem process_target_applies_once (total : nat) (done : Z) (t : Target) (st : State) :
  exists evs,
    trace (snd (V2.process_target host doc total done t st)) = (trace st ++ evs)%list
    /\ (count is_execution evs <= 1)%nat
    /\ (count is_fallback evs <= 1)%nat
    /\ (count is_fallback evs = 1%nat ->
        count is_execution evs = count is_execution_rejection evs)
    /\ match fst (V2.process_target host doc total done t st) with
       | Returns _ =>
           count is_fallback evs = 0%nat
           /\ count is_execution evs = 1%nat
           /\ count is_execution_rejection evs = 0%nat
           \/ count is_fallback evs = 1%nat
              /\ count is_execution evs = count is_execution_rejection evs
       | Throws e =>
           exists pre c v, evs = (pre ++ [c; Rejected c v])%list
                           /\ read_message v = Throws e
       end.
Proof.
  destruct (spec_conj _ _ _ _ _ (process_target_tally total done t)
              (process_target_escape host doc total done t) st) as [evs [Ht H]].
  exists evs. split; [exact Ht|]. unfold tally in H.
  destruct (fst (V2.process_target host doc total done t st)) as [[] | e].
  - destruct H as [[[H1 [H2 H3]] | [[H1 [H2 H3]] | [H1 [H2 H3]]]] _];
      rewrite H1, H2, H3; (split; [lia|]); (split; [lia|]); (split; [intro; lia|]).
    + left. now repeat split.
    + right. now split.
    + right. now split.
  - destruct H as [[[H1 [H2 H3]] | [[H1 [H2 H3]] | [[H1 [H2 H3]] | [H1 [H2 H3]]]]] He];
      rewrite H1, H2, H3; (split; [lia|]); (split; [lia|]); (split; [intro; lia|]);
      exact He.
Qed.

End ApplyFacts.

(** ** The progress counter *)
Section ProgressFacts.
Context {NF : NodeFlags}.
Variable host : Host.
Local Open Scope string_scope.











End ProgressFacts.

(** ** The first revision's command *)
Section FirstRevisionFacts.
Context {NF : NodeFlags}.
Variable host : Host.
Local Open Scope string_scope.

Lemma warned_app (e1 e2 : list Event) : warned e1 -> warned e2 -> warned (e1 ++ e2).
Proof.
  induction e1 as [|e e1 IH]; [now intros|].
  intros H1 H2. destruct e as [| | | | | | | | | | | | | | | | | | | | c err];
    try (now apply IH).
  destruct H1 as [Hc [Hw H1]]. change (warned ((Rejected c err :: e1) ++ e2)) with
    (is_application c = true
     /\ match (e1 ++ e2)%list with
        | ShowWarningMessage w :: _ =>
            w = "Explode Document: one declaration failed: " ++ error_message err
        | _ => False
        end
     /\ warned (e1 ++ e2)).
  split; [exact Hc|]. split; [| now apply IH].
  destruct e1 as [|e' e1']; [contradiction | exact Hw].
Qed.

Lemma tame_app (e1 e2 : list Event) : tame e1 -> tame e2 -> tame (e1 ++ e2).
Proof.
  intros [H1 H2] [H3 H4]. split; [now apply warned_app|]. rewrite count_app. lia.
Qed.

Lemma calm_tame (evs : list Event) : forallb calm evs = true -> tame evs.
Proof.
  intro H. split.
  - induction evs as [|e evs IH]; [exact I|].
    cbn [forallb] in H. apply andb_true_iff in H as [He H].
    destruct e; try (now apply IH). discriminate He.
  - apply (count_none is_final calm); [|exact H].
    intros e He. unfold calm in He. apply andb_true_iff in He as [_ He].
    now destruct (is_final e).
Qed.

(** Applying one action never throws: a rejection is answered by the
    warning. *)
Lemma apply_action_tame (action : CodeAction) :
  spec (V1.apply_action host action) (fun _ e => tame e) (fun _ _ => False).
Proof.
  unfold V1.apply_action.
  pose (X := fun (msg : Thrown) (e : list Event) =>
               exists pre c, e = (pre ++ [c; Rejected c msg])%list
                             /\ is_application c = true
                             /\ forallb calm pre = true).
  eapply spec_try_catch with
    (Q1 := fun _ e => forallb calm e = true)
    (X1 := X)
    (Q2 := fun err _ e =>
             e = [ShowWarningMessage ("Explode Document: one declaration failed: "
                                      ++ error_message err)])
    (X2 := fun _ _ _ => False).
  - eapply spec_bind with
      (Q1 := fun _ e => forallb calm e = true)
      (X1 := X)
      (Q2 := fun _ _ e => forallb calm e = true)
      (X2 := fun _ => X).
    + destruct (edit action) as [e|].
      * apply spec_call; [reflexivity|]. intro m. exists [], (ApplyEdit e). now repeat split.
      * now apply spec_ret.
    + intros _. destruct (command action) as [c|].
      * apply spec_call; [reflexivity|]. intro m. exists [], (ExecuteCommand c). now repeat split.
      * now apply spec_ret.
    + cbv beta. intros _ _ e1 e2 H1 H2. rewrite forallb_app. now rewrite H1, H2.
    + now intros.
    + cbv beta. intros _ msg e1 e2 H1 [pre [c [-> [Hc Hpre]]]].
      exists (e1 ++ pre)%list, c. rewrite app_assoc. repeat split; [exact Hc|].
      rewrite forallb_app. now rewrite H1, Hpre.
  - intro msg. now apply spec_emit.
  - cbv beta. intros _ e H. now apply calm_tame.
  - cbv beta. intros msg _ e1 e2 [pre [c [-> [Hc Hpre]]]] ->.
    rewrite <- app_assoc. apply tame_app; [now apply calm_tame|].
    destruct c; try discriminate Hc.
    + split; [|reflexivity]. cbn [app warned]. now repeat split.
    + split; [|reflexivity]. cbn [app warned]. now repeat split.
  - now intros.
Qed.

Lemma apply_actions_tame (candidates : list CodeAction) :
  spec (V1.apply_actions host candidates) (fun _ e => tame e) (fun _ _ => False).
Proof.
  induction candidates as [|action rest IH]; cbn [V1.apply_actions].
  - apply spec_ret. now split.
  - eapply spec_bind with
      (Q1 := fun _ e => tame e) (X1 := fun _ _ => False)
      (Q2 := fun _ _ e => tame e) (X2 := fun _ _ _ => False);
      [apply apply_action_tame | intros _; exact IH | | now intros | now intros].
    cbv beta. intros _ _ e1 e2. apply tame_app.
Qed.

Lemma escapes_after (e1 e2 : list Event) (msg : Thrown) :
  tame e1 -> escapes msg e2 -> escapes msg (e1 ++ e2).
Proof.
  intros H1 [body [range [k [-> H2]]]]. exists (e1 ++ body)%list, range, k.
  split; [now rewrite app_assoc | now apply tame_app].
Qed.

(** A round of the first revision throws only at its provider query. *)
Lemma process_range_spec (total : nat) (done : Z) (range : Selection) :
  spec (V1.process_range host total done range) (fun _ e => tame e) escapes.
Proof.
  unfold V1.process_range.
  eapply spec_bind with
    (Q1 := fun _ e => tame e) (X1 := fun _ _ => False)
    (Q2 := fun _ _ e => tame e) (X2 := fun _ => escapes);
    [apply spec_emit; now split | intros _ | | now intros | ].
  - eapply spec_bind with
      (Q1 := fun _ e => tame e) (X1 := escapes)
      (Q2 := fun _ _ e => tame e) (X2 := fun _ _ _ => False);
      [apply spec_call | intro r; cbv zeta; apply apply_actions_tame | | now intros | now intros].
    + intros _. now split.
    + intro m. exists [], range, (Some RefactorMove_newFile). now repeat split.
    + cbv beta. intros _ _ e1 e2. apply tame_app.
  - cbv beta. intros _ _ e1 e2. apply tame_app.
  - cbv beta. intros _ msg e1 e2. apply escapes_after.
Qed.

Lemma process_ranges_spec (total : nat) (ranges : list Selection) (done : Z) :
  spec (V1.process_ranges host total done ranges) (fun _ e => tame e) escapes.
Proof.
  revert done. induction ranges as [|range rest IH]; intro done; cbn [V1.process_ranges].
  - apply spec_ret. now split.
  - eapply spec_bind with
      (Q1 := fun _ e => tame e) (X1 := escapes)
      (Q2 := fun _ _ e => tame e) (X2 := fun _ => escapes);
      [apply process_range_spec | intros _; apply IH | | now intros | ].
    + cbv beta. intros _ _ e1 e2. apply tame_app.
    + cbv beta. intros _ msg e1 e2. apply escapes_after.
Qed.

Lemma explodeDocument_first_spec :
  spec (V1.explodeDocument host)
       (fun _ evs => exists body n, evs = (body ++ [n])%list
                                    /\ tame body /\ is_final n = true)
       escapes.
Proof.
  unfold V1.explodeDocument.
  destruct (activeTextEditor host) as [editor|];
    [| apply spec_emit; eexists [], _; now repeat split].
  cbv zeta. destruct (negb (V1.checkDocumentLanguage (document editor)));
    [apply spec_emit; eexists [], _; now repeat split|].
  eapply spec_bind with
    (Q1 := fun _ e => tame e) (X1 := fun _ _ => False)
    (Q2 := fun _ _ evs => exists body n, evs = (body ++ [n])%list
                                        /\ tame body /\ is_final n = true)
    (X2 := fun _ => escapes);
    [apply spec_emit; now split | intros _ | | now intros | ].
  - destruct (V1.nameRanges _ _) as [|range rest];
      [apply spec_emit; eexists [], _; now repeat split|].
    eapply spec_bind with
      (Q1 := fun _ e => tame e) (X1 := fun _ _ => False)
      (Q2 := fun _ _ evs => exists body n, evs = (body ++ [n])%list
                                          /\ tame body /\ is_final n = true)
      (X2 := fun _ => escapes);
      [apply spec_emit; now split | intros _ | | now intros | ].
    + eapply spec_bind with
        (Q1 := fun _ e => tame e) (X1 := escapes)
        (Q2 := fun _ _ evs => exists n, evs = [n] /\ is_final n = true)
        (X2 := fun _ _ _ => False);
        [apply process_ranges_spec | intros _; apply spec_emit; eexists; now split
        | | now intros | now intros].
      cbv beta. intros _ _ e1 e2 H1 [n [-> Hn]]. now exists e1, n.
    + cbv beta. intros _ _ e1 e2 H1 [body [n [-> [H2 Hn]]]].
      exists (e1 ++ body)%list, n. rewrite app_assoc. repeat split; try exact Hn;
        now apply tame_app.
    + cbv beta. intros _ msg e1 e2. apply escapes_after.
  - cbv beta. intros _ _ e1 e2 H1 [body [n [-> [H2 Hn]]]].
    exists (e1 ++ body)%list, n. rewrite app_assoc. repeat split; try exact Hn;
      now apply tame_app.
  - cbv beta. intros _ msg e1 e2. apply escapes_after.
Qed.

(** X14: the first revision ends in exactly one of two ways.  It returns,
    and its last event is the one error or information message of the run;
    or it throws, and then its last two events are a provider query and the
    rejection of that query, whose value is the value thrown, and no
    error or information message is shown.  In both cases every other
    rejection is one of applying an edit or running a command, directly
    followed by the warning with its message: the [message] of an [Error],
    the string conversion of any other value. *)
Theorem first_revision_ends (st : State) :
  exists evs,
    trace (snd (V1.explodeDocument host st)) = (trace st ++ evs)%list
    /\ match fst (V1.explodeDocument host st) with
       | Returns _ =>
           exists body n, evs = (body ++ [n])%list
                          /\ warned body
                          /\ count is_final body = 0%nat
                          /\ is_final n = true
       | Throws err =>
           exists body range k,
             evs = (body ++ [ExecuteCodeActionProvider range k;
                             Rejected (ExecuteCodeActionProvider range k) err])%list
             /\ warned body
             /\ count is_final evs = 0%nat
       end.
Proof.
  destruct (explodeDocument_first_spec st) as [evs [Ht H]]. exists evs. split; [exact Ht|].
  destruct (fst (V1.explodeDocument host st)) as [[] | msg].
  - destruct H as [body [n [-> [[H1 H2] Hn]]]]. now exists body, n.
  - destruct H as [body [range [k [-> [H1 H2]]]]]. exists body, range, k.
    repeat split; [exact H1|]. rewrite count_app, H2. reflexivity.
Qed.

End FirstRevisionFacts.
